(** * Per-user memory store: deep-merge patches over a Durable Object

    A shallow embedding of [memory.ts] (the [UserContextDO] durable object and
    its [deepMerge] helper) and the properties of its get / patch operations.

    The TypeScript types are erased when the code runs: the patch is whatever
    JSON arrives in the request body.  The embedding therefore works on
    untyped JavaScript values, and keeps the exceptions that the JavaScript
    operations raise ([JSON.parse(undefined)], property writes on [null] or on
    a primitive in strict mode). *)

From Stdlib Require Import String List ZArith Bool Lia.
Import ListNotations.
Local Open Scope string_scope.
Local Open Scope Z_scope.

Set Implicit Arguments.

(** ** JavaScript values *)

(** [Obj] is a plain object, the values for which
    [typeof v === 'object' && v !== null && !Array.isArray(v)] holds.
    Numbers are integers: the numbers of this code are those of
    [Date.now()]. *)

Unset Elimination Schemes.
Inductive value : Type :=
| Undefined : value
| Null : value
| Bool (b : bool)
| Num (n : Z)
| Str (s : string)
| Arr (items : list value)
| Obj (props : list (string * value)).
Set Elimination Schemes.

(** Induction with the hypotheses for the elements of arrays and for the
    property values of objects. *)
Section ValueInd.
Variable P : value -> Prop.
Hypothesis HUndefined : P Undefined.
Hypothesis HNull : P Null.
Hypothesis HBool : forall b, P (Bool b).
Hypothesis HNum : forall n, P (Num n).
Hypothesis HStr : forall s, P (Str s).
Hypothesis HArr : forall items, Forall P items -> P (Arr items).
Hypothesis HObj : forall props, Forall (fun kv => P (snd kv)) props -> P (Obj props).

Fixpoint value_ind (v : value) : P v :=
  match v with
  | Undefined => HUndefined
  | Null => HNull
  | Bool b => HBool b
  | Num n => HNum n
  | Str s => HStr s
  | Arr items =>
      HArr ((fix all (l : list value) : Forall P l :=
               match l with
               | [] => Forall_nil P
               | x :: r => Forall_cons x (value_ind x) (all r)
               end) items)
  | Obj props =>
      HObj ((fix all (l : list (string * value)) : Forall (fun kv => P (snd kv)) l :=
               match l with
               | [] => Forall_nil _
               | kv :: r => Forall_cons kv (value_ind (snd kv)) (all r)
               end) props)
  end.
End ValueInd.

(** [!v] is false: the value is truthy. *)
Definition truthy (v : value) : bool :=
  match v with
  | Undefined | Null => false
  | Bool b => b
  | Num n => negb (n =? 0)
  | Str s => negb (s =? "")%string
  | Arr _ | Obj _ => true
  end.

(** ** Own properties of an object, in insertion order *)

(** Keys that look like array indices, which JavaScript enumerates before
    the others, are not set apart; the statements below read objects by key,
    and the result of a loop over distinct keys does not depend on the order
    of its rounds. *)

Definition props := list (string * value).

Fixpoint lookup (k : string) (ps : props) : option value :=
  match ps with
  | [] => None
  | (k', v) :: rest => if (k =? k')%string then Some v else lookup k rest
  end.

(** [o[k] = v] on the own properties: an existing key keeps its place, a new
    key goes last. *)
Fixpoint assign (k : string) (v : value) (ps : props) : props :=
  match ps with
  | [] => [(k, v)]
  | (k', v') :: rest =>
      if (k =? k')%string then (k, v) :: rest else (k', v') :: assign k v rest
  end.

Definition keys (ps : props) : list string := map fst ps.

(** The own property [k] of [v], when [v] is a plain object that has it. *)
Definition prop (v : value) (k : string) : option value :=
  match v with Obj ps => lookup k ps | _ => None end.

(** The value reached by following the keys [ks] through nested objects. *)
Fixpoint getPath (ks : list string) (v : value) : option value :=
  match ks with
  | [] => Some v
  | k :: rest =>
      match prop v k with
      | Some x => getPath rest x
      | None => None
      end
  end.

(** ** Results of JavaScript operations *)

Inductive exn : Type := SyntaxError | TypeError | StorageError.

(** [Unmodelled] marks behaviour that the value type cannot hold: a property
    written on an array, a property inherited from a prototype, iteration
    over the indices of a string.  The statements below are about runs that
    end in [Ok] or [Throw]. *)
Inductive outcome (A : Type) : Type :=
| Ok (a : A)
| Throw (e : exn)
| Unmodelled.
Arguments Throw {A} e.
Arguments Unmodelled {A}.

Definition obind {A B} (o : outcome A) (f : A -> outcome B) : outcome B :=
  match o with
  | Ok a => f a
  | Throw e => Throw e
  | Unmodelled => Unmodelled
  end.

Notation "x <~ c ;; k" := (obind c (fun x => k))
  (at level 61, c at next level, right associativity).

(** Names that every object inherits from [Object.prototype]. *)
Definition inherited (k : string) : bool :=
  existsb (String.eqb k)
    ["__proto__"; "constructor"; "hasOwnProperty"; "isPrototypeOf";
     "propertyIsEnumerable"; "toLocaleString"; "toString"; "valueOf";
     "__defineGetter__"; "__defineSetter__"; "__lookupGetter__";
     "__lookupSetter__"]%string.

(** [o[k]] as an expression. *)
Definition getProp (o : value) (k : string) : outcome value :=
  match o with
  | Obj ps =>
      match lookup k ps with
      | Some v => Ok v
      | None => if inherited k then Unmodelled else Ok Undefined
      end
  | Undefined | Null => Throw TypeError
  | Bool _ | Num _ | Str _ | Arr _ => Unmodelled
  end.

(** [o[k] = v] in strict mode (the file is an ES module). *)
Definition setProp (o : value) (k : string) (v : value) : outcome value :=
  match o with
  | Obj ps => if (k =? "__proto__")%string then Unmodelled else Ok (Obj (assign k v ps))
  | Undefined | Null => Throw TypeError
  | Bool _ | Num _ | Str _ => Throw TypeError
  | Arr _ => Unmodelled
  end.

(** ** [JSON.parse(JSON.stringify(v))] *)

(** Inside a value: a property whose value is [undefined] is left out, an
    [undefined] array element becomes [null]. *)
Definition jsonProps (each : value -> value) : props -> props :=
  fix loop (l : props) : props :=
    match l with
    | [] => []
    | (k, Undefined) :: r => loop r
    | (k, x) :: r => (k, each x) :: loop r
    end.

Definition jsonItem (each : value -> value) (x : value) : value :=
  match x with Undefined => Null | _ => each x end.

Fixpoint jsonValue (v : value) : value :=
  match v with
  | Arr items => Arr (map (jsonItem jsonValue) items)
  | Obj ps => Obj (jsonProps jsonValue ps)
  | _ => v
  end.

(** At the top: [JSON.stringify(undefined)] is [undefined], and
    [JSON.parse(undefined)] throws a [SyntaxError]. *)
Definition jsonClone (v : value) : outcome value :=
  match v with
  | Undefined => Throw SyntaxError
  | _ => Ok (jsonValue v)
  end.

(** ** [deepMerge] *)

(** [for (const key in source) { ... }] over the own properties of a plain
    object, threading the object under construction. *)
Definition forIn (body : string -> value -> value -> outcome value)
  : props -> value -> outcome value :=
  fix loop (ps : props) (result : value) : outcome value :=
    match ps with
    | [] => Ok result
    | (key, v) :: rest => r <~ body key v result ;; loop rest r
    end.

(** The body of the loop, for the key [key] whose value in the source is [v]. *)
Definition mergeKey (merge : value -> value -> outcome value)
  (key : string) (v : value) (result : value) : outcome value :=
  match v with
  | Undefined => Ok result
  | Obj _ =>
      t <~ getProp result key ;;
      m <~ merge t v ;;
      setProp result key m
  | _ => setProp result key v
  end.

Fixpoint deepMerge (target source : value) {struct source} : outcome value :=
  result <~ jsonClone target ;;
  match source with
  | Obj sp => forIn (mergeKey deepMerge) sp result
  | Undefined | Null | Bool _ | Num _ | Str EmptyString | Arr [] => Ok result
  | Str _ | Arr _ => Unmodelled
  end.

(** The merge of the specification, written from its words: for each key of
    the patch with a non-absent value, recurse when the value is a plain
    object in both the record and the patch, otherwise assign the patch value
    wholesale; keys of the record alone stay as they are. *)
Definition eachKey (body : string -> value -> props -> props)
  : props -> props -> props :=
  fix loop (ps : props) (result : props) : props :=
    match ps with
    | [] => result
    | (key, v) :: rest => loop rest (body key v result)
    end.

Definition specKey (merge : value -> value -> value)
  (key : string) (v : value) (result : props) : props :=
  match v with
  | Undefined => result
  | Obj _ =>
      match lookup key result with
      | Some (Obj tv) => assign key (merge (Obj tv) v) result
      | _ => assign key v result
      end
  | _ => assign key v result
  end.

Fixpoint specMerge (target source : value) {struct source} : value :=
  match target, source with
  | Obj tp, Obj sp => Obj (eachKey (specKey specMerge) sp tp)
  | _, _ => source
  end.

(** ** The durable object and its environment *)

(** What an awaited storage operation does to the environment: it may fail,
    and the clock may have moved when it completes. *)
Record IoEvent : Type := mkIo { fails : bool; clock : Z }.

(** The environment of one durable object, which is one user identity.
    - [stored] is the value under the storage key ["memory"];
    - [now] is what [Date.now()] returns; on Workers the clock stands still
      while code runs and moves only across awaited I/O;
    - [pending] lists what the coming storage operations will do; once it is
      used up they succeed and the clock stays;
    - [storageApi] says whether [this.state.storage] is there;
    - [console] collects the lines given to [console.log]. *)
Record World : Type := mkWorld {
  loadedAt : Z;
  storageApi : bool;
  stored : option value;
  now : Z;
  pending : list IoEvent;
  console : list string
}.

Definition withStored (x : option value) (w : World) : World :=
  mkWorld (loadedAt w) (storageApi w) x (now w) (pending w) (console w).

Definition withConsole (c : list string) (w : World) : World :=
  mkWorld (loadedAt w) (storageApi w) (stored w) (now w) (pending w) c.

(** The environment after the next storage operation completed. *)
Definition afterIo (w : World) : World :=
  match pending w with
  | [] => w
  | e :: rest =>
      mkWorld (loadedAt w) (storageApi w) (stored w) (clock e) rest (console w)
  end.

Definition nextFails (w : World) : bool :=
  match pending w with
  | [] => false
  | e :: _ => fails e
  end.

(** Computations of the durable object: state passing with exceptions. *)
Definition M (A : Type) : Type := World -> outcome A * World.

Definition ret {A} (a : A) : M A := fun w => (Ok a, w).

Definition bind {A B} (m : M A) (f : A -> M B) : M B :=
  fun w =>
    match m w with
    | (Ok a, w') => f a w'
    | (Throw e, w') => (Throw e, w')
    | (Unmodelled, w') => (Unmodelled, w')
    end.

Definition lift {A} (o : outcome A) : M A := fun w => (o, w).

(** [try { body } catch (e) { handler }] *)
Definition tryCatch {A} (body : M A) (handler : exn -> M A) : M A :=
  fun w =>
    match body w with
    | (Throw e, w') => handler e w'
    | other => other
    end.

Declare Scope store_scope.
Delimit Scope store_scope with store.
Notation "x <- c ; k" := (bind c (fun x => k))
  (at level 61, c at next level, right associativity) : store_scope.
Notation "c ;; k" := (bind c (fun _ => k))
  (at level 61, right associativity) : store_scope.
Local Open Scope store_scope.

Definition Date_now : M Z := fun w => (Ok (now w), w).

Definition console_log (line : string) : M unit :=
  fun w => (Ok tt, withConsole (console w ++ [line]) w).

(** [await this.state.storage.get("memory")]: [undefined] when nothing is
    stored.  Without [this.state.storage] the member access throws. *)
Definition storage_get : M value :=
  fun w =>
    if storageApi w then
      if nextFails w then (Throw StorageError, afterIo w)
      else (Ok (match stored w with Some v => v | None => Undefined end), afterIo w)
    else (Throw TypeError, w).

(** [await this.state.storage.put("memory", v)]: a failed write stores
    nothing. *)
Definition storage_put (v : value) : M unit :=
  fun w =>
    if storageApi w then
      if nextFails w then (Throw StorageError, afterIo w)
      else (Ok tt, withStored (Some v) (afterIo w))
    else (Throw TypeError, w).

Definition emptyProfile : value :=
  Obj [("riskFactors", Arr []); ("conditions", Arr []); ("interests", Arr [])].

Definition emptyConversation : value :=
  Obj [("recentQuestions", Arr []); ("keyInsights", Arr [])].

(** The module-level constant; its two [Date.now()] are read when the module
    is loaded. *)
Definition DEFAULT_MEMORY (loaded : Z) : props :=
  [("profile", emptyProfile);
   ("conversation", emptyConversation);
   ("meta", Obj [("createdAt", Num loaded); ("lastActive", Num loaded)])].

(** [{ ...DEFAULT_MEMORY, meta: { createdAt: Date.now(), lastActive: Date.now() } }].
    The new object shares [profile] and [conversation] with the constant;
    nothing writes through them, since [deepMerge] works on a JSON copy and
    the storage keeps a serialized copy. *)
Definition freshMemory : M value :=
  fun w =>
    (createdAt <- Date_now ;
     lastActive <- Date_now ;
     ret (Obj (assign "meta"
                 (Obj [("createdAt", Num createdAt); ("lastActive", Num lastActive)])
                 (DEFAULT_MEMORY (loadedAt w))))) w.

(** [updated.meta.lastActive = Date.now()]: the object under [meta] is
    changed in place, so [updated] sees the change. *)
Definition stampLastActive (updated : value) : M value :=
  meta <- lift (getProp updated "meta") ;
  t <- Date_now ;
  meta' <- lift (setProp meta "lastActive" (Num t)) ;
  match updated with
  | Obj ps => ret (Obj (assign "meta" meta' ps))
  | _ => lift Unmodelled
  end.

(** The class of the first revision: every storage failure propagates. *)
Module UserContextDO.

Definition getMemory : M value :=
  memory <- storage_get ;
  if truthy memory then ret memory
  else
    memory <- freshMemory ;
    storage_put memory ;;
    ret memory.

Definition updateMemory (patch : value) : M value :=
  current <- getMemory ;
  updated <- lift (deepMerge current patch) ;
  updated <- stampLastActive updated ;
  storage_put updated ;;
  ret updated.

End UserContextDO.

(** The later revision, which guards every use of the storage and falls back
    to a record in memory. *)
Module UserContextDOFallback.

Definition hasStorage : M bool := fun w => (Ok (storageApi w), w).

Definition getMemory : M value :=
  found <- tryCatch
    (api <- hasStorage ;
     if (api : bool) then
       memory <- storage_get ;
       if truthy memory then ret (Some memory)
       else
         memory <- freshMemory ;
         storage_put memory ;;
         ret (Some memory)
     else ret None)
    (fun _ =>
       console_log "Storage API not available, using in-memory fallback" ;;
       ret None) ;
  match found with
  | Some memory => ret memory
  | None => freshMemory
  end.

Definition updateMemory (patch : value) : M value :=
  current <- getMemory ;
  updated <- lift (deepMerge current patch) ;
  updated <- stampLastActive updated ;
  tryCatch
    (api <- hasStorage ;
     if (api : bool) then storage_put updated else ret tt)
    (fun _ => console_log "Storage API not available, data not persisted") ;;
  ret updated.

End UserContextDOFallback.

(** ** Histories of calls on one identity *)

Inductive op : Type :=
| Get
| Patch (partial : value).

Definition exec (o : op) : M value :=
  match o with
  | Get => UserContextDO.getMemory
  | Patch partial => UserContextDO.updateMemory partial
  end.

Record step : Type := mkStep {
  before : World;
  call : op;
  result : outcome value;
  after : World
}.

(** The calls run one after the other, each one to completion. *)
Fixpoint history (ops : list op) (w : World) : list step :=
  match ops with
  | [] => []
  | o :: rest =>
      let (res, w') := exec o w in
      mkStep w o res w' :: history rest w'
  end.

(** ** Predicates on values, patches and environments *)

(** A value that JSON can carry: no [undefined] anywhere. *)
Fixpoint isJson (v : value) : bool :=
  match v with
  | Undefined => false
  | Arr items => forallb isJson items
  | Obj ps => forallb (fun kv => isJson (snd kv)) ps
  | _ => true
  end.

Fixpoint distinct (ks : list string) : bool :=
  match ks with
  | [] => true
  | k :: rest => negb (existsb (String.eqb k) rest) && distinct rest
  end.

(** Objects hold each key once, as JavaScript objects do. *)
Fixpoint wellFormed (v : value) : bool :=
  match v with
  | Arr items => forallb wellFormed items
  | Obj ps => distinct (keys ps) && forallb (fun kv => wellFormed (snd kv)) ps
  | _ => true
  end.

(** The patch follows the shape of the record: wherever the patch holds a
    plain object, the record holds one too. *)
Fixpoint fits (target source : value) {struct source} : bool :=
  match target, source with
  | Obj tp, Obj sp =>
      forallb (fun kv =>
                 negb (fst kv =? "__proto__")%string &&
                 match snd kv with
                 | Obj _ =>
                     match lookup (fst kv) tp with
                     | Some (Obj tv) => fits (Obj tv) (snd kv)
                     | _ => false
                     end
                 | _ => true
                 end) sp
  | _, _ => false
  end.

(** A value that is assigned wholesale: anything but a plain object, and
    not [undefined]. *)
Definition isLeaf (v : value) : bool :=
  match v with
  | Undefined | Obj _ => false
  | _ => true
  end.

(** The key is absent from the object or its value is [undefined]. *)
Definition omits (k : string) (ps : props) : bool :=
  match lookup k ps with
  | None | Some Undefined => true
  | Some _ => false
  end.

(** The patch does not supply [meta.createdAt], nor replace [meta]. *)
Definition keepsCreatedAt (partial : value) : bool :=
  match partial with
  | Obj sp =>
      match lookup "meta" sp with
      | None | Some Undefined => true
      | Some (Obj mp) => distinct (keys mp) && omits "createdAt" mp
      | Some _ => false
      end
  | _ => true
  end.

(** After the merge [meta] is still a plain object, so that the stamp of
    [lastActive] goes through. *)
Definition keepsMeta (current partial : value) : bool :=
  match prop current "meta" with
  | Some (Obj _) =>
      match prop partial "meta" with
      | None | Some Undefined | Some (Obj _) => true
      | Some _ => false
      end
  | _ => false
  end.

(** The next [n] storage operations succeed. *)
Definition ioOk (n : nat) (w : World) : bool :=
  forallb (fun e => negb (fails e)) (firstn n (pending w)).

(** The clock never runs backwards. *)
Fixpoint monotone (t : Z) (es : list IoEvent) : bool :=
  match es with
  | [] => true
  | e :: rest => (t <=? clock e) && monotone (clock e) rest
  end.

Definition storedField (ks : list string) (w : World) : option value :=
  match stored w with
  | Some v => getPath ks v
  | None => None
  end.

(** What the loop leaves under the key [k], whose value in the source is [v],
    when it started from [res] and ended with [r]. *)
Definition merged (res : value) (k : string) (v : option value) (r : value) : Prop :=
  match v with
  | None | Some Undefined => prop r k = prop res k
  | Some (Obj xp) =>
      exists t m, getProp res k = Ok t /\ deepMerge t (Obj xp) = Ok m /\ prop r k = Some m
  | Some x => prop r k = Some x
  end.

(** What [fits] asks of one property of the patch, against the properties
    [cur] that the result holds at that moment. *)
Definition fitsAt (cur : props) (kv : string * value) : Prop :=
  fst kv <> "__proto__"%string /\
  forall xp, snd kv = Obj xp ->
    exists tv, lookup (fst kv) cur = Some (Obj tv) /\
               isJson (Obj tv) = true /\ fits (Obj tv) (snd kv) = true.

(** The paths that the stamp of [lastActive] changes: the record, [meta],
    and [meta.lastActive] with what is below it. *)
Definition onStampPath (ks : list string) : bool :=
  match ks with
  | [] => true
  | k :: rest =>
      (k =? "meta")%string &&
      match rest with
      | [] => true
      | k' :: _ => (k' =? "lastActive")%string
      end
  end.

(** The five fields of the record that hold sequences. *)
Definition sequenceFields : list (list string) :=
  [["profile"; "riskFactors"]; ["profile"; "conditions"]; ["profile"; "interests"];
   ["conversation"; "recentQuestions"]; ["conversation"; "keyInsights"]].

(** The top-level keys of a [UserMemory]. *)
Definition schemaKey (k : string) : bool :=
  existsb (String.eqb k) ["profile"; "conversation"; "meta"]%string.

(** The identity has a record, created at [t0] and last active not later
    than the clock shows. *)
Definition tracked (t0 : Z) (w : World) : Prop :=
  exists ps mp la,
    stored w = Some (Obj ps) /\
    lookup "meta" ps = Some (Obj mp) /\
    lookup "createdAt" mp = Some (Num t0) /\
    lookup "lastActive" mp = Some (Num la) /\
    la <= now w.

Definition okPatch (o : op) : bool :=
  match o with
  | Get => true
  | Patch partial =>
      keepsCreatedAt partial &&
      match partial with
      | Obj sp => distinct (keys sp)
      | _ => true
      end
  end.

Definition lastActiveOf (w : World) : option value :=
  storedField ["meta"; "lastActive"] w.

Definition createdAtOf (w : World) : option value :=
  storedField ["meta"; "createdAt"] w.

(** What holds of every call in a history of an identity created at [t0]. *)
Definition stepOk (t0 : Z) (s : step) : Prop :=
  createdAtOf (after s) = Some (Num t0) /\
  (forall r, result s = Ok r ->
     stored (after s) = Some r /\ getPath ["meta"; "createdAt"] r = Some (Num t0)) /\
  (call s = Get -> stored (after s) = stored (before s)) /\
  (forall partial r, call s = Patch partial -> result s = Ok r ->
     lastActiveOf (after s) = Some (Num (now (afterIo (before s))))) /\
  (exists la la',
     lastActiveOf (before s) = Some (Num la) /\
     lastActiveOf (after s) = Some (Num la') /\ la <= la').

(** [w'] is the environment at a later moment of [w], as far as the clock
    goes. *)
Definition later (w w' : World) : Prop :=
  now w <= now w' /\ monotone (now w') (pending w') = true.

(** The [createdAt] that a call shows to its caller. *)
Definition createdAtRead (s : step) : option value :=
  match result s with
  | Ok r => getPath ["meta"; "createdAt"] r
  | _ => None
  end.

(** ** Sample data *)

Definition strings (l : list string) : value := Arr (map Str l).

Definition sampleRecord : value :=
  Obj [("profile", Obj [("riskFactors", strings ["A"]);
                        ("conditions", strings ["B"]);
                        ("interests", strings [])]);
       ("conversation", Obj [("recentQuestions", strings ["Q1"]);
                             ("keyInsights", strings [])]);
       ("meta", Obj [("createdAt", Num 100); ("lastActive", Num 100)])].

(** An identity that holds [sampleRecord]; the coming two storage operations
    succeed, at the times 210 and 220. *)
Definition sampleWorld : World :=
  mkWorld 1 true (Some sampleRecord) 200 [mkIo false 210; mkIo false 220] [].

(** An identity without a record. *)
Definition freshWorld : World :=
  mkWorld 1 true None 200 [mkIo false 210; mkIo false 220] [].

(** The read succeeds and the write fails. *)
Definition failingWriteWorld : World :=
  mkWorld 1 true (Some sampleRecord) 200 [mkIo false 210; mkIo true 220] [].

Definition conditionsPatch : value :=
  Obj [("profile", Obj [("conditions", strings ["C"])])].

Definition questionsPatch : value :=
  Obj [("conversation", Obj [("recentQuestions", strings ["Q2"])])].

Definition notesPatch : value :=
  Obj [("notes", Obj [("a", Num 1)])].

Definition mismatchPatch : value :=
  Obj [("profile", Obj [("riskFactors", Str "oops")])].

Definition createdAtPatch : value :=
  Obj [("meta", Obj [("createdAt", Num 0)])].

Definition riskPatch : value :=
  Obj [("profile", Obj [("riskFactors", strings ["X"])])].

Definition conditionPatch : value :=
  Obj [("profile", Obj [("conditions", strings ["Y"])])].

Definition lastWorld (ops : list op) (w : World) : World :=
  last (map after (history ops w)) w.

(** ** The HTTP face of the durable object *)

(** Bodies of requests and responses.  A JSON text is held as the value it
    parses to; [ErrorJson e] is the JSON text of [{ error: m }], [m] being
    the message of the exception [e], whose wording is the engine's;
    [NotJson s] is a text [s] that does not parse as JSON. *)
Inductive text : Type :=
| JsonText (v : value)
| ErrorJson (e : exn)
| NotJson (s : string)
| NoBody.

(** [JSON.stringify(v)], which gives [undefined] for [undefined]. *)
Definition JSON_stringify (v : value) : text :=
  match v with
  | Undefined => NoBody
  | _ => JsonText (jsonValue v)
  end.

Record Request : Type := mkRequest {
  pathname : string;
  method : string;
  payload : text
}.

Record Response : Type := mkResponse {
  status : Z;
  contentType : option string;
  body : text
}.

(** [await request.json()] *)
Definition request_json (request : Request) : outcome value :=
  match payload request with
  | JsonText v => Ok v
  | ErrorJson _ => Unmodelled
  | NotJson _ | NoBody => Throw SyntaxError
  end.

(** [new Response(JSON.stringify(v), { headers: { 'Content-Type': 'application/json' } })] *)
Definition jsonResponse (v : value) : Response :=
  mkResponse 200 (Some "application/json") (JSON_stringify v).

(** The method [fetch], whose text is the same in both revisions of the
    class; [getMemory] and [updateMemory] are those of the revision.  The
    environment is the one in which the body of the request has been read.
    [new Response('Not Found', { status: 404 })] names no header; a body that
    is a string gets the content type of plain text. *)
Definition fetchWith (getMemory : M value) (updateMemory : value -> M value)
  (request : Request) : M Response :=
  tryCatch
    (if (pathname request =? "/memory")%string && (method request =? "GET")%string
     then
       memory <- getMemory ;
       ret (jsonResponse memory)
     else if (pathname request =? "/memory")%string && (method request =? "POST")%string
     then
       patch <- lift (request_json request) ;
       updated <- updateMemory patch ;
       ret (jsonResponse updated)
     else ret (mkResponse 404 (Some "text/plain;charset=UTF-8") (NotJson "Not Found")))
    (fun error => ret (mkResponse 500 (Some "application/json") (ErrorJson error))).

Module UserContextDOFetch.
Definition fetch : Request -> M Response :=
  fetchWith UserContextDO.getMemory UserContextDO.updateMemory.
End UserContextDOFetch.

Module UserContextDOFallbackFetch.
Definition fetch : Request -> M Response :=
  fetchWith UserContextDOFallback.getMemory UserContextDOFallback.updateMemory.
End UserContextDOFallbackFetch.

(** The first draft of the class, [UserMemoryDO]: the record of a new
    identity is the module-level constant itself. *)
Module UserMemoryDO.
Definition getMemory : M value :=
  fun w =>
    (memory <- storage_get ;
     if truthy memory then ret memory
     else
       let memory := Obj (DEFAULT_MEMORY (loadedAt w)) in
       storage_put memory ;;
       ret memory) w.
End UserMemoryDO.

(** What is stored, if anything, is plain JSON. *)
Definition storedJson (w : World) : bool :=
  match stored w with
  | Some v => isJson v
  | None => true
  end.

Definition jsonPatch (o : op) : bool :=
  match o with
  | Get => true
  | Patch partial => isJson partial
  end.

(** The record that [freshMemory] makes at the time [t]. *)
Definition freshRecord (loaded t : Z) : value :=
  Obj (assign "meta" (Obj [("createdAt", Num t); ("lastActive", Num t)])
         (DEFAULT_MEMORY loaded)).

(** The value with [meta.lastActive] set to [t]. *)
Definition stamped (t : Z) (ups mp : props) : value :=
  Obj (assign "meta" (Obj (assign "lastActive" (Num t) mp)) ups).

(** ** The worker: building prompts *)

(** From here on a string holds one character per UTF-16 code unit, which
    covers the strings whose code units are below 256; on those [length] and
    [substring] are the ones of JavaScript. *)

(** The line feed. *)
Definition LF : string := String (Ascii.ascii_of_nat 10) EmptyString.

(** [o.a.b] *)
Definition member2 (o : value) (a b : string) : outcome value :=
  x <~ getProp o a ;; getProp x b.

(** [v?.length > 0] *)
Definition hasItems (v : value) : outcome bool :=
  match v with
  | Undefined | Null => Ok false
  | Arr items => Ok (negb (match items with [] => true | _ => false end))
  | Str s => Ok (negb (s =? "")%string)
  | Bool _ | Num _ => Ok false
  | Obj ps =>
      match lookup "length" ps with
      | None => Ok false
      | Some (Num n) => Ok (0 <? n)
      | Some _ => Unmodelled
      end
  end.

(** [v.length > 0], which throws on [undefined] and [null]. *)
Definition lengthPositive (v : value) : outcome bool :=
  match v with
  | Undefined | Null => Throw TypeError
  | _ => hasItems v
  end.

(** The text of an element in [Array.prototype.join]. *)
Definition itemText (v : value) : outcome string :=
  match v with
  | Str s => Ok s
  | Undefined | Null => Ok ""%string
  | _ => Unmodelled
  end.

Fixpoint itemTexts (items : list value) : outcome (list string) :=
  match items with
  | [] => Ok []
  | x :: rest => s <~ itemText x ;; l <~ itemTexts rest ;; Ok (s :: l)
  end.

Fixpoint joinTexts (sep : string) (l : list string) : string :=
  match l with
  | [] => ""
  | [x] => x
  | x :: rest => x ++ sep ++ joinTexts sep rest
  end.

(** [v.join(sep)]: only an array has the method. *)
Definition join (v : value) (sep : string) : outcome string :=
  match v with
  | Arr items => l <~ itemTexts items ;; Ok (joinTexts sep l)
  | _ => Throw TypeError
  end.

Definition lastN {A} (n : nat) (l : list A) : list A :=
  skipn (List.length l - n) l.

(** [v.slice(-n)]: arrays and strings have the method. *)
Definition sliceLast (v : value) (n : nat) : outcome value :=
  match v with
  | Arr items => Ok (Arr (lastN n items))
  | Str s => Ok (Str (substring (String.length s - n) n s))
  | _ => Throw TypeError
  end.

(** [if (cond) parts.push(text)] *)
Definition pushIf (parts : list string) (cond : outcome bool)
  (text : outcome string) : outcome (list string) :=
  b <~ cond ;;
  if (b : bool) then s <~ text ;; Ok (parts ++ [s])%list else Ok parts.

(** The text of a section: [label + o.a.b.join(sep)]. *)
Definition joined (o : value) (a b : string) (label sep : string) : outcome string :=
  v <~ member2 o a b ;;
  s <~ join v sep ;;
  Ok (label ++ s).

(** The text of a section: [label + o.a.b.slice(-n).join(sep)]. *)
Definition joinedLast (o : value) (a b : string) (n : nat) (label sep : string)
  : outcome string :=
  v <~ member2 o a b ;;
  t <~ sliceLast v n ;;
  s <~ join t sep ;;
  Ok (label ++ s).

Definition buildLlamaPrompt (userQuestion : string) (memory : value) : outcome string :=
  parts <~ pushIf []
    (v <~ member2 memory "profile" "riskFactors" ;; hasItems v)
    (joined memory "profile" "riskFactors" "## Risk Factors: " ", ") ;;
  parts <~ pushIf parts
    (v <~ member2 memory "profile" "conditions" ;; hasItems v)
    (joined memory "profile" "conditions" "## Known Conditions: " ", ") ;;
  parts <~ pushIf parts
    (v <~ member2 memory "conversation" "keyInsights" ;; hasItems v)
    (joinedLast memory "conversation" "keyInsights" 2
       ("## Previous Insights Summary:" ++ LF) LF) ;;
  parts <~ pushIf parts
    (v <~ member2 memory "conversation" "recentQuestions" ;; hasItems v)
    (joinedLast memory "conversation" "recentQuestions" 3
       ("## Recent Questions:" ++ LF ++ "- ") (LF ++ "- ")) ;;
  Ok (joinTexts (LF ++ LF)
        (parts ++ [("## Current Question:" ++ LF ++ userQuestion)%string])%list).

Definition buildUserContext (memory : value) : outcome string :=
  parts <~ pushIf []
    (v <~ member2 memory "profile" "riskFactors" ;; hasItems v)
    (joined memory "profile" "riskFactors" "Risk Factors: " ", ") ;;
  parts <~ pushIf parts
    (v <~ member2 memory "profile" "conditions" ;; hasItems v)
    (joined memory "profile" "conditions" "Known Conditions: " ", ") ;;
  parts <~ pushIf parts
    (v <~ member2 memory "profile" "interests" ;; hasItems v)
    (joined memory "profile" "interests" "Interests: " ", ") ;;
  parts <~ pushIf parts
    (v <~ member2 memory "conversation" "keyInsights" ;; hasItems v)
    (joinedLast memory "conversation" "keyInsights" 3 "Previous Insights: " "; ") ;;
  Ok (match parts with
      | [] => "No prior context available"%string
      | _ => joinTexts LF parts
      end).

(** A record of the shape of [UserMemory], from its sequences and times. *)
Record Memory : Type := mkMemory {
  riskFactors : list string;
  conditions : list string;
  interests : list string;
  recentQuestions : list string;
  keyInsights : list string;
  createdAt : Z;
  lastActive : Z
}.

Definition recordOf (m : Memory) : value :=
  Obj [("profile", Obj [("riskFactors", strings (riskFactors m));
                        ("conditions", strings (conditions m));
                        ("interests", strings (interests m))]);
       ("conversation", Obj [("recentQuestions", strings (recentQuestions m));
                             ("keyInsights", strings (keyInsights m))]);
       ("meta", Obj [("createdAt", Num (createdAt m));
                     ("lastActive", Num (lastActive m))])].

(** The sections that [buildLlamaPrompt] makes from a record of the schema. *)
Definition sectionIf (l : list string) (text : string) : list string :=
  match l with
  | [] => []
  | _ => [text]
  end.

Definition llamaSections (m : Memory) : list string :=
  (sectionIf (riskFactors m)
     ("## Risk Factors: " ++ joinTexts ", " (riskFactors m)) ++
   sectionIf (conditions m)
     ("## Known Conditions: " ++ joinTexts ", " (conditions m)) ++
   sectionIf (keyInsights m)
     (("## Previous Insights Summary:" ++ LF) ++ joinTexts LF (lastN 2 (keyInsights m))) ++
   sectionIf (recentQuestions m)
     (("## Recent Questions:" ++ LF ++ "- ") ++
      joinTexts (LF ++ "- ") (lastN 3 (recentQuestions m))))%list.

(** The record with older questions and insights in front of its own. *)
Definition withOlder (olderQuestions olderInsights : list string) (m : Memory) : Memory :=
  mkMemory (riskFactors m) (conditions m) (interests m)
    (olderQuestions ++ recentQuestions m) (olderInsights ++ keyInsights m)
    (createdAt m) (lastActive m).

(** ** The worker: routes and handlers *)

(** What the worker throws: an exception of the engine, or [new Error(m)]. *)
Inductive thrown : Type :=
| Native (e : exn)
| ErrorWith (message : string).

Inductive reply (A : Type) : Type :=
| Returned (a : A)
| Raised (t : thrown)
| Beyond.
Arguments Raised {A} t.
Arguments Beyond {A}.

(** The environment of the worker.
    - [objects] gives the durable object of each name, as its environment;
    - [aiRun n] is what the [n]-th call of [env.AI.run] resolves to, [None]
      when it rejects; [aiCalls] counts the calls made so far;
    - [edgeNow] is what [Date.now()] returns in the worker;
    - [edgeErrors] collects the labels given to [console.error]. *)
Record Edge : Type := mkEdge {
  objects : string -> World;
  aiRun : nat -> option value;
  aiCalls : nat;
  edgeNow : Z;
  edgeErrors : list string
}.

Definition withObject (name : string) (w : World) (e : Edge) : Edge :=
  mkEdge (fun n => if (n =? name)%string then w else objects e n)
    (aiRun e) (aiCalls e) (edgeNow e) (edgeErrors e).

Definition E (A : Type) : Type := Edge -> reply A * Edge.

Definition eret {A} (a : A) : E A := fun e => (Returned a, e).

Definition ebind {A B} (m : E A) (f : A -> E B) : E B :=
  fun e =>
    match m e with
    | (Returned a, e') => f a e'
    | (Raised t, e') => (Raised t, e')
    | (Beyond, e') => (Beyond, e')
    end.

Definition eraise {A} (t : thrown) : E A := fun e => (Raised t, e).

Definition elift {A} (o : outcome A) : E A :=
  fun e =>
    match o with
    | Ok a => (Returned a, e)
    | Throw x => (Raised (Native x), e)
    | Unmodelled => (Beyond, e)
    end.

Definition etry {A} (body : E A) (handler : thrown -> E A) : E A :=
  fun e =>
    match body e with
    | (Raised t, e') => handler t e'
    | other => other
    end.

Definition console_error (label : string) : E unit :=
  fun e => (Returned tt,
            mkEdge (objects e) (aiRun e) (aiCalls e) (edgeNow e)
                   (edgeErrors e ++ [label])).

Declare Scope edge_scope.
Delimit Scope edge_scope with edge.
Notation "x <== c ; k" := (ebind c (fun x => k))
  (at level 61, c at next level, right associativity) : edge_scope.
Notation "c ;;; k" := (ebind c (fun _ => k))
  (at level 61, right associativity) : edge_scope.

Record EdgeRequest : Type := mkEdgeRequest {
  route : string;
  verb : string;
  content : text;
  userIdParam : option string
}.

Record EdgeResponse : Type := mkEdgeResponse {
  code : Z;
  headers : list (string * string);
  answer : text
}.

(** [headers.set(name, value)]; the names used here differ in more than
    their case. *)
Fixpoint setHeader (name v : string) (hs : list (string * string))
  : list (string * string) :=
  match hs with
  | [] => [(name, v)]
  | (n, x) :: rest =>
      if (n =? name)%string then (name, v) :: rest else (n, x) :: setHeader name v rest
  end.

Definition getCORSHeaders : list (string * string) :=
  [("Access-Control-Allow-Origin", "*");
   ("Access-Control-Allow-Methods", "GET, POST, OPTIONS");
   ("Access-Control-Allow-Headers", "Content-Type")]%string.

Definition withCORS (response : EdgeResponse) : EdgeResponse :=
  mkEdgeResponse (code response)
    (fold_left (fun hs kv => setHeader (fst kv) (snd kv) hs) getCORSHeaders
               (headers response))
    (answer response).

Definition jsonHeaders : list (string * string) :=
  [("Content-Type", "application/json")]%string.

Definition SYSTEM_PROMPT : string :=
  "You are a medical insight assistant specializing in social determinants of health."
  ++ LF ++ "Use the user's history and risk context when responding."
  ++ LF ++ "Always be clear, explain mechanisms, and avoid giving medical advice.".

(** [`${v}`] for a string; other values are left out of the model. *)
Definition templateText (v : value) : outcome string :=
  match v with
  | Str s => Ok s
  | _ => Unmodelled
  end.

(** [o.a?.b] *)
Definition optional2 (o : value) (a b : string) : outcome value :=
  x <~ getProp o a ;;
  match x with
  | Undefined | Null => Ok Undefined
  | _ => getProp x b
  end.

(** [[...(x || [])]] *)
Definition spreadOrEmpty (x : value) : outcome (list value) :=
  if truthy x then
    match x with
    | Arr items => Ok items
    | Str _ => Unmodelled
    | _ => Throw TypeError
    end
  else Ok [].

(** [x || []] *)
Definition orEmpty (x : value) : value :=
  if truthy x then x else Arr [].

(** [cond ? label + o.a.b.join(", ") : otherwise], with [o.a.b.length > 0]
    for [cond]. *)
Definition listed (o : value) (a b : string) (label otherwise : string)
  : outcome string :=
  v <~ member2 o a b ;;
  some <~ lengthPositive v ;;
  if (some : bool) then joined o a b label ", " else Ok otherwise.

Definition buildAIPrompt (question memory : value) : outcome string :=
  risks <~ listed memory "profile" "riskFactors" "Risk Factors: " "No known risk factors" ;;
  conds <~ listed memory "profile" "conditions"
             "Existing Conditions: " "No conditions reported" ;;
  asked <~ (v <~ optional2 memory "conversation" "recentQuestions" ;;
            some <~ hasItems v ;;
            if (some : bool)
            then joinedLast memory "conversation" "recentQuestions" 3
                   "Previous questions: " ", "
            else Ok ""%string) ;;
  q <~ templateText question ;;
  Ok (SYSTEM_PROMPT ++ LF ++ LF ++ "User Context:" ++ LF ++ risks ++ LF ++ conds
      ++ LF ++ LF ++ asked ++ LF ++ LF ++ "User Question: " ++ q ++ LF ++ LF
      ++ "Please provide a clear, evidence-based response about health and social determinants. Format your response with markdown where appropriate ("
      ++ "**bold** for emphasis, bullet points for lists). Be specific and practical.")%string.

(** The text that [generateMedicalInsight] makes when the model fails. *)
Definition insightFallback (question memory : value) : outcome string :=
  q <~ templateText question ;;
  risks <~ listed memory "profile" "riskFactors" "**Your Risk Factors:** " "" ;;
  conds <~ listed memory "profile" "conditions" "**Your Conditions:** " "" ;;
  Ok ("I encountered an issue generating a detailed response. Here's what I can tell you:"
      ++ LF ++ LF ++ "Your question was about: " ++ q ++ LF ++ LF ++ risks ++ LF ++ conds
      ++ LF ++ LF
      ++ "Please try rephrasing your question or ask about a specific health topic. I specialize in social determinants of health, lifestyle factors, and preventive care.")%string.

(** [await env.AI.run(...)] *)
Definition AI_run : E value :=
  fun e =>
    let e' := mkEdge (objects e) (aiRun e) (S (aiCalls e)) (edgeNow e) (edgeErrors e) in
    match aiRun e (aiCalls e) with
    | Some v => (Returned v, e')
    | None => (Raised (ErrorWith "env.AI.run rejected"), e')
    end.

(** [s.substring(0, 150)], a method of strings only. *)
Definition first150 (v : value) : outcome value :=
  match v with
  | Str s => Ok (Str (substring 0 150 s))
  | _ => Throw TypeError
  end.

Section Worker.

(** The wording of the engine's messages. *)
Variable nativeMessage : exn -> string.

(** The method [fetch] of the class bound to [USER_CONTEXT]. *)
Variable doFetch : Request -> M Response.

Local Open Scope edge_scope.

Definition messageOf (t : thrown) : string :=
  match t with
  | Native e => nativeMessage e
  | ErrorWith m => m
  end.

(** [await r.json()] on a body. *)
Definition parseJson (b : text) : outcome value :=
  match b with
  | JsonText v => Ok v
  | ErrorJson e => Ok (Obj [("error", Str (nativeMessage e))])
  | NotJson _ | NoBody => Throw SyntaxError
  end.

(** [env.USER_CONTEXT.idFromName(userId)], for a string. *)
Definition idFromName (userId : value) : outcome string :=
  match userId with
  | Str s => Ok s
  | _ => Unmodelled
  end.

(** [await stub.fetch(request)] on the object of the name [name]. *)
Definition stubFetch (name : string) (request : Request) : E Response :=
  fun e =>
    match doFetch request (objects e name) with
    | (Ok resp, w') => (Returned resp, withObject name w' e)
    | (Throw x, w') => (Raised (Native x), withObject name w' e)
    | (Unmodelled, w') => (Beyond, withObject name w' e)
    end.

Definition postMemory (name : string) (patch : value) : E Response :=
  stubFetch name (mkRequest "/memory" "POST" (JSON_stringify patch)).

Definition getMemoryOf (name : string) : E Response :=
  stubFetch name (mkRequest "/memory" "GET" NoBody).

Definition okJson (v : value) : EdgeResponse :=
  mkEdgeResponse 200 jsonHeaders (JSON_stringify v).

Definition generateMedicalInsight (question memory : value) : E value :=
  etry
    (prompt <== elift (buildAIPrompt question memory) ;
     response <== AI_run ;
     text <== elift (getProp response "response") ;
     eret (if truthy text then text
           else Str "I could not generate a response at this time. Please try again."))
    (fun _ =>
       console_error "AI generation error:" ;;;
       text <== elift (insightFallback question memory) ;
       eret (Str text)).

Definition handleChat (request : EdgeRequest) : E EdgeResponse :=
  parsed <== elift (parseJson (content request)) ;
  userId <== elift (getProp parsed "userId") ;
  message <== elift (getProp parsed "message") ;
  if negb (truthy userId) || negb (truthy message)
  then eraise (ErrorWith "Missing userId or message")
  else
    name <== elift (idFromName userId) ;
    memRes <== getMemoryOf name ;
    memory <== elift (parseJson (body memRes)) ;
    asked <== elift (x <~ optional2 memory "conversation" "recentQuestions" ;;
                     spreadOrEmpty x) ;
    updateRes <== postMemory name
      (Obj [("conversation", Obj [("recentQuestions", Arr (asked ++ [message]))])]) ;
    updatedMemory <== elift (parseJson (body updateRes)) ;
    responseText <== generateMedicalInsight message updatedMemory ;
    insights <== elift (x <~ optional2 updatedMemory "conversation" "keyInsights" ;;
                        spreadOrEmpty x) ;
    short <== elift (first150 responseText) ;
    postMemory name
      (Obj [("conversation", Obj [("keyInsights", Arr (insights ++ [short]))])]) ;;;
    risks <== elift (member2 updatedMemory "profile" "riskFactors") ;
    conds <== elift (member2 updatedMemory "profile" "conditions") ;
    eret (okJson (Obj [("userId", userId);
                       ("userMessage", message);
                       ("aiResponse", responseText);
                       ("context", Obj [("riskFactors", risks);
                                        ("conditions", conds)])])).

Definition handleRisk (request : EdgeRequest) : E EdgeResponse :=
  parsed <== elift (parseJson (content request)) ;
  userId <== elift (getProp parsed "userId") ;
  riskFactors <== elift (getProp parsed "riskFactors") ;
  conditions <== elift (getProp parsed "conditions") ;
  if negb (truthy userId)
  then eraise (ErrorWith "Missing userId")
  else
    name <== elift (idFromName userId) ;
    res <== postMemory name
      (Obj [("profile", Obj [("riskFactors", orEmpty riskFactors);
                             ("conditions", orEmpty conditions)])]) ;
    updatedMemory <== elift (parseJson (body res)) ;
    profile <== elift (getProp updatedMemory "profile") ;
    eret (okJson (Obj [("userId", userId);
                       ("message", Str "Updated");
                       ("profile", profile)])).

Definition handleGetContext (request : EdgeRequest) : E EdgeResponse :=
  match userIdParam request with
  | None | Some EmptyString => eraise (ErrorWith "Missing userId")
  | Some userId =>
      res <== getMemoryOf userId ;
      memory <== elift (parseJson (body res)) ;
      eret (okJson (Obj [("userId", Str userId); ("memory", memory)]))
  end.

Definition handleGetAnalytics : E EdgeResponse :=
  fun e => (Returned (okJson (Obj [("timestamp", Num (edgeNow e));
                                   ("status", Str "ok")])), e).

(** The [fetch] of the worker. *)
Definition fetch (request : EdgeRequest) : E EdgeResponse :=
  if (verb request =? "OPTIONS")%string
  then eret (mkEdgeResponse 204 getCORSHeaders NoBody)
  else
    etry
      (if (verb request =? "POST")%string && (route request =? "/chat")%string
       then r <== handleChat request ; eret (withCORS r)
       else if (verb request =? "POST")%string && (route request =? "/risk")%string
       then r <== handleRisk request ; eret (withCORS r)
       else if (verb request =? "GET")%string && (route request =? "/context")%string
       then r <== handleGetContext request ; eret (withCORS r)
       else if (verb request =? "GET")%string && (route request =? "/analytics")%string
       then r <== handleGetAnalytics ; eret (withCORS r)
       else eret (withCORS (mkEdgeResponse 404 jsonHeaders
                              (JSON_stringify (Obj [("error", Str "Not found")])))))
      (fun error =>
         console_error "Error:" ;;;
         eret (withCORS (mkEdgeResponse 500 jsonHeaders
                           (JSON_stringify (Obj [("error", Str (messageOf error))]))))).

End Worker.

(** The worker over the first revision of the durable object. *)
Definition edgeFetch (nativeMessage : exn -> string) : EdgeRequest -> E EdgeResponse :=
  fetch nativeMessage UserContextDOFetch.fetch.

(** The names of durable objects that a request can reach: the [userId] of
    its query, and the [userId] of its JSON body. *)
Definition namedBy (request : EdgeRequest) (u : string) : Prop :=
  userIdParam request = Some u \/
  exists ps, content request = JsonText (Obj ps) /\ lookup "userId" ps = Some (Str u).

(** The computation leaves the durable object of the name [n] as it is,
    when run in [e]. *)
Definition quietAt {A} (n : string) (m : E A) (e : Edge) : Prop :=
  objects (snd (m e)) n = objects e n.

(** Changes of a record of the schema. *)
Definition touch (t : Z) (m : Memory) : Memory :=
  mkMemory (riskFactors m) (conditions m) (interests m)
    (recentQuestions m) (keyInsights m) (createdAt m) t.

Definition setProfile (risks conds : list string) (m : Memory) : Memory :=
  mkMemory risks conds (interests m)
    (recentQuestions m) (keyInsights m) (createdAt m) (lastActive m).

Definition setQuestions (asked : list string) (m : Memory) : Memory :=
  mkMemory (riskFactors m) (conditions m) (interests m)
    asked (keyInsights m) (createdAt m) (lastActive m).

Definition setInsights (insights : list string) (m : Memory) : Memory :=
  mkMemory (riskFactors m) (conditions m) (interests m)
    (recentQuestions m) insights (createdAt m) (lastActive m).

(** A property of a JSON body that is there or left out. *)
Definition optionalField (k : string) (l : option (list string)) : props :=
  match l with
  | Some items => [(k, strings items)]
  | None => []
  end.

(** The body [{ userId, riskFactors?, conditions? }] of POST /risk. *)
Definition riskBody (userId : string) (risks conds : option (list string)) : value :=
  Obj ([("userId", Str userId)] ++ optionalField "riskFactors" risks
        ++ optionalField "conditions" conds).

(** The body [{ userId, message }] of POST /chat. *)
Definition chatBody (userId message : string) : value :=
  Obj [("userId", Str userId); ("message", Str message)].

Definition orNone (l : option (list string)) : list string :=
  match l with
  | Some items => items
  | None => []
  end.

(** The environment of the worker once [env.AI.run] has been called, and
    once a label has been given to [console.error]. *)
Definition afterAi (e : Edge) : Edge :=
  mkEdge (objects e) (aiRun e) (S (aiCalls e)) (edgeNow e) (edgeErrors e).

Definition afterError (label : string) (e : Edge) : Edge :=
  mkEdge (objects e) (aiRun e) (aiCalls e) (edgeNow e) (edgeErrors e ++ [label]).

(** What [listed] makes of a list of a record of the schema. *)
Definition listedText (l : list string) (label otherwise : string) : string :=
  match l with
  | [] => otherwise
  | _ => (label ++ joinTexts ", " l)%string
  end.

(** The text of [generateMedicalInsight] for a failed model, on a record of
    the schema. *)
Definition fallbackText (question : string) (m : Memory) : string :=
  ("I encountered an issue generating a detailed response. Here's what I can tell you:"
   ++ LF ++ LF ++ "Your question was about: " ++ question ++ LF ++ LF
   ++ listedText (riskFactors m) "**Your Risk Factors:** " "" ++ LF
   ++ listedText (conditions m) "**Your Conditions:** " ""
   ++ LF ++ LF
   ++ "Please try rephrasing your question or ask about a specific health topic. I specialize in social determinants of health, lifestyle factors, and preventive care.")%string.

(** What [response.response || "..."] gives for a text of the model. *)
Definition orApology (text : string) : string :=
  if (text =? "")%string
  then "I could not generate a response at this time. Please try again."%string
  else text.

(** The read fails; the operations after it succeed. *)
Definition failingReadWorld : World :=
  mkWorld 1 true (Some sampleRecord) 200 [mkIo true 210] [].

(** The answer of the worker to what a handler threw. *)
Definition errorResponse (message : string) : EdgeResponse :=
  withCORS (mkEdgeResponse 500 jsonHeaders
              (JSON_stringify (Obj [("error", Str message)]))).

(** ** Fields that a patch leaves alone, and fields outside the schema *)

(** The patch leaves the field at the path [ks] alone: on the way down it
    holds plain objects, until a key is absent from it or held as
    [undefined]. *)
Fixpoint skips (ks : list string) (partial : value) : bool :=
  match ks, partial with
  | k :: rest, Obj sp =>
      match lookup k sp with
      | None | Some Undefined => true
      | Some x => skips rest x
      end
  | _, _ => false
  end.

(** A string, a number, a boolean or [null]: a property cannot be written
    on it. *)
Definition isPrimitive (v : value) : bool :=
  match v with
  | Null | Bool _ | Num _ | Str _ => true
  | _ => false
  end.

(** The paths of the fields of a [UserMemory]. *)
Definition schemaPaths : list (list string) :=
  sequenceFields ++ [["meta"; "createdAt"]; ["meta"; "lastActive"]].

Fixpoint isPrefix (ks path : list string) : bool :=
  match ks, path with
  | [], _ => true
  | k :: rest, p :: more => (k =? p)%string && isPrefix rest more
  | _ :: _, [] => false
  end.

(** The path leads to a field of the schema or to one of its three
    objects. *)
Definition inSchema (ks : list string) : bool :=
  existsb (isPrefix ks) schemaPaths.

(** The call ended inside what is modelled. *)
Definition modelled (s : step) : bool :=
  match result s with
  | Unmodelled => false
  | _ => true
  end.

(** An instance on which [this.state] is not there: the class hands its
    [state] to [super] and does not assign [this.state] itself.  Nothing is
    stored. *)
Definition bareWorld : World :=
  mkWorld 1 false None 200 [] [].

Definition questionsAndNotesPatch : value :=
  Obj [("conversation", Obj [("recentQuestions", strings ["Q2"])]);
       ("notes", Obj [("a", Num 1)])].

Definition nullMetaPatch : value :=
  Obj [("meta", Null)].

Definition nicknamePatch : value :=
  Obj [("profile", Obj [("nickname", Str "n")])].

(** * Properties *)

Unset Implicit Arguments.

(** ** Own properties *)

Lemma lookup_assign_same (k : string) (v : value) (ps : props) :
  lookup k (assign k v ps) = Some v.
Proof.
  induction ps as [|[k' v'] rest IH]; simpl.
  - now rewrite String.eqb_refl.
  - destruct (k =? k')%string eqn:E; simpl; rewrite ?String.eqb_refl, ?E; auto.
Qed.

Lemma lookup_assign_other (k k' : string) (v : value) (ps : props) :
  k <> k' -> lookup k (assign k' v ps) = lookup k ps.
Proof.
  intros Hne. induction ps as [|[k0 v0] rest IH]; simpl.
  - apply String.eqb_neq in Hne. now rewrite Hne.
  - destruct (k' =? k0)%string eqn:E; simpl.
    + apply String.eqb_eq in E. subst k0.
      apply String.eqb_neq in Hne. now rewrite Hne.
    + now rewrite IH.
Qed.

Lemma lookup_fresh (k : string) (ps : props) :
  existsb (String.eqb k) (keys ps) = false -> lookup k ps = None.
Proof.
  induction ps as [|[k' v'] rest IH]; simpl; auto.
  intros H. apply orb_false_iff in H. destruct H as [H1 H2].
  rewrite H1. auto.
Qed.

Lemma lookup_in (k : string) (v : value) (ps : props) :
  lookup k ps = Some v -> In (k, v) ps.
Proof.
  induction ps as [|[k' v'] rest IH]; simpl; try discriminate.
  destruct (k =? k')%string eqn:E.
  - apply String.eqb_eq in E. intros [= ->]. subst. now left.
  - intros H. right. auto.
Qed.

(** ** The JSON copy *)

Lemma jsonProps_id (ps : props) :
  Forall (fun kv => isJson (snd kv) = true -> jsonValue (snd kv) = snd kv) ps ->
  forallb (fun kv => isJson (snd kv)) ps = true ->
  jsonProps jsonValue ps = ps.
Proof.
  induction 1 as [|[k v] rest Hv _ IH]; simpl; auto.
  intros H. apply andb_true_iff in H. destruct H as [Hj Hrest].
  simpl in Hv, Hj. rewrite IH by assumption.
  destruct v; try discriminate; rewrite <- (Hv Hj) at 2; reflexivity.
Qed.

Lemma jsonValue_id (v : value) : isJson v = true -> jsonValue v = v.
Proof.
  induction v as [| | | | |items IH|ps IH] using value_ind; simpl; auto.
  - intros H. f_equal. induction IH as [|x rest Hx _ IHrest]; simpl; auto.
    simpl in H. apply andb_true_iff in H. destruct H as [Hj Hrest].
    rewrite IHrest by assumption. f_equal.
    destruct x; try discriminate; simpl; try reflexivity; apply (Hx Hj).
  - intros H. f_equal. now apply jsonProps_id.
Qed.

Lemma jsonClone_json (v : value) : isJson v = true -> jsonClone v = Ok v.
Proof.
  intros H. unfold jsonClone. rewrite (jsonValue_id v H).
  destruct v; try reflexivity; discriminate.
Qed.

Lemma lookup_jsonProps (k : string) (v : value) (ps : props) :
  lookup k ps = Some v -> v <> Undefined ->
  lookup k (jsonProps jsonValue ps) = Some (jsonValue v).
Proof.
  intros H Hv. induction ps as [|[k' v'] rest IH]; simpl in *; try discriminate.
  destruct (k =? k')%string eqn:E.
  - injection H as ->.
    destruct v; try congruence; simpl; rewrite E; reflexivity.
  - specialize (IH H).
    destruct v'; simpl; rewrite ?E; exact IH.
Qed.

(** ** One round of the loop of [deepMerge] *)

Lemma deepMerge_unfold (target source : value) :
  deepMerge target source =
  (result <~ jsonClone target ;;
   match source with
   | Obj sp => forIn (mergeKey deepMerge) sp result
   | Undefined | Null | Bool _ | Num _ | Str EmptyString | Arr [] => Ok result
   | Str _ | Arr _ => Unmodelled
   end).
Proof. destruct source; reflexivity. Qed.

Lemma obind_ok {A B} (o : outcome A) (f : A -> outcome B) (b : B) :
  obind o f = Ok b -> exists a, o = Ok a /\ f a = Ok b.
Proof. destruct o; simpl; try discriminate. eauto. Qed.

Lemma setProp_ok (o : value) (k : string) (v r : value) :
  setProp o k v = Ok r ->
  exists ps, o = Obj ps /\ r = Obj (assign k v ps) /\ k <> "__proto__"%string.
Proof.
  destruct o; simpl; try discriminate.
  destruct (k =? "__proto__")%string eqn:E; try discriminate.
  intros [= <-]. apply String.eqb_neq in E. eauto.
Qed.

(** A round for the key [k0] leaves the other keys as they are. *)
Lemma mergeKey_other (k0 k : string) (v res r : value) :
  mergeKey deepMerge k0 v res = Ok r -> k <> k0 ->
  prop r k = prop res k /\ getProp r k = getProp res k.
Proof.
  intros H Hne.
  assert (Hset : forall x, setProp res k0 x = Ok r ->
                 prop r k = prop res k /\ getProp r k = getProp res k).
  { intros x Hx. apply setProp_ok in Hx. destruct Hx as (ps & -> & -> & _).
    simpl. now rewrite (lookup_assign_other k k0 x ps Hne). }
  destruct v; simpl in H; eauto.
  - injection H as <-. auto.
  - apply obind_ok in H. destruct H as (t & _ & H).
    apply obind_ok in H. destruct H as (m & _ & H). eauto.
Qed.

Lemma mergeKey_same (k : string) (v res r : value) :
  mergeKey deepMerge k v res = Ok r -> merged res k (Some v) r.
Proof.
  intros H.
  assert (Hset : forall x, setProp res k x = Ok r -> prop r k = Some x).
  { intros x Hx. apply setProp_ok in Hx. destruct Hx as (ps & -> & -> & _).
    simpl. apply lookup_assign_same. }
  destruct v; simpl in H |- *; auto.
  - injection H as <-. reflexivity.
  - apply obind_ok in H. destruct H as (t & Ht & H).
    apply obind_ok in H. destruct H as (m & Hm & H).
    exists t, m. auto.
Qed.

Lemma merged_transport (res res' r r' : value) (k : string) (v : option value) :
  merged res' k v r' ->
  prop res' k = prop res k -> getProp res' k = getProp res k ->
  prop r k = prop r' k ->
  merged res k v r.
Proof.
  unfold merged. intros H Hp Hg Hr.
  destruct v as [[]|]; try congruence.
  destruct H as (t & m & H1 & H2 & H3). exists t, m. repeat split; congruence.
Qed.

(** The loop, key by key: a key that the source omits or holds as
    [undefined] is left alone, a plain object is merged into what the result
    holds, anything else is assigned. *)
Lemma forIn_merged (sp : props) :
  distinct (keys sp) = true ->
  forall (res r : value) (k : string),
    forIn (mergeKey deepMerge) sp res = Ok r ->
    merged res k (lookup k sp) r.
Proof.
  induction sp as [|[k0 v0] rest IH]; simpl; intros Hd res r k H.
  - injection H as <-. reflexivity.
  - apply andb_true_iff in Hd. destruct Hd as [Hfresh Hd].
    apply negb_true_iff in Hfresh.
    apply obind_ok in H. destruct H as (r1 & Hstep & Hloop).
    destruct (k =? k0)%string eqn:E.
    + apply String.eqb_eq in E. subst k0.
      pose proof (IH Hd r1 r k Hloop) as Hrest.
      rewrite (lookup_fresh k rest Hfresh) in Hrest. simpl in Hrest.
      pose proof (mergeKey_same k v0 res r1 Hstep) as Hk.
      unfold merged in *. destruct v0; try congruence.
      destruct Hk as (t & m & H1 & H2 & H3). exists t, m. repeat split; congruence.
    + apply String.eqb_neq in E.
      destruct (mergeKey_other k0 k v0 res r1 Hstep E) as [Hp Hg].
      eapply merged_transport; eauto.
Qed.

Lemma deepMerge_merged (target : value) (sp : props) (r : value) (k : string) :
  distinct (keys sp) = true ->
  deepMerge target (Obj sp) = Ok r ->
  exists c, jsonClone target = Ok c /\ merged c k (lookup k sp) r.
Proof.
  intros Hd H. rewrite deepMerge_unfold in H.
  apply obind_ok in H. destruct H as (c & Hc & H).
  exists c. split; auto. now apply forIn_merged.
Qed.

(** ** The code against the merge of the specification *)

Lemma isJson_lookup (k : string) (v : value) (ps : props) :
  isJson (Obj ps) = true -> lookup k ps = Some v -> isJson v = true.
Proof.
  simpl. intros H Hl. apply lookup_in in Hl.
  rewrite forallb_forall in H. apply (H (k, v) Hl).
Qed.

Lemma fresh_not_in (k : string) (kv : string * value) (ps : props) :
  existsb (String.eqb k) (keys ps) = false -> In kv ps -> fst kv <> k.
Proof.
  intros H Hin Heq. subst k.
  assert (existsb (String.eqb (fst kv)) (keys ps) = true) as Hc; [|congruence].
  apply existsb_exists. exists (fst kv). split.
  - unfold keys. now apply in_map.
  - apply String.eqb_refl.
Qed.

Lemma fits_fitsAt (tp sp : props) :
  isJson (Obj tp) = true -> fits (Obj tp) (Obj sp) = true ->
  Forall (fitsAt tp) sp.
Proof.
  intros Hj Hf. simpl in Hf. rewrite forallb_forall in Hf.
  apply Forall_forall. intros [k v] Hin. specialize (Hf _ Hin). simpl in Hf.
  apply andb_true_iff in Hf. destruct Hf as [Hk Hv].
  apply negb_true_iff, String.eqb_neq in Hk.
  split; [exact Hk|]. simpl. intros xp ->.
  destruct (lookup k tp) as [[]|] eqn:El; try discriminate.
  eexists. split; [reflexivity|]. split; [|exact Hv].
  exact (@isJson_lookup k _ tp Hj El).
Qed.

Lemma forIn_specMerge (sp : props) :
  Forall (fun kv => forall t, isJson t = true -> wellFormed (snd kv) = true ->
                    fits t (snd kv) = true ->
                    deepMerge t (snd kv) = Ok (specMerge t (snd kv))) sp ->
  distinct (keys sp) = true ->
  forallb (fun kv => wellFormed (snd kv)) sp = true ->
  forall cur, Forall (fitsAt cur) sp ->
    forIn (mergeKey deepMerge) sp (Obj cur) =
    Ok (Obj (eachKey (specKey specMerge) sp cur)).
Proof.
  induction 1 as [|[k0 v0] rest Hrec _ IH]; intros Hd Hwf cur Hfit; [reflexivity|].
  simpl in Hd, Hwf, Hrec.
  apply andb_true_iff in Hd. destruct Hd as [Hfresh Hd].
  apply negb_true_iff in Hfresh.
  apply andb_true_iff in Hwf. destruct Hwf as [Hwf0 Hwf].
  inversion Hfit as [|? ? [Hproto Hobj] Hfit']; subst. simpl in Hproto, Hobj.
  apply String.eqb_neq in Hproto.
  assert (Hnext : forall x, Forall (fitsAt (assign k0 x cur)) rest).
  { intros x. apply Forall_forall. intros kv Hin.
    rewrite Forall_forall in Hfit'. destruct (Hfit' kv Hin) as [Hp Ho].
    split; [exact Hp|]. intros xp Hxp.
    rewrite lookup_assign_other by (eapply fresh_not_in; eauto). eauto. }
  assert (Hleaf : forall x,
            obind (setProp (Obj cur) k0 x) (forIn (mergeKey deepMerge) rest) =
            Ok (Obj (eachKey (specKey specMerge) rest (assign k0 x cur)))).
  { intros x. simpl. rewrite Hproto. simpl. apply IH; auto. }
  destruct v0; try (exact (Hleaf _)).
  - (* undefined: the key is skipped *) simpl. apply IH; auto.
  - (* a plain object on a plain object: recursion *)
    destruct (Hobj _ eq_refl) as (tv & Hl & Hj & Hf).
    change (forIn (mergeKey deepMerge) ((k0, Obj props0) :: rest) (Obj cur))
      with (obind (mergeKey deepMerge k0 (Obj props0) (Obj cur))
                  (forIn (mergeKey deepMerge) rest)).
    unfold mergeKey, getProp. rewrite Hl.
    cbn [obind]. rewrite (Hrec (Obj tv) Hj Hwf0 Hf). cbn [obind].
    rewrite Hleaf.
    change (eachKey (specKey specMerge) ((k0, Obj props0) :: rest) cur)
      with (eachKey (specKey specMerge) rest
              (specKey specMerge k0 (Obj props0) cur)).
    unfold specKey at 3. rewrite Hl. reflexivity.
Qed.

(** On a record that is plain JSON and a patch that follows its shape, the
    code returns, and what it returns is the merge of the specification. *)
Lemma deepMerge_specMerge (source : value) :
  forall target,
    isJson target = true -> wellFormed source = true ->
    fits target source = true ->
    deepMerge target source = Ok (specMerge target source).
Proof.
  induction source as [| | | | |items IH|sp IH] using value_ind;
    intros target Hj Hwf Hf; destruct target; try discriminate.
  rewrite deepMerge_unfold, (jsonClone_json _ Hj). cbn [obind specMerge].
  simpl in Hwf. apply andb_true_iff in Hwf. destruct Hwf as [Hd Hwf].
  apply forIn_specMerge; auto. now apply fits_fitsAt.
Qed.

(** ** Leaves of the patch reach the merged record *)

Lemma wellFormed_lookup (k : string) (v : value) (ps : props) :
  wellFormed (Obj ps) = true -> lookup k ps = Some v ->
  distinct (keys ps) = true /\ wellFormed v = true.
Proof.
  simpl. intros H Hl. apply andb_true_iff in H. destruct H as [Hd Hall].
  split; [exact Hd|]. apply lookup_in in Hl.
  rewrite forallb_forall in Hall. apply (Hall (k, v) Hl).
Qed.

Lemma prop_some_obj (v x : value) (k : string) :
  prop v k = Some x -> exists ps, v = Obj ps /\ lookup k ps = Some x.
Proof. destruct v; simpl; try discriminate. eauto. Qed.

Lemma merged_leaf (c r v : value) (k : string) :
  isLeaf v = true -> merged c k (Some v) r -> prop r k = Some v.
Proof. destruct v; simpl; try discriminate; auto. Qed.

Lemma deepMerge_leaf_path (ks : list string) :
  forall source target r v,
    wellFormed source = true -> ks <> [] ->
    getPath ks source = Some v -> isLeaf v = true ->
    deepMerge target source = Ok r ->
    getPath ks r = Some v.
Proof.
  induction ks as [|k rest IH]; intros source target r v Hwf Hne Hp Hleaf Hm;
    [congruence|].
  simpl in Hp. destruct (prop source k) as [x|] eqn:Ex; try discriminate.
  apply prop_some_obj in Ex. destruct Ex as (sp & -> & Hl).
  destruct (wellFormed_lookup k x sp Hwf Hl) as [Hd Hwfx].
  destruct (deepMerge_merged target sp r k Hd Hm) as (c & _ & Hk).
  rewrite Hl in Hk. simpl.
  destruct rest as [|k2 rest'].
  - simpl in Hp. injection Hp as ->.
    now rewrite (merged_leaf c r v k Hleaf Hk).
  - assert (exists xp, x = Obj xp) as [xp ->].
    { simpl in Hp. destruct (prop x k2) eqn:E2; try discriminate.
      apply prop_some_obj in E2. destruct E2 as (xp & -> & _). eauto. }
    destruct Hk as (t & m & _ & Hrec & ->).
    eapply IH; eauto. discriminate.
Qed.

(** The loop over a plain object gives back a plain object. *)
Lemma forIn_obj (sp : props) :
  forall cur r, forIn (mergeKey deepMerge) sp (Obj cur) = Ok r ->
                exists rp, r = Obj rp.
Proof.
  induction sp as [|[k0 v0] rest IH]; simpl; intros cur r H.
  - injection H as <-. eauto.
  - apply obind_ok in H. destruct H as (r1 & Hstep & Hloop).
    assert (exists p1, r1 = Obj p1) as [p1 ->]; [|eauto].
    assert (Hset : forall x, setProp (Obj cur) k0 x = Ok r1 -> exists p1, r1 = Obj p1).
    { intros x Hx. apply setProp_ok in Hx. destruct Hx as (ps & _ & -> & _). eauto. }
    destruct v0; simpl in Hstep; eauto.
    + injection Hstep as <-. eauto.
    + apply obind_ok in Hstep. destruct Hstep as (t & _ & Hstep).
      apply obind_ok in Hstep. destruct Hstep as (m & _ & Hstep). eauto.
Qed.

Lemma deepMerge_obj (tp sp : props) (r : value) :
  deepMerge (Obj tp) (Obj sp) = Ok r -> exists rp, r = Obj rp.
Proof.
  rewrite deepMerge_unfold. cbn [jsonClone obind jsonValue]. apply forIn_obj.
Qed.

(** ** Running the durable object *)

Lemma bind_ok {A B} (m : M A) (f : A -> M B) (w w' : World) (b : B) :
  bind m f w = (Ok b, w') ->
  exists a w1, m w = (Ok a, w1) /\ f a w1 = (Ok b, w').
Proof.
  unfold bind. destruct (m w) as [[a| |] w1]; try discriminate. eauto.
Qed.

Lemma bind_run {A B} (m : M A) (f : A -> M B) (w w1 : World) (a : A) :
  m w = (Ok a, w1) -> bind m f w = f a w1.
Proof. unfold bind. now intros ->. Qed.

Lemma ioOk_next (n : nat) (w : World) :
  ioOk (S n) w = true -> nextFails w = false /\ ioOk n (afterIo w) = true.
Proof.
  unfold ioOk, nextFails, afterIo.
  destruct (pending w) as [|e rest] eqn:E; simpl.
  - rewrite E. now destruct n.
  - intros H. apply andb_true_iff in H. destruct H as [He Hrest].
    apply negb_true_iff in He. auto.
Qed.

Lemma storageApi_afterIo (w : World) : storageApi (afterIo w) = storageApi w.
Proof. unfold afterIo. now destruct (pending w). Qed.

Lemma stored_afterIo (w : World) : stored (afterIo w) = stored w.
Proof. unfold afterIo. now destruct (pending w). Qed.

Module UserContextDOFacts.
Import UserContextDO.

(** A record is there: the read returns it and stores nothing. *)
Lemma getMemory_existing (w : World) (cur : value) :
  storageApi w = true -> nextFails w = false ->
  stored w = Some cur -> truthy cur = true ->
  getMemory w = (Ok cur, afterIo w).
Proof.
  intros Hapi Hio Hst Htr. unfold getMemory, bind, storage_get.
  now rewrite Hapi, Hio, Hst, Htr.
Qed.

(** What the stamp of [lastActive] gives when it goes through. *)
Lemma stampLastActive_ok (u r : value) (w w' : World) :
  stampLastActive u w = (Ok r, w') ->
  w' = w /\
  exists ups mp,
    u = Obj ups /\ lookup "meta" ups = Some (Obj mp) /\
    r = Obj (assign "meta" (Obj (assign "lastActive" (Num (now w)) mp)) ups).
Proof.
  unfold stampLastActive. intros H.
  apply bind_ok in H. destruct H as (meta & w1 & Hmeta & H).
  unfold lift in Hmeta. injection Hmeta as Hmeta <-.
  apply bind_ok in H. destruct H as (t & w2 & Ht & H).
  unfold Date_now in Ht. injection Ht as <- <-.
  apply bind_ok in H. destruct H as (meta' & w3 & Hset & H).
  unfold lift in Hset. injection Hset as Hset <-.
  apply setProp_ok in Hset. destruct Hset as (mp & -> & -> & _).
  destruct u; try discriminate.
  unfold ret in H. injection H as <- <-. split; [reflexivity|].
  simpl in Hmeta. destruct (lookup "meta" props0) eqn:El.
  - injection Hmeta as ->. eauto.
  - discriminate.
Qed.

Lemma stampLastActive_run (ups mp : props) (w : World) :
  lookup "meta" ups = Some (Obj mp) ->
  stampLastActive (Obj ups) w =
  (Ok (Obj (assign "meta" (Obj (assign "lastActive" (Num (now w)) mp)) ups)), w).
Proof.
  intros Hl. unfold stampLastActive, bind, lift, Date_now, ret. simpl.
  now rewrite Hl.
Qed.

(** A patch that returns went through the read, the merge, the stamp and
    the write, and what it returns is what is stored. *)
Lemma updateMemory_ok (partial r : value) (w w' : World) :
  updateMemory partial w = (Ok r, w') ->
  exists cur w1 ups mp,
    getMemory w = (Ok cur, w1) /\
    deepMerge cur partial = Ok (Obj ups) /\
    lookup "meta" ups = Some (Obj mp) /\
    r = Obj (assign "meta" (Obj (assign "lastActive" (Num (now w1)) mp)) ups) /\
    w' = withStored (Some r) (afterIo w1).
Proof.
  unfold updateMemory. intros H.
  apply bind_ok in H. destruct H as (cur & w1 & Hget & H).
  apply bind_ok in H. destruct H as (u & w2 & Hm & H).
  unfold lift in Hm. injection Hm as Hm <-.
  apply bind_ok in H. destruct H as (u' & w3 & Hs & H).
  apply stampLastActive_ok in Hs. destruct Hs as (-> & ups & mp & -> & Hl & ->).
  apply bind_ok in H. destruct H as ([] & w4 & Hput & H).
  unfold ret in H. injection H as <- <-.
  exists cur, w1, ups, mp. repeat split; auto.
  unfold storage_put in Hput.
  destruct (storageApi w1); try discriminate.
  destruct (nextFails w1); try discriminate.
  now injection Hput as <-.
Qed.

Lemma updateMemory_run (partial cur : value) (ups mp : props) (w w1 : World) :
  getMemory w = (Ok cur, w1) ->
  deepMerge cur partial = Ok (Obj ups) ->
  lookup "meta" ups = Some (Obj mp) ->
  storageApi w1 = true -> nextFails w1 = false ->
  let r := Obj (assign "meta" (Obj (assign "lastActive" (Num (now w1)) mp)) ups) in
  updateMemory partial w = (Ok r, withStored (Some r) (afterIo w1)).
Proof.
  intros Hget Hm Hl Hapi Hio r. unfold updateMemory.
  rewrite (bind_run _ _ _ _ _ Hget).
  unfold bind at 1. unfold lift at 1. rewrite Hm.
  unfold bind at 1. rewrite (stampLastActive_run ups mp w1 Hl).
  unfold bind, storage_put, ret. now rewrite Hapi, Hio.
Qed.

End UserContextDOFacts.

(** ** From the durable object to the merge *)

Lemma onStampPath_cons (ks : list string) :
  onStampPath ks = false -> ks <> [].
Proof. destruct ks; simpl; congruence. Qed.

(** The stamp leaves every path outside [meta.lastActive] as it is. *)
Lemma stamp_frame (ks : list string) (ups mp : props) (x : value) :
  onStampPath ks = false ->
  lookup "meta" ups = Some (Obj mp) ->
  getPath ks (Obj (assign "meta" (Obj (assign "lastActive" x mp)) ups)) =
  getPath ks (Obj ups).
Proof.
  intros Hs Hl. destruct ks as [|k rest]; [discriminate|].
  simpl in Hs |- *. destruct (k =? "meta")%string eqn:Ek.
  - apply String.eqb_eq in Ek. subst k.
    rewrite lookup_assign_same, Hl.
    destruct rest as [|k' rest']; [discriminate|].
    simpl in Hs |- *. apply String.eqb_neq in Hs.
    now rewrite lookup_assign_other.
  - apply String.eqb_neq in Ek. now rewrite lookup_assign_other.
Qed.

Module PatchFacts.
Import UserContextDO UserContextDOFacts.

Lemma getMemory_read (w w1 : World) (cur c : value) :
  stored w = Some cur -> truthy cur = true ->
  getMemory w = (Ok c, w1) -> c = cur /\ w1 = afterIo w.
Proof.
  intros Hst Htr. unfold getMemory, bind, storage_get. rewrite Hst.
  destruct (storageApi w); try discriminate.
  destruct (nextFails w); try discriminate.
  rewrite Htr. unfold ret. now intros [= <- <-].
Qed.

(** A leaf of the patch outside the stamp is in the record that a
    successful patch returns, and that record is the stored one. *)
Lemma updateMemory_leaf_path (w w' : World) (partial r v : value) (ks : list string) :
  wellFormed partial = true -> onStampPath ks = false ->
  getPath ks partial = Some v -> isLeaf v = true ->
  updateMemory partial w = (Ok r, w') ->
  getPath ks r = Some v /\ stored w' = Some r.
Proof.
  intros Hwf Hs Hp Hleaf H.
  apply updateMemory_ok in H.
  destruct H as (cur & w1 & ups & mp & _ & Hm & Hl & -> & ->).
  split; [|reflexivity].
  rewrite (stamp_frame ks ups mp _ Hs Hl).
  eapply deepMerge_leaf_path; eauto using onStampPath_cons.
Qed.

(** On a record of plain JSON, with the storage at hand, a patch that
    follows the shape of the record and leaves [meta] a plain object
    returns. *)
Lemma updateMemory_returns (w : World) (cur partial : value) :
  storageApi w = true -> ioOk 2 w = true ->
  stored w = Some cur -> isJson cur = true ->
  wellFormed partial = true -> fits cur partial = true ->
  keepsMeta cur partial = true ->
  exists r,
    updateMemory partial w = (Ok r, withStored (Some r) (afterIo (afterIo w))).
Proof.
  intros Hapi Hio Hst Hj Hwf Hf Hk.
  destruct (ioOk_next 1 w Hio) as [Hio1 Hio'].
  destruct (ioOk_next 0 _ Hio') as [Hio2 _].
  destruct partial as [| | | | | |sp]; destruct cur as [| | | | | |cp];
    try discriminate.
  pose proof (getMemory_existing w (Obj cp) Hapi Hio1 Hst eq_refl) as Hget.
  pose proof (deepMerge_specMerge (Obj sp) (Obj cp) Hj Hwf Hf) as Hm.
  destruct (deepMerge_obj cp sp _ Hm) as (ups & Hups). rewrite Hups in Hm.
  assert (exists mp, lookup "meta" ups = Some (Obj mp)) as [mp Hmeta].
  { simpl in Hwf. apply andb_true_iff in Hwf. destruct Hwf as [Hd _].
    destruct (deepMerge_merged (Obj cp) sp (Obj ups) "meta" Hd Hm) as (c & Hc & Hmg).
    rewrite (jsonClone_json _ Hj) in Hc. injection Hc as <-.
    unfold keepsMeta in Hk. unfold merged in Hmg. cbn [prop getProp] in Hk, Hmg.
    destruct (lookup "meta" cp) as [[]|] eqn:Ecur; try discriminate.
    destruct (lookup "meta" sp) as [[]|] eqn:Esp; try discriminate; eauto.
    destruct Hmg as (t & m & Ht & Hrec & Hprop).
    injection Ht as <-.
    destruct (deepMerge_obj _ _ _ Hrec) as (mp & ->). eauto. }
  eexists.
  apply (updateMemory_run (Obj sp) (Obj cp) ups mp w (afterIo w)); auto.
  now rewrite storageApi_afterIo.
Qed.

(** A primitive under [meta]: the merge goes through, the stamp of
    [lastActive] throws, and nothing is written. *)
Lemma updateMemory_primitive_meta (w : World) (cur partial v : value) :
  storageApi w = true -> nextFails w = false ->
  stored w = Some cur -> isJson cur = true ->
  wellFormed partial = true -> fits cur partial = true ->
  prop partial "meta" = Some v -> isPrimitive v = true ->
  updateMemory partial w = (Throw TypeError, afterIo w).
Proof.
  intros Hapi Hio Hst Hj Hwf Hf Hp Hv.
  destruct partial as [| | | | | |sp]; destruct cur as [| | | | | |cp];
    try discriminate.
  pose proof (getMemory_existing w (Obj cp) Hapi Hio Hst eq_refl) as Hget.
  pose proof (deepMerge_specMerge (Obj sp) (Obj cp) Hj Hwf Hf) as Hm.
  destruct (deepMerge_obj cp sp _ Hm) as (ups & Hups). rewrite Hups in Hm.
  assert (Hl : lookup "meta" ups = Some v).
  { simpl in Hwf. apply andb_true_iff in Hwf. destruct Hwf as [Hd _].
    destruct (deepMerge_merged (Obj cp) sp (Obj ups) "meta" Hd Hm) as (c & _ & Hmg).
    cbn [prop] in Hp. rewrite Hp in Hmg.
    destruct v; try discriminate; exact Hmg. }
  assert (Hs : stampLastActive (Obj ups) (afterIo w) = (Throw TypeError, afterIo w)).
  { unfold stampLastActive, bind, lift, Date_now. cbn [getProp]. rewrite Hl.
    destruct v; try discriminate; reflexivity. }
  unfold updateMemory. rewrite (bind_run _ _ _ _ _ Hget).
  unfold bind at 1. unfold lift at 1. rewrite Hm.
  unfold bind at 1. now rewrite Hs.
Qed.

End PatchFacts.

(** A field that the patch leaves alone, at any depth, is in the merged
    record as it was in the record. *)
Lemma deepMerge_skips (ks : list string) :
  forall partial cur u,
    isJson cur = true -> wellFormed partial = true ->
    deepMerge cur partial = Ok u -> skips ks partial = true ->
    getPath ks u = getPath ks cur.
Proof.
  induction ks as [|k rest IH]; intros partial cur u Hj Hwf Hm Hs; [discriminate|].
  destruct partial as [| | | | | |sp]; try discriminate.
  cbn [skips] in Hs.
  assert (Hd : distinct (keys sp) = true).
  { simpl in Hwf. now apply andb_true_iff in Hwf. }
  destruct (deepMerge_merged cur sp u k Hd Hm) as (c & Hc & Hmg).
  rewrite (jsonClone_json _ Hj) in Hc. injection Hc as <-.
  cbn [getPath].
  destruct (lookup k sp) as [x|] eqn:El; [|cbn [merged] in Hmg; now rewrite Hmg].
  destruct x as [| | | | | |xp]; cbn [merged] in Hmg;
    try (destruct rest; discriminate).
  - now rewrite Hmg.
  - destruct Hmg as (t & m & Ht & Hrec & Hp). rewrite Hp.
    destruct (wellFormed_lookup k _ sp Hwf El) as [_ Hwfx].
    destruct cur as [| | | | | |cp]; cbn [getProp] in Ht; try discriminate.
    cbn [prop]. destruct (lookup k cp) as [t'|] eqn:Ec.
    + injection Ht as ->. apply (IH (Obj xp) t m); auto.
      exact (isJson_lookup k t cp Hj Ec).
    + destruct (inherited k); try discriminate. injection Ht as <-.
      rewrite deepMerge_unfold in Hrec. discriminate.
Qed.

(** ** The merge *)



(** The example of the specification: the sibling of the patched field is
    untouched and the patched array is replaced. *)
Example merge_preserves_siblings :
  exists r, deepMerge sampleRecord conditionsPatch = Ok r /\
            getPath ["profile"; "riskFactors"] r = Some (strings ["A"]) /\
            getPath ["profile"; "conditions"] r = Some (strings ["C"]).
Proof. eexists. repeat split. Qed.


(** ** Patches on a stored record *)

(** C2 (as amended).  A patch that supplies an array for a field replaces
    the field wholesale whenever the call returns: in the record that the
    patch returns, which is the record stored afterwards, the field is
    exactly the array of the patch, with nothing of the array from before.
    The field is any path of the patch other than [meta] and what is below
    [meta.lastActive], which the stamp writes.  The second part says that the
    call does return when the storage works, the stored record is plain JSON
    and the patch follows the nesting of the record and leaves [meta] a plain
    object. *)
Theorem patch_replaces_array_wholesale
  (w : World) (partial : value) (ks : list string) (items : list value) :
  wellFormed partial = true -> onStampPath ks = false ->
  getPath ks partial = Some (Arr items) ->
  (forall r w', UserContextDO.updateMemory partial w = (Ok r, w') ->
                getPath ks r = Some (Arr items) /\
                storedField ks w' = Some (Arr items)) /\
  (forall cur,
      storageApi w = true -> ioOk 2 w = true ->
      stored w = Some cur -> isJson cur = true ->
      fits cur partial = true -> keepsMeta cur partial = true ->
      exists r w', UserContextDO.updateMemory partial w = (Ok r, w')).
Proof.
  intros Hwf Hs Hp. split.
  - intros r w' H.
    destruct (PatchFacts.updateMemory_leaf_path w w' partial r (Arr items) ks
                Hwf Hs Hp eq_refl H) as [Hr Hst].
    split; [exact Hr|]. unfold storedField. now rewrite Hst.
  - intros cur Hapi Hio Hst Hj Hf Hk.
    destruct (PatchFacts.updateMemory_returns w cur partial Hapi Hio Hst Hj Hwf Hf Hk)
      as (r & Hr).
    eauto.
Qed.

Lemma patch_replaces_array_wholesale_witness :
  exists r w',
    UserContextDO.updateMemory questionsPatch sampleWorld = (Ok r, w') /\
    getPath ["conversation"; "recentQuestions"] r = Some (strings ["Q2"]) /\
    storedField ["conversation"; "recentQuestions"] w' = Some (strings ["Q2"]).
Proof.
  destruct (patch_replaces_array_wholesale sampleWorld questionsPatch
              ["conversation"; "recentQuestions"] [Str "Q2"]
              eq_refl eq_refl eq_refl) as [Hsame Hret].
  destruct (Hret sampleRecord eq_refl eq_refl eq_refl eq_refl eq_refl eq_refl)
    as (r & w' & H).
  exists r, w'. split; [exact H|]. exact (Hsame r w' H).
Defined.

(** C2 does not hold as stated, for every record and every patch.  The
    patch supplies an array for [conversation.recentQuestions] and, beside
    it, a plain object under a key that the record does not have: the call
    throws, nothing is stored, and the field holds the array from before. *)
Lemma array_patch_can_leave_the_old_array :
  getPath ["conversation"; "recentQuestions"] questionsAndNotesPatch
  = Some (strings ["Q2"]) /\
  (exists w',
     UserContextDO.updateMemory questionsAndNotesPatch sampleWorld
     = (Throw SyntaxError, w') /\
     storedField ["conversation"; "recentQuestions"] w' = Some (strings ["Q1"]) /\
     storedField ["conversation"; "recentQuestions"] w' <> Some (strings ["Q2"])).
Proof. split; [reflexivity|]. eexists. repeat split. discriminate. Qed.

(** The five sequences of the schema are fields that C2 covers. *)
Example sequenceFields_off_stamp :
  forallb (fun ks => negb (onStampPath ks)) sequenceFields = true.
Proof. reflexivity. Qed.

(** With [this.state.storage] at hand, the first read of an identity without
    a record creates the record, stores it and returns it; its five
    sequences are empty and [createdAt] and [lastActive] both hold the time
    of the creating call.  This is what the class sets out to do. *)
Theorem first_get_creates_default_record (w : World) :
  storageApi w = true -> ioOk 2 w = true -> stored w = None ->
  exists record w',
    UserContextDO.getMemory w = (Ok record, w') /\
    stored w' = Some record /\
    Forall (fun ks => getPath ks record = Some (Arr [])) sequenceFields /\
    getPath ["meta"; "createdAt"] record = Some (Num (now (afterIo w))) /\
    getPath ["meta"; "lastActive"] record = Some (Num (now (afterIo w))).
Proof.
  intros Hapi Hio Hst.
  destruct (ioOk_next 1 w Hio) as [Hio1 Hio'].
  destruct (ioOk_next 0 _ Hio') as [Hio2 _].
  unfold UserContextDO.getMemory, bind, storage_get.
  rewrite Hapi, Hio1, Hst. cbn [truthy].
  unfold freshMemory, bind, Date_now, ret, storage_put.
  rewrite storageApi_afterIo, Hapi, Hio2.
  eexists _, _. split; [reflexivity|].
  split; [reflexivity|]. split; [|split; reflexivity].
  unfold sequenceFields. repeat constructor.
Qed.

Lemma first_get_creates_default_record_witness :
  exists record w',
    UserContextDO.getMemory freshWorld = (Ok record, w') /\
    stored w' = Some record /\
    Forall (fun ks => getPath ks record = Some (Arr [])) sequenceFields /\
    getPath ["meta"; "createdAt"] record = Some (Num 210) /\
    getPath ["meta"; "lastActive"] record = Some (Num 210).
Proof.
  apply (first_get_creates_default_record freshWorld); reflexivity.
Defined.

(** C3.  The first read as the class is written.  The constructor hands
    [state] to [super] and nothing assigns [this.state]; where [this.state]
    is not there, the first read of an identity without a record throws a
    [TypeError] at [this.state.storage]: [getMemory] creates nothing, stores
    nothing and returns nothing, and [fetch] answers GET /memory with a 500.
    The later revision guards the access: its read returns a default record
    with [createdAt] and [lastActive] at the time of the call, and stores
    nothing either. *)
Theorem first_get_without_state_creates_nothing (w : World) :
  storageApi w = false -> stored w = None ->
  UserContextDO.getMemory w = (Throw TypeError, w) /\
  UserContextDOFetch.fetch (mkRequest "/memory" "GET" NoBody) w
  = (Ok (mkResponse 500 (Some "application/json") (ErrorJson TypeError)), w) /\
  UserContextDOFallback.getMemory w = (Ok (freshRecord (loadedAt w) (now w)), w) /\
  stored (snd (UserContextDO.getMemory w)) = None /\
  stored (snd (UserContextDOFallback.getMemory w)) = None.
Proof.
  intros Hapi Hst.
  assert (H0 : UserContextDO.getMemory w = (Throw TypeError, w)).
  { unfold UserContextDO.getMemory, bind, storage_get. now rewrite Hapi. }
  assert (H3 : UserContextDOFallback.getMemory w =
               (Ok (freshRecord (loadedAt w) (now w)), w)).
  { unfold UserContextDOFallback.getMemory, bind, tryCatch,
      UserContextDOFallback.hasStorage, freshMemory, bind, Date_now, ret.
    repeat (progress (cbv beta iota; rewrite ?Hapi)). reflexivity. }
  split; [exact H0|]. split.
  - unfold UserContextDOFetch.fetch, fetchWith, tryCatch.
    cbn [pathname method String.eqb Ascii.eqb Bool.eqb andb].
    unfold bind. now rewrite H0.
  - split; [exact H3|]. now rewrite H0, H3.
Qed.

Lemma first_get_without_state_creates_nothing_witness :
  UserContextDO.getMemory bareWorld = (Throw TypeError, bareWorld) /\
  UserContextDOFetch.fetch (mkRequest "/memory" "GET" NoBody) bareWorld
  = (Ok (mkResponse 500 (Some "application/json") (ErrorJson TypeError)), bareWorld) /\
  UserContextDOFallback.getMemory bareWorld = (Ok (freshRecord 1 200), bareWorld) /\
  stored (snd (UserContextDO.getMemory bareWorld)) = None /\
  stored (snd (UserContextDOFallback.getMemory bareWorld)) = None.
Proof.
  apply (first_get_without_state_creates_nothing bareWorld); reflexivity.
Defined.

(** C4.  The empty patch on an existing record: the patch returns and stores
    the record with [meta.lastActive] set to the time of the call, and every
    other field is as before. *)
Theorem empty_patch_changes_only_lastActive (w : World) (cp mp : props) :
  storageApi w = true -> ioOk 2 w = true ->
  stored w = Some (Obj cp) -> isJson (Obj cp) = true ->
  lookup "meta" cp = Some (Obj mp) ->
  exists r w',
    UserContextDO.updateMemory (Obj []) w = (Ok r, w') /\
    stored w' = Some r /\
    r = Obj (assign "meta" (Obj (assign "lastActive" (Num (now (afterIo w))) mp)) cp) /\
    getPath ["meta"; "lastActive"] r = Some (Num (now (afterIo w))) /\
    forall ks, onStampPath ks = false -> getPath ks r = getPath ks (Obj cp).
Proof.
  intros Hapi Hio Hst Hj Hmeta.
  destruct (ioOk_next 1 w Hio) as [Hio1 Hio'].
  destruct (ioOk_next 0 _ Hio') as [Hio2 _].
  pose proof (UserContextDOFacts.getMemory_existing w (Obj cp) Hapi Hio1 Hst eq_refl)
    as Hget.
  assert (Hm : deepMerge (Obj cp) (Obj []) = Ok (Obj cp)).
  { rewrite deepMerge_unfold, (jsonClone_json _ Hj). reflexivity. }
  pose proof (UserContextDOFacts.updateMemory_run (Obj []) (Obj cp) cp mp w (afterIo w)
                Hget Hm Hmeta) as Hrun.
  rewrite storageApi_afterIo in Hrun. specialize (Hrun Hapi Hio2). cbv zeta in Hrun.
  eexists _, _. split; [exact Hrun|].
  split; [reflexivity|]. split; [reflexivity|]. split.
  - cbn [getPath prop]. rewrite lookup_assign_same.
    cbn [getPath prop]. now rewrite lookup_assign_same.
  - intros ks Hs. now apply stamp_frame.
Qed.

Lemma empty_patch_changes_only_lastActive_witness :
  exists r w',
    UserContextDO.updateMemory (Obj []) sampleWorld = (Ok r, w') /\
    stored w' = Some r /\
    r = Obj [("profile", Obj [("riskFactors", strings ["A"]);
                              ("conditions", strings ["B"]);
                              ("interests", strings [])]);
             ("conversation", Obj [("recentQuestions", strings ["Q1"]);
                                   ("keyInsights", strings [])]);
             ("meta", Obj [("createdAt", Num 100); ("lastActive", Num 210)])] /\
    getPath ["meta"; "lastActive"] r = Some (Num 210) /\
    forall ks, onStampPath ks = false -> getPath ks r = getPath ks sampleRecord.
Proof.
  apply (empty_patch_changes_only_lastActive sampleWorld
           [("profile", Obj [("riskFactors", strings ["A"]);
                             ("conditions", strings ["B"]);
                             ("interests", strings [])]);
            ("conversation", Obj [("recentQuestions", strings ["Q1"]);
                                  ("keyInsights", strings [])]);
            ("meta", Obj [("createdAt", Num 100); ("lastActive", Num 100)])]
           [("createdAt", Num 100); ("lastActive", Num 100)]);
    reflexivity.
Defined.

(** C6 (as amended).  On a stored record of plain JSON, whenever the patch
    returns, what it returns is what is stored, and at every path other than
    [meta] and what is below [meta.lastActive], which the stamp writes:
    a field that the patch leaves alone (a key that is absent from the patch
    or held as [undefined], at the top or inside the plain objects that the
    patch does hold) has the value the record had, so that its siblings in
    the patch do not touch it; and a field that the patch holds as [null] is
    [null].  The second part says that the patch does return when the
    storage works and the patch follows the nesting of the record and leaves
    [meta] a plain object.  The third part is about [null] under [meta],
    which is not assigned: the stamp of [lastActive] throws a [TypeError]
    and the stored record is the one from before.  The fourth part is the
    first two facts about [deepMerge] alone, on any record. *)
Theorem undefined_is_noop_and_null_is_assigned
  (w : World) (cur partial : value) :
  isJson cur = true -> truthy cur = true -> wellFormed partial = true ->
  stored w = Some cur ->
  (forall r w', UserContextDO.updateMemory partial w = (Ok r, w') ->
     stored w' = Some r /\
     forall ks, onStampPath ks = false ->
       (skips ks partial = true -> getPath ks r = getPath ks cur) /\
       (getPath ks partial = Some Null -> getPath ks r = Some Null)) /\
  (storageApi w = true -> ioOk 2 w = true ->
   fits cur partial = true -> keepsMeta cur partial = true ->
   exists r w', UserContextDO.updateMemory partial w = (Ok r, w')) /\
  (storageApi w = true -> ioOk 2 w = true ->
   fits cur partial = true -> prop partial "meta" = Some Null ->
   exists w',
     UserContextDO.updateMemory partial w = (Throw TypeError, w') /\
     stored w' = Some cur) /\
  (forall u ks, deepMerge cur partial = Ok u ->
     (skips ks partial = true -> getPath ks u = getPath ks cur) /\
     (ks <> [] -> getPath ks partial = Some Null -> getPath ks u = Some Null)).
Proof.
  intros Hj Htr Hwf Hst.
  assert (Hmerge : forall u ks, deepMerge cur partial = Ok u ->
     (skips ks partial = true -> getPath ks u = getPath ks cur) /\
     (ks <> [] -> getPath ks partial = Some Null -> getPath ks u = Some Null)).
  { intros u ks Hu. split.
    - intros Hs. exact (deepMerge_skips ks partial cur u Hj Hwf Hu Hs).
    - intros Hne Hp.
      exact (deepMerge_leaf_path ks partial cur u Null Hwf Hne Hp eq_refl Hu). }
  split; [|split; [|split; [|exact Hmerge]]].
  - intros r w' Hr.
    destruct (UserContextDOFacts.updateMemory_ok _ _ _ _ Hr)
      as (c & w1 & ups & mp & Hget & Hm & Hl & -> & ->).
    destruct (PatchFacts.getMemory_read w w1 cur c Hst Htr Hget) as [-> _].
    split; [reflexivity|]. intros ks Hs.
    rewrite (stamp_frame ks ups mp _ Hs Hl).
    destruct (Hmerge (Obj ups) ks Hm) as [Hskip Hnull].
    split; [exact Hskip|]. intros Hp. apply Hnull; [|exact Hp].
    now apply onStampPath_cons.
  - intros Hapi Hio Hf Hk.
    destruct (PatchFacts.updateMemory_returns w cur partial Hapi Hio Hst Hj Hwf Hf Hk)
      as (r & Hr).
    eauto.
  - intros Hapi Hio Hf Hp.
    destruct (ioOk_next 1 w Hio) as [Hio1 _].
    exists (afterIo w). split.
    + exact (PatchFacts.updateMemory_primitive_meta w cur partial Null
               Hapi Hio1 Hst Hj Hwf Hf Hp eq_refl).
    + now rewrite stored_afterIo.
Qed.

Lemma undefined_is_noop_and_null_is_assigned_witness :
  exists r w',
    UserContextDO.updateMemory
      (Obj [("profile", Obj [("conditions", Null)]); ("conversation", Undefined)])
      sampleWorld = (Ok r, w') /\
    stored w' = Some r /\
    getPath ["profile"; "riskFactors"] r = Some (strings ["A"]) /\
    getPath ["conversation"] r = getPath ["conversation"] sampleRecord /\
    getPath ["meta"; "createdAt"] r = Some (Num 100) /\
    getPath ["profile"; "conditions"] r = Some Null.
Proof.
  destruct (undefined_is_noop_and_null_is_assigned sampleWorld sampleRecord
              (Obj [("profile", Obj [("conditions", Null)]); ("conversation", Undefined)])
              eq_refl eq_refl eq_refl eq_refl) as (Hstore & Hret & _ & _).
  destruct (Hret eq_refl eq_refl eq_refl eq_refl) as (r & w' & Hrun).
  destruct (Hstore r w' Hrun) as [Hst Hpaths].
  exists r, w'. split; [exact Hrun|]. split; [exact Hst|].
  split; [|split; [|split]].
  - exact (proj1 (Hpaths ["profile"; "riskFactors"]%string eq_refl) eq_refl).
  - exact (proj1 (Hpaths ["conversation"]%string eq_refl) eq_refl).
  - exact (proj1 (Hpaths ["meta"; "createdAt"]%string eq_refl) eq_refl).
  - exact (proj2 (Hpaths ["profile"; "conditions"]%string eq_refl) eq_refl).
Defined.

(** C6 does not hold as stated, for every key: [null] under [meta] is not
    assigned.  The merge puts it there, the stamp of [lastActive] then
    throws a [TypeError], nothing is stored, and [meta] is what it was. *)
Lemma null_meta_is_not_stored :
  prop nullMetaPatch "meta" = Some Null /\
  (exists w',
     UserContextDO.updateMemory nullMetaPatch sampleWorld = (Throw TypeError, w') /\
     stored w' = Some sampleRecord /\
     storedField ["meta"] w' <> Some Null).
Proof. split; [reflexivity|]. eexists. repeat split. discriminate. Qed.

(** The two halves of C6 on one patch: [profile] becomes [null],
    [conversation], given as [undefined], stays. *)
Example null_assigned_undefined_skipped :
  exists r w',
    UserContextDO.updateMemory
      (Obj [("profile", Null); ("conversation", Undefined)]) sampleWorld = (Ok r, w') /\
    storedField ["profile"] w' = Some Null /\
    storedField ["conversation"] w' = prop sampleRecord "conversation".
Proof. eexists _, _. repeat split. Qed.




(** C10 (as amended).  A key outside the schema whose value is not a plain
    object is neither rejected nor stripped, at the top of the patch or
    inside one of its objects.  With the storage working, a stored record of
    plain JSON and a patch that follows the nesting of the record and leaves
    [meta] a plain object: the patch returns, the record it returns holds the
    value of the patch at the path of the key, that record is stored, and the
    next read returns it.  The path is any path outside the schema, other
    than those below [meta.lastActive]. *)
Theorem unknown_key_with_leaf_is_kept
  (w : World) (cur partial : value) (ks : list string) (v : value) :
  storageApi w = true -> ioOk 3 w = true ->
  stored w = Some cur -> isJson cur = true ->
  wellFormed partial = true -> fits cur partial = true ->
  keepsMeta cur partial = true ->
  inSchema ks = false -> onStampPath ks = false ->
  getPath ks partial = Some v -> isLeaf v = true ->
  exists r w' w'',
    UserContextDO.updateMemory partial w = (Ok r, w') /\
    getPath ks r = Some v /\
    stored w' = Some r /\
    UserContextDO.getMemory w' = (Ok r, w'') /\
    stored w'' = Some r.
Proof.
  intros Hapi Hio Hst Hj Hwf Hf Hk _ Hs Hp Hleaf.
  destruct (ioOk_next 2 w Hio) as [Hio1 Hio'].
  destruct (ioOk_next 1 _ Hio') as [Hio2 Hio''].
  destruct (ioOk_next 0 _ Hio'') as [Hio3 _].
  assert (Hio12 : ioOk 2 w = true).
  { unfold ioOk in *. destruct (pending w) as [|e1 [|e2 [|e3 rest]]]; simpl in *; auto.
    rewrite !andb_true_iff in *. tauto. }
  destruct (PatchFacts.updateMemory_returns w cur partial Hapi Hio12 Hst Hj Hwf Hf Hk)
    as (r & Hr).
  destruct (PatchFacts.updateMemory_leaf_path w _ partial r v ks Hwf Hs Hp Hleaf Hr)
    as [Hpath Hstored].
  exists r, (withStored (Some r) (afterIo (afterIo w))),
    (afterIo (withStored (Some r) (afterIo (afterIo w)))).
  split; [exact Hr|]. split; [exact Hpath|]. split; [reflexivity|].
  assert (Htr : truthy r = true).
  { destruct (UserContextDOFacts.updateMemory_ok _ _ _ _ Hr)
      as (c & w1 & ups & mp & _ & _ & _ & -> & _). reflexivity. }
  split.
  - apply UserContextDOFacts.getMemory_existing; auto.
    + simpl. now rewrite !storageApi_afterIo.
  - now rewrite stored_afterIo.
Qed.

Lemma unknown_key_with_leaf_is_kept_witness :
  exists r w' w'',
    UserContextDO.updateMemory nicknamePatch sampleWorld = (Ok r, w') /\
    getPath ["profile"; "nickname"] r = Some (Str "n") /\
    stored w' = Some r /\
    UserContextDO.getMemory w' = (Ok r, w'') /\
    stored w'' = Some r.
Proof.
  apply (unknown_key_with_leaf_is_kept sampleWorld sampleRecord nicknamePatch
           ["profile"; "nickname"] (Str "n")); reflexivity.
Defined.

(** The same for a key at the top of the patch. *)
Example unknown_top_level_key_is_kept :
  exists r w' w'',
    UserContextDO.updateMemory (Obj [("notes", Str "n")]) sampleWorld = (Ok r, w') /\
    getPath ["notes"] r = Some (Str "n") /\
    stored w' = Some r /\
    UserContextDO.getMemory w' = (Ok r, w'') /\
    stored w'' = Some r.
Proof. eexists _, _, _. repeat split. Qed.

(** C10 does not hold as stated: the unknown key holds a plain object.  The
    patch is rejected with the [SyntaxError] of [JSON.parse(undefined)], and
    the stored record does not get the key. *)
Lemma unknown_key_with_object_is_rejected :
  exists w',
    UserContextDO.updateMemory notesPatch sampleWorld = (Throw SyntaxError, w') /\
    stored w' = Some sampleRecord /\
    storedField ["notes"] w' = None.
Proof. eexists. repeat split. Qed.

(** ** The revision with the in-memory fallback *)






Module FallbackFacts.
Import UserContextDOFallback.





End FallbackFacts.




(** ** Histories: [createdAt] and [lastActive] *)

Lemma later_refl (w : World) :
  monotone (now w) (pending w) = true -> later w w.
Proof. intros H. split; [lia|exact H]. Qed.

Lemma later_afterIo (w w' : World) : later w w' -> later w (afterIo w').
Proof.
  unfold later, afterIo. intros [Hle Hm].
  destruct (pending w') as [|e rest] eqn:E; simpl; rewrite ?E; auto.
  simpl in Hm. apply andb_true_iff in Hm. destruct Hm as [H1 H2].
  apply Z.leb_le in H1. split; [lia|exact H2].
Qed.

Lemma later_withStored (w w' : World) (x : option value) :
  later w w' -> later w (withStored x w').
Proof. auto. Qed.

Lemma tracked_later (t0 : Z) (w w' : World) :
  tracked t0 w -> stored w' = stored w -> now w <= now w' -> tracked t0 w'.
Proof.
  intros (ps & mp & la & Hst & Hm & Hc & Hl & Hle) Hs Hn.
  exists ps, mp, la. rewrite Hs. repeat split; auto. lia.
Qed.

(** A call that leaves the storage alone. *)
Lemma quiet_step (t0 : Z) (w w' : World) (o : op) (res : outcome value) :
  tracked t0 w -> stored w' = stored w -> now w <= now w' ->
  (forall r, res = Ok r -> o = Get /\ stored w = Some r) ->
  stepOk t0 (mkStep w o res w') /\ tracked t0 w'.
Proof.
  intros Ht Hs Hn Hres. split; [|eapply tracked_later; eauto].
  destruct Ht as (ps & mp & la & Hst & Hm & Hc & Hl & Hle).
  assert (Hca : getPath ["meta"; "createdAt"] (Obj ps) = Some (Num t0)).
  { cbn [getPath prop]. rewrite Hm. cbn [getPath prop]. now rewrite Hc. }
  assert (Hla : getPath ["meta"; "lastActive"] (Obj ps) = Some (Num la)).
  { cbn [getPath prop]. rewrite Hm. cbn [getPath prop]. now rewrite Hl. }
  unfold stepOk, createdAtOf, lastActiveOf, storedField. cbn [before after call result].
  rewrite Hs, Hst. split; [exact Hca|]. split; [|split; [reflexivity|split]].
  - intros r Hr. destruct (Hres r Hr) as [_ Hx].
    rewrite Hst in Hx. injection Hx as <-. split; [reflexivity|exact Hca].
  - intros partial r Ho Hr. destruct (Hres r Hr) as [Hg _]. congruence.
  - exists la, la. split; [exact Hla|]. split; [exact Hla|lia].
Qed.

(** The merge keeps [meta.createdAt] when the patch does not supply it. *)
Lemma merge_keeps_createdAt (ps mp : props) (t0 : Z) (partial u : value) :
  lookup "meta" ps = Some (Obj mp) ->
  lookup "createdAt" mp = Some (Num t0) ->
  okPatch (Patch partial) = true ->
  deepMerge (Obj ps) partial = Ok u ->
  exists ups um,
    u = Obj ups /\ lookup "meta" ups = Some (Obj um) /\
    lookup "createdAt" um = Some (Num t0).
Proof.
  intros Hm Hc Hok H.
  assert (Hm' : lookup "meta" (jsonProps jsonValue ps) =
                Some (Obj (jsonProps jsonValue mp))).
  { apply (lookup_jsonProps "meta" (Obj mp) ps Hm). discriminate. }
  assert (Hc' : forall l, lookup "createdAt" l = Some (Num t0) ->
                lookup "createdAt" (jsonProps jsonValue l) = Some (Num t0)).
  { intros l Hl. apply (lookup_jsonProps "createdAt" (Num t0) l Hl). discriminate. }
  assert (Hcopy : exists ups um,
            Obj (jsonProps jsonValue ps) = Obj ups /\
            lookup "meta" ups = Some (Obj um) /\
            lookup "createdAt" um = Some (Num t0)).
  { exists (jsonProps jsonValue ps), (jsonProps jsonValue mp). auto. }
  rewrite deepMerge_unfold in H. cbn [jsonClone jsonValue obind] in H.
  destruct partial as [| | | |s|items|sp].
  1-4: injection H as <-; exact Hcopy.
  { destruct s; [injection H as <-; exact Hcopy|discriminate]. }
  { destruct items; [injection H as <-; exact Hcopy|discriminate]. }
  cbn [okPatch keepsCreatedAt] in Hok.
  apply andb_true_iff in Hok. destruct Hok as [Hkeep Hd].
  destruct (forIn_obj sp _ u H) as (ups & ->).
  pose proof (forIn_merged sp Hd _ (Obj ups) "meta" H) as Hmg.
  unfold merged in Hmg. cbn [prop getProp] in Hmg. rewrite Hm' in Hmg.
  destruct (lookup "meta" sp) as [[| | | | | |xp]|]; try discriminate;
    try (exists ups, (jsonProps jsonValue mp); now auto).
  destruct Hmg as (t & m & Ht & Hrec & Hprop). injection Ht as <-.
  apply andb_true_iff in Hkeep. destruct Hkeep as [Hdx Homit].
  destruct (deepMerge_obj _ _ _ Hrec) as (um & ->).
  destruct (deepMerge_merged _ xp (Obj um) "createdAt" Hdx Hrec) as (c & Hcl & Hmc).
  cbn [jsonClone jsonValue] in Hcl. injection Hcl as <-.
  exists ups, um. repeat split; auto.
  unfold omits in Homit. unfold merged in Hmc. cbn [prop] in Hmc.
  destruct (lookup "createdAt" xp) as [[]|]; try discriminate;
    rewrite Hmc; auto.
Qed.

Module HistoryFacts.
Import UserContextDO UserContextDOFacts.

(** The three ways a read ends on an identity that has a record. *)
Lemma getMemory_tracked (t0 : Z) (w : World) :
  tracked t0 w ->
  (storageApi w = false /\ getMemory w = (Throw TypeError, w)) \/
  (storageApi w = true /\ getMemory w = (Throw StorageError, afterIo w)) \/
  (storageApi w = true /\ exists cur, stored w = Some cur /\
                                      getMemory w = (Ok cur, afterIo w)).
Proof.
  intros (ps & mp & la & Hst & _).
  unfold getMemory, bind, storage_get.
  destruct (storageApi w); [|now left]. right.
  destruct (nextFails w); [now left|]. right.
  rewrite Hst. cbn [truthy]. eauto.
Qed.

Lemma get_step (t0 : Z) (w : World) :
  tracked t0 w -> later w w ->
  stepOk t0 (mkStep w Get (fst (getMemory w)) (snd (getMemory w))) /\
  tracked t0 (snd (getMemory w)) /\ later w (snd (getMemory w)).
Proof.
  intros Ht Hl.
  pose proof (later_afterIo w w Hl) as Hl1.
  destruct (getMemory_tracked t0 w Ht)
    as [[_ ->]|[[_ ->]|[_ (cur & Hst & ->)]]]; cbn [fst snd].
  - split; [|now split]. apply quiet_step; auto; [lia|discriminate].
  - rewrite <- and_assoc. split; [|exact Hl1].
    apply quiet_step; auto using stored_afterIo; [apply Hl1|discriminate].
  - rewrite <- and_assoc. split; [|exact Hl1].
    apply quiet_step; auto using stored_afterIo; [apply Hl1|].
    intros r [= <-]. auto.
Qed.

Lemma patch_step (t0 : Z) (w : World) (partial : value) :
  tracked t0 w -> later w w -> okPatch (Patch partial) = true ->
  stepOk t0 (mkStep w (Patch partial) (fst (updateMemory partial w))
               (snd (updateMemory partial w))) /\
  tracked t0 (snd (updateMemory partial w)) /\
  later w (snd (updateMemory partial w)).
Proof.
  intros Ht Hl Hok.
  pose proof (later_afterIo w w Hl) as Hl1.
  pose proof (later_afterIo w _ Hl1) as Hl2.
  assert (Hquiet : forall e w', stored w' = stored w -> later w w' ->
            stepOk t0 (mkStep w (Patch partial) (Throw e) w') /\
            tracked t0 w' /\ later w w').
  { intros e w' Hs Hlw. rewrite <- and_assoc. split; [|exact Hlw].
    apply quiet_step; auto; [apply Hlw|discriminate]. }
  assert (Hquiet' : forall w', stored w' = stored w -> later w w' ->
            stepOk t0 (mkStep w (Patch partial) Unmodelled w') /\
            tracked t0 w' /\ later w w').
  { intros w' Hs Hlw. rewrite <- and_assoc. split; [|exact Hlw].
    apply quiet_step; auto; [apply Hlw|discriminate]. }
  remember (updateMemory partial w) as out eqn:Eout.
  unfold updateMemory in Eout.
  destruct (getMemory_tracked t0 w Ht)
    as [[_ Hget]|[[_ Hget]|[Hapi (cur & Hst & Hget)]]].
  - unfold bind at 1 in Eout. rewrite Hget in Eout. subst out. cbn [fst snd].
    now apply Hquiet.
  - unfold bind at 1 in Eout. rewrite Hget in Eout. subst out. cbn [fst snd].
    apply Hquiet; auto using stored_afterIo.
  - rewrite (bind_run _ _ _ _ _ Hget) in Eout.
    unfold bind at 1 in Eout. unfold lift at 1 in Eout.
    destruct (deepMerge cur partial) as [u| |] eqn:Em;
      [|subst out; cbn [fst snd]; apply Hquiet; auto using stored_afterIo
       |subst out; cbn [fst snd]; apply Hquiet'; auto using stored_afterIo].
    destruct Ht as (ps & mp & la & Hst' & Hm & Hc & Hla & Hle).
    rewrite Hst in Hst'. injection Hst' as ->.
    destruct (merge_keeps_createdAt ps mp t0 partial u Hm Hc Hok Em)
      as (ups & um & -> & Hum & Hcu).
    unfold bind at 1 in Eout. rewrite (stampLastActive_run ups um _ Hum) in Eout.
    unfold bind, storage_put, ret in Eout.
    rewrite storageApi_afterIo, Hapi in Eout.
    assert (Ht : tracked t0 w) by (exists ps, mp, la; auto).
    destruct (nextFails (afterIo w)); subst out; cbn [fst snd].
    + apply Hquiet; auto. now rewrite !stored_afterIo.
    + set (r := Obj (assign "meta"
                       (Obj (assign "lastActive" (Num (now (afterIo w))) um)) ups)).
      assert (Hca : getPath ["meta"; "createdAt"] r = Some (Num t0)).
      { unfold r. cbn [getPath prop]. rewrite lookup_assign_same.
        cbn [getPath prop]. rewrite lookup_assign_other by discriminate.
        now rewrite Hcu. }
      assert (Hlr : getPath ["meta"; "lastActive"] r = Some (Num (now (afterIo w)))).
      { unfold r. cbn [getPath prop]. rewrite lookup_assign_same.
        cbn [getPath prop]. now rewrite lookup_assign_same. }
      split; [|split].
      * unfold stepOk, createdAtOf, lastActiveOf, storedField.
        cbn [before after call result stored withStored].
        rewrite Hst. split; [exact Hca|]. split; [|split; [discriminate|split]].
        -- intros r0 [= <-]. split; [reflexivity|exact Hca].
        -- intros p0 r0 _ _. exact Hlr.
        -- exists la, (now (afterIo w)). split; [|split; [exact Hlr|]].
           ++ cbn [getPath prop]. rewrite Hm. cbn [getPath prop]. now rewrite Hla.
           ++ destruct Hl1 as [Hn _]. lia.
      * exists (assign "meta"
                  (Obj (assign "lastActive" (Num (now (afterIo w))) um)) ups),
               (assign "lastActive" (Num (now (afterIo w))) um),
               (now (afterIo w)).
        cbn [stored withStored]. repeat split.
        -- apply lookup_assign_same.
        -- rewrite lookup_assign_other by discriminate. exact Hcu.
        -- apply lookup_assign_same.
        -- cbn [now withStored]. destruct (later_afterIo (afterIo w) (afterIo w)) as [Hn _];
             [split; [lia|apply Hl1]|exact Hn].
      * apply later_withStored. exact Hl2.
Qed.

Lemma later_self (w w' : World) : later w w' -> later w' w'.
Proof. intros [_ H]. now apply later_refl. Qed.

Lemma history_stepOk (t0 : Z) (ops : list op) :
  forall w, tracked t0 w -> later w w -> forallb okPatch ops = true ->
            Forall (stepOk t0) (history ops w).
Proof.
  induction ops as [|o rest IH]; intros w Ht Hl Hok; [constructor|].
  simpl in Hok. apply andb_true_iff in Hok. destruct Hok as [Ho Hrest].
  cbn [history].
  destruct (exec o w) as [res w'] eqn:E.
  assert (stepOk t0 (mkStep w o res w') /\ tracked t0 w' /\ later w w')
    as (Hs & Ht' & Hl').
  { destruct o as [|partial]; cbn [exec] in E.
    - pose proof (get_step t0 w Ht Hl) as H. now rewrite E in H.
    - pose proof (patch_step t0 w partial Ht Hl Ho) as H. now rewrite E in H. }
  constructor; [exact Hs|].
  apply IH; auto. eapply later_self; eauto.
Qed.

(** The record that the first read creates is tracked from its creation. *)
Lemma created_record_tracked (w : World) :
  storageApi w = true -> ioOk 2 w = true -> stored w = None ->
  monotone (now w) (pending w) = true ->
  tracked (now (afterIo w)) (snd (getMemory w)).
Proof.
  intros Hapi Hio Hst Hm.
  destruct (ioOk_next 1 w Hio) as [Hio1 Hio'].
  destruct (ioOk_next 0 _ Hio') as [Hio2 _].
  pose proof (later_afterIo w w (later_refl w Hm)) as Hl1.
  destruct (later_afterIo (afterIo w) (afterIo w) (later_self w _ Hl1)) as [Hle _].
  unfold getMemory, bind, storage_get.
  rewrite Hapi, Hio1, Hst. cbn [truthy].
  unfold freshMemory, bind, Date_now, ret, storage_put.
  rewrite storageApi_afterIo, Hapi, Hio2. cbn [snd stored withStored].
  eexists _, _, _. split; [reflexivity|].
  split; [reflexivity|]. split; [reflexivity|]. split; [reflexivity|].
  exact Hle.
Qed.

End HistoryFacts.

(** C5 (as amended).  Take an identity whose record was created at [t0], a
    clock that does not run backwards, and any sequence of reads and patches
    in which no patch supplies [meta.createdAt] or replaces [meta].  Then for
    every call: the stored [createdAt] is [t0] afterwards, and so is the
    [createdAt] of every record returned; a read leaves the stored record as
    it is; a successful patch sets the stored [lastActive] to the time of the
    call; and the stored [lastActive] after the call is not smaller than
    before it. *)
Theorem createdAt_kept_and_lastActive_monotone
  (t0 : Z) (ops : list op) (w : World) :
  tracked t0 w -> monotone (now w) (pending w) = true ->
  forallb okPatch ops = true ->
  Forall (stepOk t0) (history ops w).
Proof.
  intros Ht Hm Hok.
  apply HistoryFacts.history_stepOk; auto using later_refl.
Qed.

Lemma createdAt_kept_and_lastActive_monotone_witness :
  Forall (stepOk 100)
    (history [Get; Patch conditionsPatch; Patch (Obj []); Get] sampleWorld).
Proof.
  apply (createdAt_kept_and_lastActive_monotone 100
           [Get; Patch conditionsPatch; Patch (Obj []); Get] sampleWorld).
  - exists [("profile", Obj [("riskFactors", strings ["A"]);
                             ("conditions", strings ["B"]);
                             ("interests", strings [])]);
            ("conversation", Obj [("recentQuestions", strings ["Q1"]);
                                  ("keyInsights", strings [])]);
            ("meta", Obj [("createdAt", Num 100); ("lastActive", Num 100)])],
           [("createdAt", Num 100); ("lastActive", Num 100)], 100.
    repeat split; simpl; lia.
  - reflexivity.
  - reflexivity.
Defined.

(** C5 does not hold as stated: a patch that supplies [meta.createdAt]
    changes it.  The identity is created by the first read, at 210; after
    the patch every read shows 0. *)
Lemma createdAt_changed_by_patch :
  map createdAtRead (history [Get; Patch createdAtPatch; Get] freshWorld) =
  [Some (Num 210); Some (Num 0); Some (Num 0)].
Proof. reflexivity. Qed.

(** ** Two patches on disjoint fields, one after the other *)

(** Run to completion one after the other, in either order, both patches
    are in the stored record.  That the platform runs the calls of one
    identity one after the other is not part of this file. *)
Example disjoint_patches_in_either_order :
  forall ops, ops = [Patch riskPatch; Patch conditionPatch] \/
              ops = [Patch conditionPatch; Patch riskPatch] ->
    storedField ["profile"; "riskFactors"] (lastWorld ops sampleWorld) = Some (strings ["X"]) /\
    storedField ["profile"; "conditions"] (lastWorld ops sampleWorld) = Some (strings ["Y"]).
Proof. intros ops [-> | ->]; split; reflexivity. Qed.

(** C9.  Calls on an instance as the class is written.  Where [this.state]
    is not there, every read and every patch throws a [TypeError] at
    [this.state.storage] before anything is merged, and leaves the
    environment as it was: after any sequence of calls, in any order, nothing
    is stored.  So of two patches on distinct fields neither takes effect,
    whichever comes first. *)
Theorem calls_without_state_leave_no_trace (ops : list op) (w : World) :
  storageApi w = false ->
  Forall (fun s => result s = Throw TypeError /\ after s = w) (history ops w) /\
  lastWorld ops w = w.
Proof.
  intros Hapi.
  assert (Hexec : forall o, exec o w = (Throw TypeError, w)).
  { intros [|partial]; cbn [exec];
      unfold UserContextDO.updateMemory, UserContextDO.getMemory, bind, storage_get;
      now rewrite Hapi. }
  assert (Hall : Forall (fun s => result s = Throw TypeError /\ after s = w)
                        (history ops w)).
  { induction ops as [|o rest IH]; [constructor|].
    cbn [history]. rewrite (Hexec o). constructor; [split; reflexivity|exact IH]. }
  split; [exact Hall|].
  unfold lastWorld. revert Hall. generalize (history ops w) as l.
  induction l as [|s l IH]; intros Hall; [reflexivity|].
  apply Forall_cons_iff in Hall. destruct Hall as [[_ Hs] Hl].
  cbn [map last]. destruct l as [|s2 l2]; [exact Hs|].
  exact (IH Hl).
Qed.

Lemma calls_without_state_leave_no_trace_witness :
  Forall (fun s => result s = Throw TypeError /\ after s = bareWorld)
         (history [Patch riskPatch; Patch conditionPatch] bareWorld) /\
  lastWorld [Patch riskPatch; Patch conditionPatch] bareWorld = bareWorld.
Proof.
  apply (calls_without_state_leave_no_trace
           [Patch riskPatch; Patch conditionPatch] bareWorld).
  reflexivity.
Defined.

(** In either order the two patches of the specification are lost. *)
Example disjoint_patches_are_lost_without_state :
  forall ops, ops = [Patch riskPatch; Patch conditionPatch] \/
              ops = [Patch conditionPatch; Patch riskPatch] ->
    storedField ["profile"; "riskFactors"] (lastWorld ops bareWorld) = None /\
    storedField ["profile"; "conditions"] (lastWorld ops bareWorld) = None.
Proof. intros ops [-> | ->]; split; reflexivity. Qed.

(** * Further properties of the store *)

(** ** Keys of a merged record *)

Lemma assign_same_value (k : string) (v : value) (ps : props) :
  lookup k ps = Some v -> assign k v ps = ps.
Proof.
  induction ps as [|[k' v'] rest IH]; simpl; try discriminate.
  destruct (k =? k')%string eqn:E.
  - apply String.eqb_eq in E. subst k'. now intros [= ->].
  - intros H. now rewrite IH.
Qed.

Lemma keys_assign (k k' : string) (v : value) (ps : props) :
  In k' (keys (assign k v ps)) <-> k' = k \/ In k' (keys ps).
Proof.
  induction ps as [|[k0 v0] rest IH]; simpl.
  - intuition.
  - destruct (k =? k0)%string eqn:E; simpl.
    + apply String.eqb_eq in E. subst k0. intuition.
    + rewrite IH. intuition.
Qed.

(** One round of the loop: the keys are those from before, and the key of
    the round when its value is not [undefined]. *)
Lemma mergeKey_keys (k : string) (v : value) (ps : props) (r : value) :
  mergeKey deepMerge k v (Obj ps) = Ok r ->
  exists rp, r = Obj rp /\
    forall k', In k' (keys rp) <-> In k' (keys ps) \/ (k' = k /\ v <> Undefined).
Proof.
  assert (Hset : forall x, v <> Undefined -> setProp (Obj ps) k x = Ok r ->
            exists rp, r = Obj rp /\
              forall k', In k' (keys rp) <-> In k' (keys ps) \/ (k' = k /\ v <> Undefined)).
  { intros x Hv Hx. apply setProp_ok in Hx. destruct Hx as (ps' & [= <-] & -> & _).
    eexists. split; [reflexivity|]. intros k'. rewrite keys_assign. tauto. }
  intros H. destruct v; cbn [mergeKey] in H;
    try (apply (Hset _ ltac:(discriminate) H)).
  - injection H as <-. exists ps. split; [reflexivity|]. intros k'. tauto.
  - apply obind_ok in H. destruct H as (t & _ & H).
    apply obind_ok in H. destruct H as (m & _ & H).
    apply (Hset m ltac:(discriminate) H).
Qed.

Lemma forIn_keys (sp : props) :
  forall ps r, forIn (mergeKey deepMerge) sp (Obj ps) = Ok r ->
    exists rp, r = Obj rp /\
      forall k, In k (keys rp) <->
                In k (keys ps) \/ exists v, In (k, v) sp /\ v <> Undefined.
Proof.
  induction sp as [|[k0 v0] rest IH]; intros ps r H.
  - injection H as <-. exists ps. split; [reflexivity|]. intros k. split; [tauto|].
    intros [Hk|(v & [] & _)]. exact Hk.
  - cbn [forIn] in H. apply obind_ok in H. destruct H as (r1 & Hstep & Hloop).
    destruct (mergeKey_keys k0 v0 ps r1 Hstep) as (p1 & -> & H1).
    destruct (IH p1 r Hloop) as (rp & -> & H2).
    exists rp. split; [reflexivity|]. intros k. rewrite H2, H1. split.
    + intros [[Hk|[-> Hv]]|(v & Hin & Hv)]; [now left| |].
      * right. exists v0. split; [now left|exact Hv].
      * right. exists v. split; [now right|exact Hv].
    + intros [Hk|(v & [Heq|Hin] & Hv)]; [now left; left| |].
      * injection Heq as -> ->. left. right. now split.
      * right. now exists v.
Qed.

(** X1.  A merge never removes a key, and adds only what the patch
    supplies: the merged object has a key exactly when the record has it, or
    the patch holds it with a value other than [undefined].  In particular
    no patch deletes a field; [null] is stored as a value.  The statement is
    about which keys there are, not about their order. *)
Theorem deepMerge_keeps_every_key (tp sp : props) (r : value) :
  isJson (Obj tp) = true ->
  deepMerge (Obj tp) (Obj sp) = Ok r ->
  exists rp, r = Obj rp /\
    forall k, In k (keys rp) <->
              In k (keys tp) \/ exists v, In (k, v) sp /\ v <> Undefined.
Proof.
  intros Hj H. rewrite deepMerge_unfold, (jsonClone_json _ Hj) in H.
  cbn [obind] in H. exact (forIn_keys sp tp r H).
Qed.

Lemma deepMerge_keeps_every_key_witness :
  exists rp,
    deepMerge sampleRecord
      (Obj [("notes", Str "n"); ("profile", Null); ("conversation", Undefined)])
    = Ok (Obj rp) /\
    forall k, In k (keys rp) <->
              In k ["profile"; "conversation"; "meta"]%string \/
              exists v, In (k, v) [("notes", Str "n"); ("profile", Null);
                                   ("conversation", Undefined)] /\ v <> Undefined.
Proof.
  destruct (deepMerge_keeps_every_key
              [("profile", Obj [("riskFactors", strings ["A"]);
                                ("conditions", strings ["B"]);
                                ("interests", strings [])]);
               ("conversation", Obj [("recentQuestions", strings ["Q1"]);
                                     ("keyInsights", strings [])]);
               ("meta", Obj [("createdAt", Num 100); ("lastActive", Num 100)])]
              [("notes", Str "n"); ("profile", Null); ("conversation", Undefined)]
              (Obj [("profile", Null);
                    ("conversation", Obj [("recentQuestions", strings ["Q1"]);
                                          ("keyInsights", strings [])]);
                    ("meta", Obj [("createdAt", Num 100); ("lastActive", Num 100)]);
                    ("notes", Str "n")])
              eq_refl eq_refl) as (rp & Hr & Hk).
  exists rp. split; [|exact Hk]. now rewrite <- Hr.
Defined.

(** ** Plain JSON in, plain JSON out *)

Lemma jsonProps_isJson (ps : props) :
  Forall (fun kv => snd kv <> Undefined -> isJson (jsonValue (snd kv)) = true) ps ->
  forallb (fun kv => isJson (snd kv)) (jsonProps jsonValue ps) = true.
Proof.
  induction 1 as [|[k v] rest Hv _ IH]; [reflexivity|].
  simpl in Hv.
  destruct v; cbn [jsonProps forallb snd]; try exact IH;
    (rewrite IH, andb_true_r; apply Hv; discriminate).
Qed.

Lemma jsonValue_isJson (v : value) :
  v <> Undefined -> isJson (jsonValue v) = true.
Proof.
  induction v as [| | | | |items IH|ps IH] using value_ind; intros Hne;
    try reflexivity; try congruence.
  - clear Hne. cbn [jsonValue isJson].
    induction IH as [|x rest Hx _ IHrest]; [reflexivity|].
    cbn [map forallb]. rewrite IHrest, andb_true_r.
    destruct x; try reflexivity; apply Hx; discriminate.
  - cbn [jsonValue isJson]. now apply jsonProps_isJson.
Qed.

Lemma jsonClone_isJson (v c : value) : jsonClone v = Ok c -> isJson c = true.
Proof.
  intros H.
  assert (Hne : v <> Undefined) by (intros ->; discriminate).
  assert (Hc : c = jsonValue v)
    by (destruct v; try congruence; unfold jsonClone in H; congruence).
  subst c. now apply jsonValue_isJson.
Qed.

Lemma isJson_assign (k : string) (v : value) (ps : props) :
  isJson (Obj ps) = true -> isJson v = true -> isJson (Obj (assign k v ps)) = true.
Proof.
  cbn [isJson]. intros Hps Hv.
  induction ps as [|[k' v'] rest IH]; cbn [assign forallb snd].
  - now rewrite Hv.
  - cbn [forallb snd] in Hps. apply andb_true_iff in Hps. destruct Hps as [H1 H2].
    destruct (k =? k')%string; cbn [forallb snd].
    + now rewrite Hv, H2.
    + now rewrite H1, IH.
Qed.

Lemma forIn_isJson (sp : props) :
  Forall (fun kv => forall t r, isJson (snd kv) = true ->
                    deepMerge t (snd kv) = Ok r -> isJson r = true) sp ->
  forallb (fun kv => isJson (snd kv)) sp = true ->
  forall res r, isJson res = true ->
    forIn (mergeKey deepMerge) sp res = Ok r -> isJson r = true.
Proof.
  induction 1 as [|[k0 v0] rest Hrec _ IH]; intros Hj res r Hres H.
  - now injection H as <-.
  - cbn [forallb snd] in Hj. apply andb_true_iff in Hj. destruct Hj as [Hv0 Hrest].
    cbn [forIn] in H. apply obind_ok in H. destruct H as (r1 & Hstep & Hloop).
    apply (IH Hrest r1 r); [|exact Hloop]. cbn [snd] in Hrec.
    assert (Hset : forall x, isJson x = true -> setProp res k0 x = Ok r1 ->
                             isJson r1 = true).
    { intros x Hx Hs. apply setProp_ok in Hs. destruct Hs as (ps & -> & -> & _).
      now apply isJson_assign. }
    destruct v0; cbn [mergeKey] in Hstep; try discriminate;
      try (now apply (Hset _ Hv0 Hstep)).
    apply obind_ok in Hstep. destruct Hstep as (t & _ & Hstep).
    apply obind_ok in Hstep. destruct Hstep as (m & Hm & Hstep).
    apply (Hset m); [|exact Hstep]. now apply (Hrec t m).
Qed.

(** The merge of a JSON patch is plain JSON, whatever the record held. *)
Lemma deepMerge_isJson (source : value) :
  forall target r, isJson source = true ->
    deepMerge target source = Ok r -> isJson r = true.
Proof.
  induction source as [| | | | |items IH|sp IH] using value_ind;
    intros target r Hj H; rewrite deepMerge_unfold in H;
    apply obind_ok in H; destruct H as (c & Hc & H);
    pose proof (jsonClone_isJson target c Hc) as Hcj;
    try (injection H as <-; exact Hcj).
  - destruct s; [injection H as <-; exact Hcj|discriminate].
  - destruct items; [injection H as <-; exact Hcj|discriminate].
  - now apply (forIn_isJson sp IH Hj c r).
Qed.

Module JsonFacts.
Import UserContextDO UserContextDOFacts.

Lemma getMemory_storedJson (w : World) :
  storedJson w = true ->
  storedJson (snd (getMemory w)) = true /\
  forall r, fst (getMemory w) = Ok r -> isJson r = true.
Proof.
  unfold storedJson, getMemory, bind, storage_get. intros Hj.
  destruct (storageApi w) eqn:Hapi; [|split; [exact Hj|discriminate]].
  destruct (nextFails w); cbn [fst snd];
    [rewrite stored_afterIo; split; [exact Hj|discriminate]|].
  destruct (stored w) as [cur|] eqn:Hst.
  - destruct (truthy cur) eqn:Htr.
    + cbn [ret fst snd]. rewrite stored_afterIo, Hst.
      split; [exact Hj|]. now intros r [= <-].
    + unfold freshMemory, bind, Date_now, ret, storage_put.
      rewrite storageApi_afterIo, Hapi.
      destruct (nextFails (afterIo w)); cbn [fst snd stored withStored].
      * rewrite !stored_afterIo, Hst. split; [exact Hj|discriminate].
      * split; [reflexivity|]. now intros r [= <-].
  - cbn [truthy]. unfold freshMemory, bind, Date_now, ret, storage_put.
    rewrite storageApi_afterIo, Hapi.
    destruct (nextFails (afterIo w)); cbn [fst snd stored withStored].
    + rewrite !stored_afterIo, Hst. split; [reflexivity|discriminate].
    + split; [reflexivity|]. now intros r [= <-].
Qed.

Lemma updateMemory_storedJson (w : World) (partial : value) :
  storedJson w = true -> isJson partial = true ->
  storedJson (snd (updateMemory partial w)) = true /\
  forall r, fst (updateMemory partial w) = Ok r -> isJson r = true.
Proof.
  intros Hj Hp.
  destruct (getMemory_storedJson w Hj) as [Hj1 Hr1].
  remember (updateMemory partial w) as out eqn:Eout.
  unfold updateMemory in Eout. unfold bind at 1 in Eout.
  destruct (getMemory w) as [[cur| |] w1]; cbn [fst snd] in Hj1, Hr1;
    [|subst out; split; [exact Hj1|discriminate]
     |subst out; split; [exact Hj1|discriminate]].
  unfold bind at 1 in Eout. unfold lift at 1 in Eout.
  destruct (deepMerge cur partial) as [u| |] eqn:Em;
    [|subst out; split; [exact Hj1|discriminate]
     |subst out; split; [exact Hj1|discriminate]].
  pose proof (deepMerge_isJson partial cur u Hp Em) as Hu.
  unfold bind at 1 in Eout.
  destruct (stampLastActive u w1) as [[u'| |] w2] eqn:Es;
    [|apply (f_equal snd) in Es; cbn [snd] in Es;
      assert (w2 = w1) as -> by
        (unfold stampLastActive, bind, lift, Date_now, ret in Es;
         destruct (getProp u "meta"); [|symmetry; exact Es|symmetry; exact Es];
         destruct (setProp _ "lastActive" _); [|symmetry; exact Es|symmetry; exact Es];
         destruct u; symmetry; exact Es);
      subst out; split; [exact Hj1|discriminate]
     |apply (f_equal snd) in Es; cbn [snd] in Es;
      assert (w2 = w1) as -> by
        (unfold stampLastActive, bind, lift, Date_now, ret in Es;
         destruct (getProp u "meta"); [|symmetry; exact Es|symmetry; exact Es];
         destruct (setProp _ "lastActive" _); [|symmetry; exact Es|symmetry; exact Es];
         destruct u; symmetry; exact Es);
      subst out; split; [exact Hj1|discriminate]].
  destruct (stampLastActive_ok u u' w1 w2 Es) as (-> & ups & mp & -> & Hl & ->).
  assert (Hu' : isJson (Obj (assign "meta"
                  (Obj (assign "lastActive" (Num (now w1)) mp)) ups)) = true).
  { apply isJson_assign; [exact Hu|]. apply isJson_assign; [|reflexivity].
    exact (isJson_lookup "meta" (Obj mp) ups Hu Hl). }
  unfold bind, storage_put, ret in Eout.
  destruct (storageApi w1); [|subst out; split; [exact Hj1|discriminate]].
  destruct (nextFails w1); subst out; cbn [fst snd].
  - unfold storedJson in *. rewrite stored_afterIo. split; [exact Hj1|discriminate].
  - split; [exact Hu'|]. now intros r [= <-].
Qed.

Lemma history_storedJson (ops : list op) :
  forall w, storedJson w = true -> forallb jsonPatch ops = true ->
    Forall (fun s => storedJson (after s) = true /\
                     forall r, result s = Ok r -> isJson r = true)
           (history ops w).
Proof.
  induction ops as [|o rest IH]; intros w Hj Hok; [constructor|].
  cbn [forallb] in Hok. apply andb_true_iff in Hok. destruct Hok as [Ho Hrest].
  cbn [history]. destruct (exec o w) as [res w'] eqn:E.
  assert (storedJson w' = true /\ forall r, res = Ok r -> isJson r = true) as [H1 H2].
  { destruct o as [|partial]; cbn [exec] in E.
    - pose proof (getMemory_storedJson w Hj) as H. now rewrite E in H.
    - pose proof (updateMemory_storedJson w partial Hj Ho) as H. now rewrite E in H. }
  constructor; [split; assumption|]. now apply IH.
Qed.

End JsonFacts.

(** X2.  The store keeps to plain JSON.  When what is stored is plain JSON
    (or nothing is stored) and every patch is plain JSON, as the bodies of
    requests are, then along any sequence of reads and patches that stays
    inside what is modelled (no call writes a property on an array or reads
    one from an array or a string, which is where the model stops) the
    stored record is plain JSON after every call, and so is every record
    returned.  So the JSON copy at the head of [deepMerge] never alters a
    stored record. *)
Theorem store_keeps_plain_json (ops : list op) (w : World) :
  storedJson w = true -> forallb jsonPatch ops = true ->
  forallb modelled (history ops w) = true ->
  Forall (fun s => storedJson (after s) = true /\
                   forall r, result s = Ok r -> isJson r = true)
         (history ops w).
Proof. intros Hj Hok _. now apply JsonFacts.history_storedJson. Qed.

Lemma store_keeps_plain_json_witness :
  Forall (fun s => storedJson (after s) = true /\
                   forall r, result s = Ok r -> isJson r = true)
         (history [Get; Patch mismatchPatch; Patch notesPatch; Get] freshWorld).
Proof.
  apply (store_keeps_plain_json
           [Get; Patch mismatchPatch; Patch notesPatch; Get] freshWorld);
    reflexivity.
Defined.

(** ** Merging the same patch again *)

Lemma forIn_writes_allowed (sp : props) :
  forall res r, forIn (mergeKey deepMerge) sp res = Ok r ->
    Forall (fun kv => snd kv = Undefined \/ fst kv <> "__proto__"%string) sp.
Proof.
  induction sp as [|[k0 v0] rest IH]; intros res r H; [constructor|].
  cbn [forIn] in H. apply obind_ok in H. destruct H as (r1 & Hstep & Hloop).
  constructor; [|exact (IH r1 r Hloop)]. cbn [fst snd].
  assert (Hset : forall x, setProp res k0 x = Ok r1 -> k0 <> "__proto__"%string).
  { intros x Hx. apply setProp_ok in Hx. now destruct Hx as (ps & _ & _ & Hne). }
  destruct v0; cbn [mergeKey] in Hstep; try (right; exact (Hset _ Hstep)).
  - now left.
  - apply obind_ok in Hstep. destruct Hstep as (t & _ & Hstep).
    apply obind_ok in Hstep. destruct Hstep as (m & _ & Hstep).
    right. exact (Hset m Hstep).
Qed.

Lemma forIn_fixed (sp : props) (r : value) :
  Forall (fun kv => mergeKey deepMerge (fst kv) (snd kv) r = Ok r) sp ->
  forIn (mergeKey deepMerge) sp r = Ok r.
Proof.
  induction 1 as [|[k0 v0] rest Hstep _ IH]; [reflexivity|].
  cbn [forIn fst snd] in *. now rewrite Hstep.
Qed.

Lemma setProp_same (rp : props) (k : string) (v : value) :
  lookup k rp = Some v -> k <> "__proto__"%string ->
  setProp (Obj rp) k v = Ok (Obj rp).
Proof.
  intros Hl Hne. cbn [setProp]. apply String.eqb_neq in Hne. rewrite Hne.
  now rewrite assign_same_value.
Qed.

Lemma deepMerge_again (source : value) :
  forall target r,
    isJson source = true -> wellFormed source = true ->
    deepMerge target source = Ok r ->
    deepMerge r source = Ok r.
Proof.
  induction source as [| | | | |items IH|sp IH] using value_ind;
    intros target r Hj Hwf H;
    pose proof (deepMerge_isJson _ target r Hj H) as Hr;
    rewrite deepMerge_unfold, (jsonClone_json r Hr); cbn [obind];
    try reflexivity;
    rewrite deepMerge_unfold in H;
    apply obind_ok in H; destruct H as (c & Hc & H).
  - destruct s; [reflexivity|discriminate].
  - destruct items; [reflexivity|discriminate].
  - cbn [wellFormed] in Hwf. apply andb_true_iff in Hwf. destruct Hwf as [Hd Hwf].
    cbn [isJson] in Hj.
    pose proof (forIn_writes_allowed sp c r H) as Hallowed.
    apply forIn_fixed. apply Forall_forall. intros [k v] Hin. cbn [fst snd].
    rewrite Forall_forall in IH, Hallowed.
    rewrite forallb_forall in Hj, Hwf.
    pose proof (Hj _ Hin) as Hvj. pose proof (Hwf _ Hin) as Hvw.
    pose proof (IH _ Hin) as Hrec. cbn [snd] in Hvj, Hvw, Hrec.
    assert (Hl : lookup k sp = Some v).
    { clear - Hd Hin. induction sp as [|[k' v'] rest IHs]; [contradiction|].
      cbn [keys map distinct fst] in Hd. apply andb_true_iff in Hd.
      destruct Hd as [Hfresh Hd]. apply negb_true_iff in Hfresh.
      cbn [lookup]. destruct Hin as [[= -> ->]|Hin].
      - now rewrite String.eqb_refl.
      - pose proof (fresh_not_in k' (k, v) rest Hfresh Hin) as Hne.
        cbn [fst] in Hne. apply String.eqb_neq in Hne. rewrite Hne. auto. }
    pose proof (forIn_merged sp Hd c r k H) as Hmg. rewrite Hl in Hmg.
    assert (Hproto : k <> "__proto__"%string).
    { destruct (Hallowed _ Hin) as [Hu|Hne]; [|exact Hne].
      cbn [snd] in Hu. subst v. discriminate. }
    destruct v; try discriminate; unfold merged in Hmg; cbn [mergeKey];
      try (apply prop_some_obj in Hmg; destruct Hmg as (rp & -> & Hk);
           now apply setProp_same).
    destruct Hmg as (t & m & _ & Hm & Hk).
    apply prop_some_obj in Hk. destruct Hk as (rp & -> & Hk).
    cbn [getProp]. rewrite Hk. cbn [obind].
    rewrite (Hrec t m Hvj Hvw Hm). cbn [obind].
    now apply setProp_same.
Qed.

(** X3.  Merging is idempotent: when a JSON patch has been merged into a
    record, merging the same patch into the result changes nothing.  A
    request sent twice leaves the same record as the request sent once, up
    to the stamp of [lastActive]. *)
Theorem deepMerge_is_idempotent (target source r : value) :
  isJson source = true -> wellFormed source = true ->
  deepMerge target source = Ok r ->
  deepMerge r source = Ok r.
Proof. intros Hj Hwf H. exact (deepMerge_again source target r Hj Hwf H). Qed.

Lemma deepMerge_is_idempotent_witness :
  exists r,
    deepMerge sampleRecord conditionsPatch = Ok r /\ deepMerge r conditionsPatch = Ok r.
Proof.
  eexists. split; [reflexivity|].
  apply (deepMerge_is_idempotent sampleRecord conditionsPatch); reflexivity.
Defined.

(** ** The method [fetch] *)

Module FetchFacts.
Import UserContextDO UserContextDOFacts.

Lemma updateMemory_ok_api (partial r : value) (w w' : World) :
  updateMemory partial w = (Ok r, w') ->
  storageApi w' = true /\ truthy r = true.
Proof.
  intros H. pose proof (updateMemory_ok partial r w w' H)
    as (cur & w1 & ups & mp & _ & _ & _ & -> & ->).
  split; [|reflexivity].
  unfold updateMemory in H.
  apply bind_ok in H. destruct H as (c & wa & Hget & H).
  apply bind_ok in H. destruct H as (u & wb & Hm & H).
  unfold lift in Hm. injection Hm as Hm <-.
  apply bind_ok in H. destruct H as (u' & wc & Hs & H).
  apply stampLastActive_ok in Hs. destruct Hs as (-> & _).
  apply bind_ok in H. destruct H as ([] & wd & Hput & H).
  unfold ret in H. injection H as _ <-.
  unfold storage_put in Hput.
  destruct (storageApi wa) eqn:Hapi; [|discriminate].
  destruct (nextFails wa); [discriminate|].
  injection Hput as <-. cbn [storageApi withStored]. now rewrite storageApi_afterIo.
Qed.

(** A read that does not return also leaves an existing record alone. *)
Lemma getMemory_existing_cases (w : World) (cur : value) :
  stored w = Some cur -> truthy cur = true ->
  stored (snd (getMemory w)) = Some cur /\
  (forall r, fst (getMemory w) = Ok r -> r = cur).
Proof.
  intros Hst Htr. unfold getMemory, bind, storage_get. rewrite Hst.
  destruct (storageApi w); [|split; [exact Hst|discriminate]].
  destruct (nextFails w); cbn [fst snd]; rewrite ?Htr; cbn [ret fst snd];
    rewrite stored_afterIo, Hst; (split; [reflexivity|]); try discriminate.
  now intros r [= <-].
Qed.

Lemma stampLastActive_world (u : value) (w : World) :
  snd (stampLastActive u w) = w.
Proof.
  unfold stampLastActive, bind, lift, Date_now, ret.
  destruct (getProp u "meta"); try reflexivity.
  destruct (setProp _ "lastActive" _); try reflexivity.
  now destruct u.
Qed.

(** A patch on an existing record stores its result or nothing. *)
Lemma updateMemory_all_or_nothing (w : World) (cur partial : value) :
  stored w = Some cur -> truthy cur = true ->
  (exists r, fst (updateMemory partial w) = Ok r /\
             stored (snd (updateMemory partial w)) = Some r) \/
  ((forall r, fst (updateMemory partial w) <> Ok r) /\
   stored (snd (updateMemory partial w)) = Some cur).
Proof.
  intros Hst Htr.
  destruct (getMemory_existing_cases w cur Hst Htr) as [Hs1 Hr1].
  remember (updateMemory partial w) as out eqn:Eout.
  unfold updateMemory in Eout. unfold bind at 1 in Eout.
  destruct (getMemory w) as [[c| |] w1]; cbn [fst snd] in Hs1, Hr1;
    [|subst out; right; split; [discriminate|exact Hs1]
     |subst out; right; split; [discriminate|exact Hs1]].
  unfold bind at 1 in Eout. unfold lift at 1 in Eout.
  destruct (deepMerge c partial) as [u| |];
    [|subst out; right; split; [discriminate|exact Hs1]
     |subst out; right; split; [discriminate|exact Hs1]].
  unfold bind at 1 in Eout.
  pose proof (stampLastActive_world u w1) as Hw.
  destruct (stampLastActive u w1) as [[u'| |] w2]; cbn [snd] in Hw; subst w2;
    [|subst out; right; split; [discriminate|exact Hs1]
     |subst out; right; split; [discriminate|exact Hs1]].
  unfold bind, storage_put, ret in Eout.
  destruct (storageApi w1);
    [|subst out; right; split; [discriminate|exact Hs1]].
  destruct (nextFails w1); subst out; cbn [fst snd].
  - right. split; [discriminate|]. now rewrite stored_afterIo.
  - left. exists u'. split; reflexivity.
Qed.

End FetchFacts.

(** X4.  [fetch] never throws, in either revision: whatever [getMemory] and
    [updateMemory] throw, and a body that is no JSON, ends in a response. *)
Theorem fetch_never_throws
  (getMemory : M value) (updateMemory : value -> M value)
  (request : Request) (w : World) (e : exn) :
  fst (fetchWith getMemory updateMemory request w) <> Throw e.
Proof.
  unfold fetchWith, tryCatch.
  match goal with |- context [match ?b with _ => _ end] => destruct b as [[resp|e'|] w'] end;
    cbn [fst ret]; discriminate.
Qed.

(** X5.  Any request other than GET /memory and POST /memory is answered
    with the status 404 and the body "Not Found", in either revision,
    whatever [getMemory] and [updateMemory] would do: they are not called,
    and the environment (storage, clock, log) is as it was. *)
Theorem other_routes_are_not_found
  (getMemory : M value) (updateMemory : value -> M value)
  (request : Request) (w : World) :
  (pathname request =? "/memory")%string &&
    ((method request =? "GET")%string || (method request =? "POST")%string) = false ->
  exists resp,
    fetchWith getMemory updateMemory request w = (Ok resp, w) /\
    status resp = 404 /\ body resp = NotJson "Not Found".
Proof.
  intros H. unfold fetchWith, tryCatch.
  destruct (pathname request =? "/memory")%string;
    destruct (method request =? "GET")%string;
    destruct (method request =? "POST")%string; try discriminate;
    eexists; (split; [reflexivity|split; reflexivity]).
Qed.

Lemma other_routes_are_not_found_witness :
  exists resp,
    UserContextDOFetch.fetch (mkRequest "/memory" "DELETE" NoBody) sampleWorld
    = (Ok resp, sampleWorld) /\
    status resp = 404 /\ body resp = NotJson "Not Found".
Proof.
  apply (other_routes_are_not_found UserContextDO.getMemory UserContextDO.updateMemory
           (mkRequest "/memory" "DELETE" NoBody) sampleWorld).
  reflexivity.
Defined.

(** X6.  A POST /memory whose body is missing or is no JSON is answered 500
    with the [SyntaxError] of [request.json()], in either revision, before
    anything is read or written: the environment is as it was. *)
Theorem post_without_json_is_500
  (getMemory : M value) (updateMemory : value -> M value)
  (request : Request) (w : World) :
  pathname request = "/memory"%string -> method request = "POST"%string ->
  (payload request = NoBody \/ exists s, payload request = NotJson s) ->
  fetchWith getMemory updateMemory request w =
  (Ok (mkResponse 500 (Some "application/json") (ErrorJson SyntaxError)), w).
Proof.
  intros Hp Hm Hb. unfold fetchWith, tryCatch, bind, lift, request_json.
  rewrite Hp, Hm. cbn [String.eqb Ascii.eqb Bool.eqb andb].
  destruct Hb as [->|(s & ->)]; reflexivity.
Qed.

Lemma post_without_json_is_500_witness :
  UserContextDOFetch.fetch (mkRequest "/memory" "POST" (NotJson "{oops")) sampleWorld =
  (Ok (mkResponse 500 (Some "application/json") (ErrorJson SyntaxError)), sampleWorld).
Proof.
  apply (post_without_json_is_500 UserContextDO.getMemory UserContextDO.updateMemory
           (mkRequest "/memory" "POST" (NotJson "{oops")) sampleWorld);
    [reflexivity|reflexivity|right; now exists "{oops"].
Defined.

(** X7.  In the first revision a POST /memory on an identity that holds a
    record is all or nothing: either the answer is 200, its body is the
    record now stored, or the answer is 500 and the stored record is the one
    from before. *)
Theorem post_is_all_or_nothing (w w' : World) (cur partial : value) (resp : Response) :
  stored w = Some cur -> truthy cur = true ->
  UserContextDOFetch.fetch (mkRequest "/memory" "POST" (JsonText partial)) w = (Ok resp, w') ->
  (status resp = 200 /\
   exists r, stored w' = Some r /\ body resp = JSON_stringify r) \/
  (status resp = 500 /\ stored w' = Some cur).
Proof.
  intros Hst Htr H.
  unfold UserContextDOFetch.fetch, fetchWith, tryCatch in H.
  cbn [pathname method String.eqb Ascii.eqb Bool.eqb andb] in H.
  unfold bind at 1 in H. unfold request_json, lift in H. cbn [payload] in H.
  unfold bind at 1 in H.
  destruct (FetchFacts.updateMemory_all_or_nothing w cur partial Hst Htr)
    as [(r & Hr & Hs)|[Hn Hs]];
    destruct (UserContextDO.updateMemory partial w) as [[u|e|] w1];
    cbn [fst snd] in *; try discriminate.
  - injection Hr as ->. unfold ret in H. injection H as <- <-.
    left. split; [reflexivity|]. exists r. split; [exact Hs|reflexivity].
  - now destruct (Hn u).
  - unfold ret in H. injection H as <- <-. right. now split.
Qed.

Lemma post_is_all_or_nothing_witness :
  exists resp w',
    UserContextDOFetch.fetch (mkRequest "/memory" "POST" (JsonText notesPatch)) sampleWorld
      = (Ok resp, w') /\
    status resp = 500 /\ stored w' = Some sampleRecord.
Proof.
  eexists _, _. split; [reflexivity|].
  destruct (post_is_all_or_nothing sampleWorld _ sampleRecord notesPatch _
              eq_refl eq_refl eq_refl) as [[H200 _]|H500].
  - discriminate H200.
  - exact H500.
Defined.

(** X8.  Round trip in the first revision: after a POST /memory answered
    200, a GET /memory that reaches the storage is answered 200 with the
    same body, and the stored record stays. *)
Theorem get_after_post_returns_the_same_body
  (w w' : World) (partial : text) (resp : Response) :
  UserContextDOFetch.fetch (mkRequest "/memory" "POST" partial) w = (Ok resp, w') ->
  status resp = 200 -> nextFails w' = false ->
  UserContextDOFetch.fetch (mkRequest "/memory" "GET" NoBody) w' = (Ok resp, afterIo w') /\
  stored (afterIo w') = stored w'.
Proof.
  intros H H200 Hio.
  unfold UserContextDOFetch.fetch, fetchWith, tryCatch in H.
  cbn [pathname method String.eqb Ascii.eqb Bool.eqb andb] in H.
  unfold bind at 1 in H. unfold lift in H.
  destruct (request_json (mkRequest "/memory" "POST" partial)) as [p| |];
    [|unfold ret in H; injection H as <- _; discriminate|discriminate].
  unfold bind at 1 in H.
  destruct (UserContextDO.updateMemory p w) as [[r|e|] w1] eqn:Eu;
    [|unfold ret in H; injection H as <- _; discriminate|discriminate].
  unfold ret in H. injection H as <- <-.
  pose proof (UserContextDOFacts.updateMemory_ok p r w w1 Eu)
    as (cur & wa & ups & mp & _ & _ & _ & Hr & Hw).
  destruct (FetchFacts.updateMemory_ok_api p r w w1 Eu) as (Hapi & Htr).
  assert (Hst : stored w1 = Some r) by (rewrite Hw; reflexivity).
  split; [|apply stored_afterIo].
  unfold UserContextDOFetch.fetch, fetchWith, tryCatch.
  cbn [pathname method String.eqb Ascii.eqb Bool.eqb andb].
  unfold bind.
  now rewrite (UserContextDOFacts.getMemory_existing w1 r Hapi Hio Hst Htr).
Qed.

Lemma get_after_post_returns_the_same_body_witness :
  exists resp w',
    UserContextDOFetch.fetch (mkRequest "/memory" "POST" (JsonText conditionsPatch))
      sampleWorld = (Ok resp, w') /\
    UserContextDOFetch.fetch (mkRequest "/memory" "GET" NoBody) w' = (Ok resp, afterIo w').
Proof.
  eexists _, _. split; [reflexivity|].
  apply (get_after_post_returns_the_same_body sampleWorld _ (JsonText conditionsPatch) _
           eq_refl eq_refl eq_refl).
Defined.

(** X9.  GET /memory on an identity that holds a record, first revision:
    when the read succeeds the answer is 200 with the record as body, when
    it fails the answer is 500; either way nothing is written. *)
Theorem get_answers_with_the_stored_record (w : World) (cur : value) :
  storageApi w = true -> stored w = Some cur -> truthy cur = true ->
  UserContextDOFetch.fetch (mkRequest "/memory" "GET" NoBody) w =
  (Ok (if nextFails w
       then mkResponse 500 (Some "application/json") (ErrorJson StorageError)
       else jsonResponse cur),
   afterIo w) /\
  stored (afterIo w) = Some cur.
Proof.
  intros Hapi Hst Htr. split; [|now rewrite stored_afterIo].
  unfold UserContextDOFetch.fetch, fetchWith, tryCatch.
  cbn [pathname method String.eqb Ascii.eqb Bool.eqb andb].
  unfold bind at 1.
  destruct (nextFails w) eqn:Hio.
  - unfold UserContextDO.getMemory, bind, storage_get. now rewrite Hapi, Hio.
  - now rewrite (UserContextDOFacts.getMemory_existing w cur Hapi Hio Hst Htr).
Qed.

Lemma get_answers_with_the_stored_record_witness :
  UserContextDOFetch.fetch (mkRequest "/memory" "GET" NoBody) failingWriteWorld =
  (Ok (jsonResponse sampleRecord), afterIo failingWriteWorld) /\
  stored (afterIo failingWriteWorld) = Some sampleRecord.
Proof.
  apply (get_answers_with_the_stored_record failingWriteWorld sampleRecord);
    reflexivity.
Defined.

(** ** The revision with the fallback, further *)

Module FallbackMore.
Import UserContextDOFallback.

Lemma guarded_put_ok (u : value) (w : World) :
  storageApi w = true -> nextFails w = false ->
  tryCatch
    (bind hasStorage (fun api => if (api : bool) then storage_put u else ret tt))
    (fun _ => console_log "Storage API not available, data not persisted") w
  = storage_put u w.
Proof.
  intros Hapi Hio. unfold tryCatch, bind, hasStorage, storage_put.
  cbv beta iota. rewrite Hapi. cbv beta iota. rewrite Hapi, Hio. reflexivity.
Qed.

Lemma getMemory_agrees (w : World) :
  storageApi w = true -> ioOk 2 w = true ->
  getMemory w = UserContextDO.getMemory w.
Proof.
  intros Hapi Hio.
  destruct (ioOk_next 1 w Hio) as [Hio1 Hio'].
  destruct (ioOk_next 0 _ Hio') as [Hio2 _].
  unfold getMemory, UserContextDO.getMemory, bind, tryCatch, hasStorage,
    storage_get, freshMemory, bind, Date_now, ret, storage_put.
  destruct (truthy match stored w with Some v => v | None => Undefined end) eqn:Ht;
    repeat (progress (cbv beta iota;
                      rewrite ?storageApi_afterIo, ?Hapi, ?Hio1, ?Ht, ?Hio2));
    reflexivity.
Qed.

(** Where the read of the first revision leaves the storage at hand. *)
Lemma getMemory_leaves_storage_ready (w w1 : World) (cur : value) :
  storageApi w = true -> ioOk 3 w = true ->
  UserContextDO.getMemory w = (Ok cur, w1) ->
  storageApi w1 = true /\ nextFails w1 = false.
Proof.
  intros Hapi Hio.
  destruct (ioOk_next 2 w Hio) as [Hio1 Hio'].
  destruct (ioOk_next 1 _ Hio') as [Hio2 Hio''].
  destruct (ioOk_next 0 _ Hio'') as [Hio3 _].
  unfold UserContextDO.getMemory, bind, storage_get, freshMemory, bind,
    Date_now, ret, storage_put.
  destruct (truthy match stored w with Some v => v | None => Undefined end) eqn:Ht;
    repeat (progress (cbv beta iota;
                      rewrite ?storageApi_afterIo, ?Hapi, ?Hio1, ?Ht, ?Hio2));
    intros [= _ <-]; cbn [storageApi withStored];
    rewrite ?storageApi_afterIo; auto.
Qed.

Lemma loadedAt_afterIo (w : World) : loadedAt (afterIo w) = loadedAt w.
Proof. unfold afterIo. now destruct (pending w). Qed.

Lemma console_afterIo (w : World) : console (afterIo w) = console w.
Proof. unfold afterIo. now destruct (pending w). Qed.

Lemma afterIo_withConsole (c : list string) (w : World) :
  afterIo (withConsole c w) = withConsole c (afterIo w).
Proof.
  unfold afterIo. cbn [pending withConsole loadedAt storageApi stored console].
  now destruct (pending w).
Qed.

Lemma ioOk_weaken (n : nat) (w : World) : ioOk (S n) w = true -> ioOk n w = true.
Proof.
  unfold ioOk. generalize (pending w). clear w.
  induction n as [|n IH]; intros l H; [reflexivity|].
  destruct l as [|e rest]; [reflexivity|].
  cbn [firstn forallb] in H |- *. apply andb_true_iff in H. destruct H as [He Hr].
  now rewrite He, (IH rest Hr).
Qed.

End FallbackMore.

(** X10.  The read of the later revision never fails.  It returns the
    stored record, or a record with empty sequences and both times set to
    the clock, whatever the storage does. *)
Theorem fallback_getMemory_always_returns (w : World) :
  exists cur w',
    UserContextDOFallback.getMemory w = (Ok cur, w') /\
    (stored w = Some cur \/ exists t, cur = freshRecord (loadedAt w) t).
Proof.
  destruct (storageApi w) eqn:Hapi;
    destruct (nextFails w) eqn:Hn1;
    destruct (stored w) as [v|] eqn:Hst;
    try destruct (truthy v) eqn:Ht;
    destruct (nextFails (afterIo w)) eqn:Hn2;
    unfold UserContextDOFallback.getMemory, bind, tryCatch,
      UserContextDOFallback.hasStorage, storage_get, freshMemory, bind,
      Date_now, ret, storage_put, console_log;
    repeat (progress (cbv beta iota;
                      rewrite ?storageApi_afterIo, ?Hapi, ?Hn1, ?Hst, ?Ht, ?Hn2;
                      cbn [truthy]));
    do 2 eexists; (split; [reflexivity|]);
    first [ left; reflexivity
          | right; eexists; unfold freshRecord;
            cbn [loadedAt withConsole withStored];
            rewrite ?FallbackMore.loadedAt_afterIo; reflexivity ].
Qed.

(** X11.  While the storage works the two revisions do the same: with the
    storage at hand and the coming storage operations succeeding, the later
    revision's [getMemory] and [updateMemory] return what the first
    revision's return and leave the same environment. *)
Theorem revisions_agree_while_storage_works (w : World) (partial : value) :
  storageApi w = true -> ioOk 3 w = true ->
  UserContextDOFallback.getMemory w = UserContextDO.getMemory w /\
  UserContextDOFallback.updateMemory partial w = UserContextDO.updateMemory partial w.
Proof.
  intros Hapi Hio.
  pose proof (FallbackMore.getMemory_agrees w Hapi (FallbackMore.ioOk_weaken 2 w Hio))
    as Hget.
  split; [exact Hget|].
  remember (UserContextDOFallback.updateMemory partial w) as lhs eqn:El.
  remember (UserContextDO.updateMemory partial w) as rhs eqn:Er.
  unfold UserContextDOFallback.updateMemory in El.
  unfold UserContextDO.updateMemory in Er.
  unfold bind at 1 in El. unfold bind at 1 in Er. rewrite Hget in El.
  destruct (UserContextDO.getMemory w) as [[cur| |] w1] eqn:Eg;
    [|subst; reflexivity|subst; reflexivity].
  destruct (FallbackMore.getMemory_leaves_storage_ready w w1 cur Hapi Hio Eg)
    as [Hapi1 Hio1].
  unfold bind at 1 in El. unfold bind at 1 in Er. unfold lift in El, Er.
  destruct (deepMerge cur partial) as [u| |];
    [|subst; reflexivity|subst; reflexivity].
  unfold bind at 1 in El. unfold bind at 1 in Er.
  pose proof (FetchFacts.stampLastActive_world u w1) as Hw.
  destruct (stampLastActive u w1) as [[u'| |] w2]; cbn [snd] in Hw; subst w2;
    [|subst; reflexivity|subst; reflexivity].
  unfold bind at 1 in El.
  rewrite (FallbackMore.guarded_put_ok u' w1 Hapi1 Hio1) in El.
  subst. reflexivity.
Qed.

Lemma revisions_agree_while_storage_works_witness :
  UserContextDOFallback.getMemory sampleWorld = UserContextDO.getMemory sampleWorld /\
  UserContextDOFallback.updateMemory conditionsPatch sampleWorld =
  UserContextDO.updateMemory conditionsPatch sampleWorld.
Proof.
  apply (revisions_agree_while_storage_works sampleWorld conditionsPatch); reflexivity.
Defined.

(** X12.  In the later revision a failed read costs the record.  When the
    read fails and the write succeeds, [updateMemory] merges the patch into a
    fresh default record and stores that: what is stored afterwards is made
    of the default and the patch alone, whatever was stored before, and the
    only trace is the line "Storage API not available, using in-memory
    fallback". *)
Theorem failed_read_overwrites_the_record
  (w : World) (partial : value) (ups mp : props) :
  storageApi w = true -> nextFails w = true -> nextFails (afterIo w) = false ->
  deepMerge (freshRecord (loadedAt w) (now (afterIo w))) partial = Ok (Obj ups) ->
  lookup "meta" ups = Some (Obj mp) ->
  exists w',
    UserContextDOFallback.updateMemory partial w =
      (Ok (stamped (now (afterIo w)) ups mp), w') /\
    stored w' = Some (stamped (now (afterIo w)) ups mp) /\
    console w' =
      (console w ++ ["Storage API not available, using in-memory fallback"])%list.
Proof.
  intros Hapi Hread Hwrite Hm Hmeta.
  assert (Hget : UserContextDOFallback.getMemory w =
            (Ok (freshRecord (loadedAt w) (now (afterIo w))),
             withConsole
               (console (afterIo w) ++
                ["Storage API not available, using in-memory fallback"])%list
               (afterIo w))).
  { unfold UserContextDOFallback.getMemory, bind, tryCatch,
      UserContextDOFallback.hasStorage, storage_get, freshMemory, bind,
      Date_now, ret, console_log.
    repeat (progress (cbv beta iota; rewrite ?Hapi, ?Hread)).
    unfold freshRecord. cbn [now loadedAt withConsole].
    now rewrite FallbackMore.loadedAt_afterIo. }
  unfold UserContextDOFallback.updateMemory.
  rewrite (bind_run _ _ _ _ _ Hget).
  unfold bind at 1. unfold lift at 1. rewrite Hm.
  unfold bind at 1. rewrite (UserContextDOFacts.stampLastActive_run ups mp _ Hmeta).
  unfold bind at 1.
  rewrite FallbackMore.guarded_put_ok;
    [|cbn [storageApi withConsole]; now rewrite storageApi_afterIo
     |unfold nextFails, afterIo in *; cbn [pending withConsole];
      destruct (pending w) as [|e rest]; exact Hwrite].
  unfold storage_put. cbn [storageApi withConsole]. rewrite storageApi_afterIo, Hapi.
  assert (Hn : nextFails (withConsole
                 (console (afterIo w) ++
                  ["Storage API not available, using in-memory fallback"])%list
                 (afterIo w)) = false).
  { unfold nextFails, afterIo in *; cbn [pending withConsole];
      destruct (pending w) as [|e rest]; exact Hwrite. }
  rewrite Hn. cbn [now withConsole]. unfold stamped, ret.
  eexists. split; [reflexivity|]. split; [reflexivity|].
  cbn [console withStored].
  rewrite FallbackMore.afterIo_withConsole. cbn [console withConsole].
  now rewrite FallbackMore.console_afterIo.
Qed.

Lemma failed_read_overwrites_the_record_witness :
  exists r w',
    UserContextDOFallback.updateMemory conditionsPatch
      (mkWorld 1 true (Some sampleRecord) 200 [mkIo true 210; mkIo false 220] []) =
      (Ok r, w') /\
    stored w' = Some r /\
    getPath ["profile"; "riskFactors"] r = Some (strings []) /\
    getPath ["meta"; "createdAt"] r = Some (Num 210).
Proof.
  destruct (failed_read_overwrites_the_record
              (mkWorld 1 true (Some sampleRecord) 200 [mkIo true 210; mkIo false 220] [])
              conditionsPatch
              [("profile", Obj [("riskFactors", strings []);
                                ("conditions", strings ["C"]);
                                ("interests", strings [])]);
               ("conversation", emptyConversation);
               ("meta", Obj [("createdAt", Num 210); ("lastActive", Num 210)])]
              [("createdAt", Num 210); ("lastActive", Num 210)]
              eq_refl eq_refl eq_refl eq_refl eq_refl) as (w' & Hrun & Hst & _).
  eexists _, w'. split; [exact Hrun|]. split; [exact Hst|]. split; reflexivity.
Defined.

(** X13.  Without [this.state.storage] the later revision keeps nothing.
    Every read returns a fresh default record.  A patch leaves the
    environment as it was, whatever it holds: nothing is stored and no line
    is written.  When the merge of the patch into a fresh default record
    goes through and leaves [meta] a plain object, the patch returns that
    merge, stamped with the time of the call; and the read after it returns
    a fresh default record again, which does not show the patch. *)
Theorem without_storage_nothing_is_kept (w : World) (partial : value) :
  storageApi w = false ->
  UserContextDOFallback.getMemory w = (Ok (freshRecord (loadedAt w) (now w)), w) /\
  snd (UserContextDOFallback.updateMemory partial w) = w /\
  (forall ups mp,
     deepMerge (freshRecord (loadedAt w) (now w)) partial = Ok (Obj ups) ->
     lookup "meta" ups = Some (Obj mp) ->
     UserContextDOFallback.updateMemory partial w = (Ok (stamped (now w) ups mp), w)) /\
  UserContextDOFallback.getMemory (snd (UserContextDOFallback.updateMemory partial w))
  = (Ok (freshRecord (loadedAt w) (now w)), w).
Proof.
  intros Hapi.
  assert (Hget : UserContextDOFallback.getMemory w =
                 (Ok (freshRecord (loadedAt w) (now w)), w)).
  { unfold UserContextDOFallback.getMemory, bind, tryCatch,
      UserContextDOFallback.hasStorage, freshMemory, bind, Date_now, ret.
    repeat (progress (cbv beta iota; rewrite ?Hapi)). reflexivity. }
  assert (Hsnd : snd (UserContextDOFallback.updateMemory partial w) = w).
  { unfold UserContextDOFallback.updateMemory.
    rewrite (bind_run _ _ _ _ _ Hget).
    unfold bind at 1. unfold lift at 1.
    destruct (deepMerge (freshRecord (loadedAt w) (now w)) partial) as [u| |];
      try reflexivity.
    unfold bind at 1.
    pose proof (FetchFacts.stampLastActive_world u w) as Hw.
    destruct (stampLastActive u w) as [[u'| |] w2]; cbn [snd] in Hw; subst w2;
      try reflexivity.
    unfold bind, tryCatch, UserContextDOFallback.hasStorage, ret.
    repeat (progress (cbv beta iota; rewrite ?Hapi)). reflexivity. }
  split; [exact Hget|]. split; [exact Hsnd|]. split; [|now rewrite Hsnd].
  intros ups mp Hm Hl.
  unfold UserContextDOFallback.updateMemory.
  rewrite (bind_run _ _ _ _ _ Hget).
  unfold bind at 1. unfold lift at 1. rewrite Hm.
  unfold bind at 1. rewrite (UserContextDOFacts.stampLastActive_run ups mp w Hl).
  unfold bind, tryCatch, UserContextDOFallback.hasStorage, ret, stamped.
  repeat (progress (cbv beta iota; rewrite ?Hapi)). reflexivity.
Qed.

Lemma without_storage_nothing_is_kept_witness :
  UserContextDOFallback.getMemory bareWorld = (Ok (freshRecord 1 200), bareWorld) /\
  UserContextDOFallback.updateMemory conditionsPatch bareWorld =
    (Ok (Obj [("profile", Obj [("riskFactors", Arr []); ("conditions", strings ["C"]);
                               ("interests", Arr [])]);
              ("conversation", emptyConversation);
              ("meta", Obj [("createdAt", Num 200); ("lastActive", Num 200)])]),
     bareWorld) /\
  UserContextDOFallback.getMemory
    (snd (UserContextDOFallback.updateMemory conditionsPatch bareWorld))
  = (Ok (freshRecord 1 200), bareWorld).
Proof.
  destruct (without_storage_nothing_is_kept bareWorld conditionsPatch eq_refl)
    as (Hget & _ & Hrun & Hnext).
  split; [exact Hget|]. split; [|exact Hnext].
  apply (Hrun [("profile", Obj [("riskFactors", Arr []); ("conditions", strings ["C"]);
                                ("interests", Arr [])]);
               ("conversation", emptyConversation);
               ("meta", Obj [("createdAt", Num 200); ("lastActive", Num 200)])]
              [("createdAt", Num 200); ("lastActive", Num 200)]);
    reflexivity.
Defined.

(** ** The first draft *)

(** X14.  In the first draft, [UserMemoryDO], the record of a new identity is
    the module-level constant: the first read stores and returns a record
    whose [createdAt] and [lastActive] are the time at which the module was
    loaded, not the time of the call. *)
Theorem first_draft_creates_with_load_time (w : World) :
  storageApi w = true -> ioOk 2 w = true -> stored w = None ->
  exists record w',
    UserMemoryDO.getMemory w = (Ok record, w') /\
    stored w' = Some record /\
    getPath ["meta"; "createdAt"] record = Some (Num (loadedAt w)) /\
    getPath ["meta"; "lastActive"] record = Some (Num (loadedAt w)).
Proof.
  intros Hapi Hio Hst.
  destruct (ioOk_next 1 w Hio) as [Hio1 Hio'].
  destruct (ioOk_next 0 _ Hio') as [Hio2 _].
  unfold UserMemoryDO.getMemory, bind, storage_get.
  rewrite Hapi, Hio1, Hst. cbn [truthy].
  unfold ret, storage_put. rewrite storageApi_afterIo, Hapi, Hio2.
  eexists _, _. split; [reflexivity|]. repeat split.
Qed.

Lemma first_draft_creates_with_load_time_witness :
  exists record w',
    UserMemoryDO.getMemory freshWorld = (Ok record, w') /\
    stored w' = Some record /\
    getPath ["meta"; "createdAt"] record = Some (Num 1) /\
    getPath ["meta"; "lastActive"] record = Some (Num 1).
Proof.
  apply (first_draft_creates_with_load_time freshWorld); reflexivity.
Defined.

(** * The worker *)

(** ** Prompts *)

Lemma append_assoc (a b c : string) : ((a ++ b) ++ c = a ++ (b ++ c))%string.
Proof. induction a as [|x a IH]; simpl; [reflexivity|now rewrite IH]. Qed.

Lemma joinTexts_last (sep : string) (l : list string) (x : string) :
  exists pre, joinTexts sep (l ++ [x]) = (pre ++ x)%string.
Proof.
  induction l as [|y rest IH].
  - now exists ""%string.
  - destruct IH as (pre & Hpre).
    exists (y ++ sep ++ pre)%string.
    change (joinTexts sep ((y :: rest) ++ [x]))
      with (joinTexts sep (y :: (rest ++ [x]))).
    destruct (rest ++ [x])%list as [|z more] eqn:E.
    + now destruct rest.
    + change (joinTexts sep (y :: z :: more))
        with (y ++ sep ++ joinTexts sep (z :: more))%string.
      now rewrite Hpre, !append_assoc.
Qed.

(** X15.  Whatever the memory holds, a prompt that [buildLlamaPrompt]
    returns ends with the section of the current question: the header
    "## Current Question:", a line feed, and the question as given. *)
Theorem prompt_ends_with_the_question (userQuestion : string) (memory : value) (s : string) :
  buildLlamaPrompt userQuestion memory = Ok s ->
  exists before, s = (before ++ "## Current Question:" ++ LF ++ userQuestion)%string.
Proof.
  unfold buildLlamaPrompt. intros H.
  apply obind_ok in H. destruct H as (p1 & _ & H).
  apply obind_ok in H. destruct H as (p2 & _ & H).
  apply obind_ok in H. destruct H as (p3 & _ & H).
  apply obind_ok in H. destruct H as (p4 & _ & H).
  injection H as <-. apply joinTexts_last.
Qed.

Lemma prompt_ends_with_the_question_witness :
  exists before,
    ("## Risk Factors: A" ++ LF ++ LF ++ "## Known Conditions: B" ++ LF ++ LF ++
     "## Recent Questions:" ++ LF ++ "- Q1" ++ LF ++ LF ++
     "## Current Question:" ++ LF ++ "why?")%string =
    (before ++ "## Current Question:" ++ LF ++ "why?")%string.
Proof.
  apply (prompt_ends_with_the_question "why?" sampleRecord). reflexivity.
Defined.

Lemma itemTexts_strings (l : list string) : itemTexts (map Str l) = Ok l.
Proof. induction l as [|x rest IH]; cbn; [reflexivity|now rewrite IH]. Qed.

Lemma join_strings (l : list string) (sep : string) :
  join (strings l) sep = Ok (joinTexts sep l).
Proof. unfold join, strings. now rewrite itemTexts_strings. Qed.

Lemma lastN_map {A B} (f : A -> B) (n : nat) (l : list A) :
  lastN n (map f l) = map f (lastN n l).
Proof. unfold lastN. now rewrite length_map, skipn_map. Qed.

Lemma sliceLast_strings (l : list string) (n : nat) :
  sliceLast (strings l) n = Ok (strings (lastN n l)).
Proof. unfold sliceLast, strings. now rewrite lastN_map. Qed.

Lemma lastN_app {A} (n : nat) (older l : list A) :
  (n <= List.length l)%nat -> lastN n (older ++ l) = lastN n l.
Proof.
  intros Hn. unfold lastN. rewrite length_app.
  replace (List.length older + List.length l - n)%nat
    with (List.length older + (List.length l - n))%nat by lia.
  rewrite skipn_app.
  replace (List.length older + (List.length l - n) - List.length older)%nat
    with (List.length l - n)%nat by lia.
  rewrite (skipn_all2 older) by lia. reflexivity.
Qed.

Lemma pushIf_strings (parts : list string) (l : list string) (text : string) :
  pushIf parts (hasItems (strings l)) (Ok text) = Ok (parts ++ sectionIf l text)%list.
Proof.
  unfold pushIf, hasItems, strings, sectionIf.
  destruct l; cbn; [now rewrite app_nil_r|reflexivity].
Qed.

(** On a record of the schema [buildLlamaPrompt] returns, and its sections
    are those of [llamaSections]. *)
Lemma buildLlamaPrompt_recordOf (userQuestion : string) (m : Memory) :
  buildLlamaPrompt userQuestion (recordOf m) =
  Ok (joinTexts (LF ++ LF)
        (llamaSections m ++ [("## Current Question:" ++ LF ++ userQuestion)%string])).
Proof.
  unfold buildLlamaPrompt, joined, joinedLast, recordOf, llamaSections.
  cbn [member2 getProp lookup String.eqb Ascii.eqb Bool.eqb obind].
  rewrite !sliceLast_strings. cbn [obind]. rewrite !join_strings. cbn [obind].
  rewrite !pushIf_strings. cbn [obind app].
  rewrite !pushIf_strings. cbn [obind].
  rewrite !pushIf_strings. cbn [obind].
  rewrite !pushIf_strings. cbn [obind].
  now rewrite <- !app_assoc.
Qed.

(** X16.  Only the last three questions and the last two insights reach the
    prompt.  On a record of the schema [buildLlamaPrompt] returns, and older
    questions and insights put in front of at least three questions and two
    insights leave the prompt as it is. *)
Theorem prompt_forgets_older_history
  (userQuestion : string) (m : Memory) (olderQuestions olderInsights : list string) :
  (3 <= List.length (recentQuestions m))%nat ->
  (2 <= List.length (keyInsights m))%nat ->
  exists s,
    buildLlamaPrompt userQuestion (recordOf m) = Ok s /\
    buildLlamaPrompt userQuestion (recordOf (withOlder olderQuestions olderInsights m)) = Ok s.
Proof.
  intros Hq Hi. eexists. split; [apply buildLlamaPrompt_recordOf|].
  rewrite buildLlamaPrompt_recordOf. do 3 f_equal.
  unfold llamaSections, withOlder.
  cbn [riskFactors conditions interests recentQuestions keyInsights].
  rewrite (lastN_app 2 olderInsights _ Hi), (lastN_app 3 olderQuestions _ Hq).
  assert (Hs : forall (older l : list string) (text : string),
            (0 < List.length l)%nat -> sectionIf (older ++ l) text = sectionIf l text).
  { intros older l text Hl. destruct l; [cbn in Hl; lia|].
    now destruct older. }
  rewrite (Hs olderInsights), (Hs olderQuestions) by lia.
  reflexivity.
Qed.

Lemma prompt_forgets_older_history_witness :
  exists s,
    buildLlamaPrompt "why?"
      (recordOf (mkMemory ["A"] [] [] ["q2"; "q3"; "q4"] ["i2"; "i3"] 1 2)) = Ok s /\
    buildLlamaPrompt "why?"
      (recordOf (mkMemory ["A"] [] [] ["q0"; "q1"; "q2"; "q3"; "q4"] ["i1"; "i2"; "i3"] 1 2))
      = Ok s.
Proof.
  apply (prompt_forgets_older_history "why?"
           (mkMemory ["A"] [] [] ["q2"; "q3"; "q4"] ["i2"; "i3"] 1 2)
           ["q0"; "q1"] ["i1"]); cbn; lia.
Defined.

(** X17.  [buildUserContext] on a record of the schema answers "No prior
    context available" exactly when the risk factors, the conditions, the
    interests and the insights are all empty; the recent questions play no
    part. *)
Theorem no_prior_context_iff_nothing_known (m : Memory) :
  buildUserContext (recordOf m) = Ok "No prior context available"%string <->
  riskFactors m = [] /\ conditions m = [] /\ interests m = [] /\ keyInsights m = [].
Proof.
  unfold buildUserContext, joined, joinedLast, recordOf.
  cbn [member2 getProp lookup String.eqb Ascii.eqb Bool.eqb obind].
  rewrite !sliceLast_strings. cbn [obind]. rewrite !join_strings. cbn [obind].
  rewrite !pushIf_strings. cbn [obind app].
  rewrite !pushIf_strings. cbn [obind].
  rewrite !pushIf_strings. cbn [obind].
  rewrite !pushIf_strings. cbn [obind].
  destruct (riskFactors m) as [|r rs]; destruct (conditions m) as [|c cs];
    destruct (interests m) as [|i ins]; destruct (keyInsights m) as [|k ks];
    cbn [sectionIf app]; (split; [intros H|intros (H1 & H2 & H3 & H4)]);
    try discriminate; try (repeat split; reflexivity); try reflexivity;
    exfalso; cbn in H; discriminate H.
Qed.

(** Interests alone make a context; questions alone make none. *)
Example interests_alone_are_a_context :
  buildUserContext (recordOf (mkMemory [] [] ["I"] [] [] 1 2)) = Ok "Interests: I"%string /\
  buildUserContext (recordOf (mkMemory [] [] [] ["Q1"] [] 1 2))
  = Ok "No prior context available"%string.
Proof. split; reflexivity. Qed.

(** ** Routes *)

Lemma ebind_returned {A B} (m : E A) (f : A -> E B) (e e' : Edge) (b : B) :
  ebind m f e = (Returned b, e') ->
  exists a e1, m e = (Returned a, e1) /\ f a e1 = (Returned b, e').
Proof.
  unfold ebind. destruct (m e) as [[a|t|] e1]; try discriminate. eauto.
Qed.

Lemma In_setHeader_same (name v : string) (hs : list (string * string)) :
  In (name, v) (setHeader name v hs).
Proof.
  induction hs as [|[n x] rest IH]; cbn [setHeader]; [now left|].
  destruct (n =? name)%string; [now left|now right].
Qed.

Lemma In_setHeader_other (name v name' v' : string) (hs : list (string * string)) :
  name <> name' -> In (name, v) hs -> In (name, v) (setHeader name' v' hs).
Proof.
  intros Hne. induction hs as [|[n x] rest IH]; cbn [setHeader]; [contradiction|].
  intros [[= -> ->]|Hin].
  - apply String.eqb_neq in Hne. rewrite Hne. now left.
  - destruct (n =? name')%string; right; auto.
Qed.

Lemma withCORS_headers (r : EdgeResponse) :
  Forall (fun kv => In kv (headers (withCORS r))) getCORSHeaders.
Proof.
  unfold withCORS, getCORSHeaders. cbn [headers fold_left fst snd].
  repeat constructor.
  - apply In_setHeader_other; [discriminate|].
    apply In_setHeader_other; [discriminate|]. apply In_setHeader_same.
  - apply In_setHeader_other; [discriminate|]. apply In_setHeader_same.
  - apply In_setHeader_same.
Qed.

(** X18.  Every response of the worker carries the three CORS headers,
    whatever the route, the request and the state of the durable objects:
    the answers of the handlers, the 404 and the 500 alike. *)
Theorem every_response_carries_cors
  (nativeMessage : exn -> string) (doFetch : Request -> M Response)
  (request : EdgeRequest) (e e' : Edge) (resp : EdgeResponse) :
  fetch nativeMessage doFetch request e = (Returned resp, e') ->
  Forall (fun kv => In kv (headers resp)) getCORSHeaders.
Proof.
  unfold fetch. destruct (verb request =? "OPTIONS")%string.
  - intros [= <- _]. cbn [headers]. apply Forall_forall. auto.
  - assert (Hwrap : forall (h : E EdgeResponse) e0 e1 r,
              ebind h (fun r => eret (withCORS r)) e0 = (Returned r, e1) ->
              Forall (fun kv => In kv (headers r)) getCORSHeaders).
    { intros h e0 e1 r H. apply ebind_returned in H.
      destruct H as (a & e2 & _ & H). injection H as <- _. apply withCORS_headers. }
    unfold etry.
    match goal with |- context [match ?b with _ => _ end] =>
      destruct b as [[r|t|] e1] eqn:Eb end.
    + intros [= <- <-].
      destruct (_ && _); [exact (Hwrap _ _ _ _ Eb)|].
      destruct (_ && _); [exact (Hwrap _ _ _ _ Eb)|].
      destruct (_ && _); [exact (Hwrap _ _ _ _ Eb)|].
      destruct (_ && _); [exact (Hwrap _ _ _ _ Eb)|].
      injection Eb as <- _. apply withCORS_headers.
    + intros [= <- _]. apply withCORS_headers.
    + discriminate.
Qed.

Lemma every_response_carries_cors_witness :
  exists resp e',
    edgeFetch (fun _ => "message"%string)
      (mkEdgeRequest "/risk" "POST" (JsonText (Obj [])) None)
      (mkEdge (fun _ => sampleWorld) (fun _ => None) 0 0 []) = (Returned resp, e') /\
    code resp = 500 /\
    Forall (fun kv => In kv (headers resp)) getCORSHeaders.
Proof.
  eexists _, _. split; [reflexivity|]. split; [reflexivity|].
  apply (every_response_carries_cors (fun _ => "message"%string) UserContextDOFetch.fetch
           (mkEdgeRequest "/risk" "POST" (JsonText (Obj [])) None)
           (mkEdge (fun _ => sampleWorld) (fun _ => None) 0 0 []) _ _ eq_refl).
Defined.

(** X19.  The worker never throws: what a handler throws is logged under
    "Error:" and answered with a 500. *)
Theorem worker_never_throws
  (nativeMessage : exn -> string) (doFetch : Request -> M Response)
  (request : EdgeRequest) (e : Edge) (t : thrown) :
  fst (fetch nativeMessage doFetch request e) <> Raised t.
Proof.
  unfold fetch. destruct (verb request =? "OPTIONS")%string; [discriminate|].
  unfold etry.
  match goal with |- context [match ?b with _ => _ end] =>
    destruct b as [[r|t'|] e1] end; cbn [fst]; discriminate.
Qed.

(** ** One identity at a time *)

Section Quiet.
Variable nativeMessage : exn -> string.
Variable doFetch : Request -> M Response.
Variable n : string.

Lemma quiet_ebind {A B} (m : E A) (f : A -> E B) (e : Edge) :
  quietAt n m e ->
  (forall a e1, m e = (Returned a, e1) -> quietAt n (f a) e1) ->
  quietAt n (ebind m f) e.
Proof.
  unfold quietAt, ebind. intros Hm Hf.
  destruct (m e) as [[a|t|] e1] eqn:Em; cbn [snd] in *; auto.
  rewrite (Hf a e1 eq_refl). exact Hm.
Qed.

Lemma quiet_elift {A} (o : outcome A) (e : Edge) : quietAt n (elift o) e.
Proof. unfold quietAt, elift. now destruct o. Qed.

Lemma elift_returned {A} (o : outcome A) (e e1 : Edge) (a : A) :
  elift o e = (Returned a, e1) -> o = Ok a /\ e1 = e.
Proof. unfold elift. destruct o; try discriminate. now intros [= -> ->]. Qed.

Lemma quiet_etry {A} (body : E A) (handler : thrown -> E A) (e : Edge) :
  quietAt n body e ->
  (forall t e1, body e = (Raised t, e1) -> quietAt n (handler t) e1) ->
  quietAt n (etry body handler) e.
Proof.
  unfold quietAt, etry. intros Hb Hh.
  destruct (body e) as [[a|t|] e1] eqn:Eb; cbn [snd] in *; auto.
  rewrite (Hh t e1 eq_refl). exact Hb.
Qed.

Lemma quiet_stubFetch (name : string) (request : Request) (e : Edge) :
  n <> name -> quietAt n (stubFetch doFetch name request) e.
Proof.
  intros Hne. unfold quietAt, stubFetch. apply String.eqb_neq in Hne.
  destruct (doFetch request (objects e name)) as [[r|x|] w'];
    cbn [snd objects withObject]; now rewrite Hne.
Qed.

Lemma quiet_generateMedicalInsight (question memory : value) (e : Edge) :
  quietAt n (generateMedicalInsight question memory) e.
Proof.
  unfold generateMedicalInsight. apply quiet_etry.
  - apply quiet_ebind; [apply quiet_elift|]. intros prompt e1 _.
    apply quiet_ebind.
    + unfold quietAt, AI_run. now destruct (aiRun e1 (aiCalls e1)).
    + intros response e2 _. apply quiet_ebind; [apply quiet_elift|].
      intros text e3 _. reflexivity.
  - intros t e1 _. apply quiet_ebind; [reflexivity|]. intros [] e2 _.
    apply quiet_ebind; [apply quiet_elift|]. intros text e3 _. reflexivity.
Qed.

Lemma idFromName_ok (userId : value) (name : string) :
  idFromName userId = Ok name -> userId = Str name.
Proof. destruct userId; try discriminate. now intros [= ->]. Qed.

Lemma userId_of_body (request : EdgeRequest) (parsed userId : value) (name : string) :
  parseJson nativeMessage (content request) = Ok parsed ->
  getProp parsed "userId" = Ok userId ->
  idFromName userId = Ok name ->
  namedBy request name \/ exists x, content request = ErrorJson x.
Proof.
  intros Hp Hg Hid. apply idFromName_ok in Hid. subst userId.
  destruct (content request) as [v|x|s|] eqn:Ec; try discriminate.
  - left. right. injection Hp as ->.
    destruct parsed as [| | | | | |ps]; try discriminate.
    exists ps. split; [exact Ec|]. cbn [getProp] in Hg.
    destruct (lookup "userId" ps); [congruence|discriminate].
  - right. eauto.
Qed.

Lemma quiet_handleRisk (request : EdgeRequest) (e : Edge) :
  (forall u, namedBy request u -> n <> u) ->
  quietAt n (handleRisk nativeMessage doFetch request) e.
Proof.
  intros Hn. unfold handleRisk.
  apply quiet_ebind; [apply quiet_elift|]. intros parsed e1 H1.
  apply elift_returned in H1. destruct H1 as [Hp _].
  apply quiet_ebind; [apply quiet_elift|]. intros userId e2 H2.
  apply elift_returned in H2. destruct H2 as [Hu _].
  apply quiet_ebind; [apply quiet_elift|]. intros rf e3 _.
  apply quiet_ebind; [apply quiet_elift|]. intros cs e4 _.
  destruct (negb (truthy userId)); [reflexivity|].
  apply quiet_ebind; [apply quiet_elift|]. intros name e5 H5.
  apply elift_returned in H5. destruct H5 as [Hid _].
  assert (Hne : n <> name).
  { destruct (userId_of_body request parsed userId name Hp Hu Hid) as [Hb|(x & Hx)];
      [now apply Hn|].
    rewrite Hx in Hp. injection Hp as <-. cbn in Hu. injection Hu as <-.
    discriminate. }
  apply quiet_ebind; [now apply quiet_stubFetch|]. intros res e6 _.
  apply quiet_ebind; [apply quiet_elift|]. intros um e7 _.
  apply quiet_ebind; [apply quiet_elift|]. intros profile e8 _. reflexivity.
Qed.

Lemma quiet_handleChat (request : EdgeRequest) (e : Edge) :
  (forall u, namedBy request u -> n <> u) ->
  quietAt n (handleChat nativeMessage doFetch request) e.
Proof.
  intros Hn. unfold handleChat.
  apply quiet_ebind; [apply quiet_elift|]. intros parsed e1 H1.
  apply elift_returned in H1. destruct H1 as [Hp _].
  apply quiet_ebind; [apply quiet_elift|]. intros userId e2 H2.
  apply elift_returned in H2. destruct H2 as [Hu _].
  apply quiet_ebind; [apply quiet_elift|]. intros message e3 _.
  destruct (negb (truthy userId) || negb (truthy message)); [reflexivity|].
  apply quiet_ebind; [apply quiet_elift|]. intros name e5 H5.
  apply elift_returned in H5. destruct H5 as [Hid _].
  assert (Hne : n <> name).
  { destruct (userId_of_body request parsed userId name Hp Hu Hid) as [Hb|(x & Hx)];
      [now apply Hn|].
    rewrite Hx in Hp. injection Hp as <-. cbn in Hu. injection Hu as <-.
    discriminate. }
  apply quiet_ebind; [now apply quiet_stubFetch|]. intros memRes e6 _.
  apply quiet_ebind; [apply quiet_elift|]. intros memory e7 _.
  apply quiet_ebind; [apply quiet_elift|]. intros asked e8 _.
  apply quiet_ebind; [now apply quiet_stubFetch|]. intros updateRes e9 _.
  apply quiet_ebind; [apply quiet_elift|]. intros um e10 _.
  apply quiet_ebind; [apply quiet_generateMedicalInsight|]. intros text e11 _.
  apply quiet_ebind; [apply quiet_elift|]. intros insights e12 _.
  apply quiet_ebind; [apply quiet_elift|]. intros short e13 _.
  apply quiet_ebind; [now apply quiet_stubFetch|]. intros r3 e14 _.
  apply quiet_ebind; [apply quiet_elift|]. intros risks e15 _.
  apply quiet_ebind; [apply quiet_elift|]. intros conds e16 _. reflexivity.
Qed.

Lemma quiet_handleGetContext (request : EdgeRequest) (e : Edge) :
  (forall u, namedBy request u -> n <> u) ->
  quietAt n (handleGetContext nativeMessage doFetch request) e.
Proof.
  intros Hn. unfold handleGetContext.
  destruct (userIdParam request) as [[|c u]|] eqn:Eu; try reflexivity.
  assert (Hne : n <> String c u) by (apply Hn; now left).
  apply quiet_ebind; [now apply quiet_stubFetch|]. intros res e1 _.
  apply quiet_ebind; [apply quiet_elift|]. intros memory e2 _. reflexivity.
Qed.

Lemma quiet_fetch (request : EdgeRequest) (e : Edge) :
  (forall u, namedBy request u -> n <> u) ->
  quietAt n (fetch nativeMessage doFetch request) e.
Proof.
  intros Hn. unfold fetch.
  destruct (verb request =? "OPTIONS")%string; [reflexivity|].
  apply quiet_etry.
  - destruct (_ && _).
    { apply quiet_ebind; [now apply quiet_handleChat|]. reflexivity. }
    destruct (_ && _).
    { apply quiet_ebind; [now apply quiet_handleRisk|]. reflexivity. }
    destruct (_ && _).
    { apply quiet_ebind; [now apply quiet_handleGetContext|]. reflexivity. }
    destruct (_ && _).
    { apply quiet_ebind; [reflexivity|]. reflexivity. }
    reflexivity.
  - intros t e1 _. apply quiet_ebind; reflexivity.
Qed.

End Quiet.

(** X20.  A request touches the durable object of its own [userId] and no
    other: whatever the route and whatever the outcome, the object of every
    name that is not the [userId] of the request (of its query or of its JSON
    body) is left exactly as it was. *)
Theorem request_leaves_other_identities_alone
  (nativeMessage : exn -> string) (doFetch : Request -> M Response)
  (request : EdgeRequest) (e : Edge) (n : string) :
  (forall u, namedBy request u -> n <> u) ->
  objects (snd (fetch nativeMessage doFetch request e)) n = objects e n.
Proof. intros Hn. now apply quiet_fetch. Qed.

Lemma request_leaves_other_identities_alone_witness :
  objects
    (snd (edgeFetch (fun _ => "message"%string)
            (mkEdgeRequest "/risk" "POST"
               (JsonText (Obj [("userId", Str "u1"); ("riskFactors", strings ["X"])])) None)
            (mkEdge (fun _ => sampleWorld) (fun _ => None) 0 0 [])))
    "u2" = sampleWorld.
Proof.
  apply (request_leaves_other_identities_alone (fun _ => "message"%string)
           UserContextDOFetch.fetch
           (mkEdgeRequest "/risk" "POST"
              (JsonText (Obj [("userId", Str "u1"); ("riskFactors", strings ["X"])])) None)
           (mkEdge (fun _ => sampleWorld) (fun _ => None) 0 0 []) "u2").
  intros u [Hq|(ps & Hc & Hl)]; [discriminate|].
  injection Hc as <-. cbn in Hl. injection Hl as <-. discriminate.
Defined.

(** ** The handlers over the first revision of the store *)

Module WorkerFacts.

Lemma isJson_strings (l : list string) : isJson (strings l) = true.
Proof. unfold strings. cbn [isJson]. induction l; cbn; auto. Qed.

Lemma isJson_recordOf (m : Memory) : isJson (recordOf m) = true.
Proof. unfold recordOf. cbn [isJson forallb snd]. now rewrite !isJson_strings. Qed.

Lemma jsonValue_strings (l : list string) : jsonValue (strings l) = strings l.
Proof. apply jsonValue_id, isJson_strings. Qed.

Lemma jsonValue_recordOf (m : Memory) : jsonValue (recordOf m) = recordOf m.
Proof. apply jsonValue_id, isJson_recordOf. Qed.

Lemma jsonItems_strings (l : list string) :
  map (jsonItem jsonValue) (map Str l) = map Str l.
Proof. induction l as [|a l IH]; cbn; [reflexivity | now rewrite IH]. Qed.

(** The three patches of the worker, merged into a record of the schema. *)
Lemma merge_profile (m : Memory) (risks conds : list string) :
  deepMerge (recordOf m)
    (Obj [("profile", Obj [("riskFactors", strings risks); ("conditions", strings conds)])])
  = Ok (recordOf (setProfile risks conds m)).
Proof.
  rewrite deepMerge_unfold, (jsonClone_json _ (isJson_recordOf m)).
  unfold recordOf, strings.
  cbn [obind forIn mergeKey getProp lookup String.eqb Ascii.eqb Bool.eqb].
  rewrite deepMerge_unfold. unfold jsonClone. cbn [jsonValue jsonProps].
  rewrite !jsonItems_strings. reflexivity.
Qed.

Lemma merge_questions (m : Memory) (asked : list string) :
  deepMerge (recordOf m)
    (Obj [("conversation", Obj [("recentQuestions", strings asked)])])
  = Ok (recordOf (setQuestions asked m)).
Proof.
  rewrite deepMerge_unfold, (jsonClone_json _ (isJson_recordOf m)).
  unfold recordOf, strings.
  cbn [obind forIn mergeKey getProp lookup String.eqb Ascii.eqb Bool.eqb].
  rewrite deepMerge_unfold. unfold jsonClone. cbn [jsonValue jsonProps].
  rewrite !jsonItems_strings. reflexivity.
Qed.

Lemma merge_insights (m : Memory) (insights : list string) :
  deepMerge (recordOf m)
    (Obj [("conversation", Obj [("keyInsights", strings insights)])])
  = Ok (recordOf (setInsights insights m)).
Proof.
  rewrite deepMerge_unfold, (jsonClone_json _ (isJson_recordOf m)).
  unfold recordOf, strings.
  cbn [obind forIn mergeKey getProp lookup String.eqb Ascii.eqb Bool.eqb].
  rewrite deepMerge_unfold. unfold jsonClone. cbn [jsonValue jsonProps].
  rewrite !jsonItems_strings. reflexivity.
Qed.

(** POST /memory on an object that holds a record of the schema, with a
    patch whose merge is again such a record. *)
Lemma post_record (w : World) (m m' : Memory) (patch : value) :
  storageApi w = true -> ioOk 2 w = true ->
  stored w = Some (recordOf m) -> isJson patch = true ->
  deepMerge (recordOf m) patch = Ok (recordOf m') ->
  UserContextDOFetch.fetch (mkRequest "/memory" "POST" (JSON_stringify patch)) w =
  (Ok (mkResponse 200 (Some "application/json")
         (JsonText (recordOf (touch (now (afterIo w)) m')))),
   withStored (Some (recordOf (touch (now (afterIo w)) m'))) (afterIo (afterIo w))).
Proof.
  intros Hapi Hio Hst Hj Hm.
  destruct (ioOk_next 1 w Hio) as [Hio1 Hio'].
  destruct (ioOk_next 0 _ Hio') as [Hio2 _].
  pose proof (UserContextDOFacts.getMemory_existing w (recordOf m) Hapi Hio1 Hst eq_refl)
    as Hget.
  pose proof (UserContextDOFacts.updateMemory_run patch (recordOf m) _
                [("createdAt", Num (createdAt m')); ("lastActive", Num (lastActive m'))]
                w (afterIo w) Hget Hm eq_refl) as Hrun.
  rewrite storageApi_afterIo in Hrun. specialize (Hrun Hapi Hio2). cbv zeta in Hrun.
  change (Obj (assign "meta" _ _)) with (recordOf (touch (now (afterIo w)) m')) in Hrun.
  unfold UserContextDOFetch.fetch, fetchWith, tryCatch.
  cbn [pathname method String.eqb Ascii.eqb Bool.eqb andb].
  unfold bind at 1. unfold lift, request_json. cbn [payload].
  assert (Hs : JSON_stringify patch = JsonText patch).
  { unfold JSON_stringify. rewrite (jsonValue_id _ Hj).
    destruct patch; try reflexivity; discriminate. }
  rewrite Hs. unfold bind at 1. rewrite Hrun. unfold ret, jsonResponse, JSON_stringify.
  now rewrite jsonValue_recordOf.
Qed.

Lemma get_record (w : World) (m : Memory) :
  storageApi w = true -> nextFails w = false -> stored w = Some (recordOf m) ->
  UserContextDOFetch.fetch (mkRequest "/memory" "GET" NoBody) w =
  (Ok (mkResponse 200 (Some "application/json") (JsonText (recordOf m))), afterIo w).
Proof.
  intros Hapi Hio Hst.
  unfold UserContextDOFetch.fetch, fetchWith, tryCatch.
  cbn [pathname method String.eqb Ascii.eqb Bool.eqb andb]. unfold bind.
  rewrite (UserContextDOFacts.getMemory_existing w (recordOf m) Hapi Hio Hst eq_refl).
  unfold ret, jsonResponse, JSON_stringify. now rewrite jsonValue_recordOf.
Qed.

(** With a failing read, GET and POST alike are answered 500. *)
Lemma get_fails (w : World) (b : text) :
  storageApi w = true -> nextFails w = true ->
  UserContextDOFetch.fetch (mkRequest "/memory" "GET" b) w =
  (Ok (mkResponse 500 (Some "application/json") (ErrorJson StorageError)), afterIo w).
Proof.
  intros Hapi Hio.
  unfold UserContextDOFetch.fetch, fetchWith, tryCatch,
    UserContextDO.getMemory, bind, storage_get.
  cbn [pathname method payload String.eqb Ascii.eqb Bool.eqb andb].
  now rewrite Hapi, Hio.
Qed.

Lemma post_fails (w : World) (p : value) :
  storageApi w = true -> nextFails w = true ->
  UserContextDOFetch.fetch (mkRequest "/memory" "POST" (JsonText p)) w =
  (Ok (mkResponse 500 (Some "application/json") (ErrorJson StorageError)), afterIo w).
Proof.
  intros Hapi Hio.
  unfold UserContextDOFetch.fetch, fetchWith, tryCatch,
    UserContextDO.updateMemory, UserContextDO.getMemory, bind, lift, request_json,
    storage_get.
  cbn [pathname method payload String.eqb Ascii.eqb Bool.eqb andb].
  now rewrite Hapi, Hio.
Qed.

Lemma post_profile (w : World) (m : Memory) (risks conds : list string) :
  storageApi w = true -> ioOk 2 w = true -> stored w = Some (recordOf m) ->
  let m' := touch (now (afterIo w)) (setProfile risks conds m) in
  UserContextDOFetch.fetch
    (mkRequest "/memory" "POST"
       (JSON_stringify
          (Obj [("profile", Obj [("riskFactors", strings risks);
                                 ("conditions", strings conds)])]))) w =
  (Ok (mkResponse 200 (Some "application/json") (JsonText (recordOf m'))),
   withStored (Some (recordOf m')) (afterIo (afterIo w))).
Proof.
  intros Hapi Hio Hst m'.
  apply (post_record w m (setProfile risks conds m) _ Hapi Hio Hst).
  - cbn [isJson forallb snd]. now rewrite !isJson_strings.
  - apply merge_profile.
Qed.

Lemma post_questions (w : World) (m : Memory) (asked : list string) :
  storageApi w = true -> ioOk 2 w = true -> stored w = Some (recordOf m) ->
  let m' := touch (now (afterIo w)) (setQuestions asked m) in
  UserContextDOFetch.fetch
    (mkRequest "/memory" "POST"
       (JSON_stringify
          (Obj [("conversation", Obj [("recentQuestions", strings asked)])]))) w =
  (Ok (mkResponse 200 (Some "application/json") (JsonText (recordOf m'))),
   withStored (Some (recordOf m')) (afterIo (afterIo w))).
Proof.
  intros Hapi Hio Hst m'.
  apply (post_record w m (setQuestions asked m) _ Hapi Hio Hst).
  - cbn [isJson forallb snd]. now rewrite !isJson_strings.
  - apply merge_questions.
Qed.

Lemma post_insights (w : World) (m : Memory) (insights : list string) :
  storageApi w = true -> ioOk 2 w = true -> stored w = Some (recordOf m) ->
  let m' := touch (now (afterIo w)) (setInsights insights m) in
  UserContextDOFetch.fetch
    (mkRequest "/memory" "POST"
       (JSON_stringify
          (Obj [("conversation", Obj [("keyInsights", strings insights)])]))) w =
  (Ok (mkResponse 200 (Some "application/json") (JsonText (recordOf m'))),
   withStored (Some (recordOf m')) (afterIo (afterIo w))).
Proof.
  intros Hapi Hio Hst m'.
  apply (post_record w m (setInsights insights m) _ Hapi Hio Hst).
  - cbn [isJson forallb snd]. now rewrite !isJson_strings.
  - apply merge_insights.
Qed.

Lemma truthy_name (u : string) : u <> ""%string -> truthy (Str u) = true.
Proof. intros H. cbn. apply negb_true_iff. now apply String.eqb_neq. Qed.

Lemma field_or_empty (k : string) (l : option (list string)) (rest : props) :
  lookup k rest = None -> inherited k = false ->
  getProp (Obj (optionalField k l ++ rest)) k
  = Ok match l with Some items => strings items | None => Undefined end.
Proof.
  intros Hr Hi. destruct l as [items|]; cbn [optionalField app getProp lookup].
  - now rewrite String.eqb_refl.
  - now rewrite Hr, Hi.
Qed.

Lemma objects_withObject (name : string) (w : World) (e : Edge) :
  objects (withObject name w e) name = w.
Proof. cbn. now rewrite String.eqb_refl. Qed.


Lemma ebind_run {A B} (m : E A) (f : A -> E B) (e e1 : Edge) (a : A) :
  m e = (Returned a, e1) -> ebind m f e = f a e1.
Proof. unfold ebind. now intros ->. Qed.

Lemma stub_run (name : string) (request : Request) (e : Edge) (resp : Response) (w' : World) :
  UserContextDOFetch.fetch request (objects e name) = (Ok resp, w') ->
  stubFetch UserContextDOFetch.fetch name request e = (Returned resp, withObject name w' e).
Proof. unfold stubFetch. now intros ->. Qed.

End WorkerFacts.

Module HandlerFacts.

Lemma fetch_risk (nativeMessage : exn -> string) (doFetch : Request -> M Response)
  (request : EdgeRequest) (e e' : Edge) (r : EdgeResponse) :
  verb request = "POST"%string -> route request = "/risk"%string ->
  handleRisk nativeMessage doFetch request e = (Returned r, e') ->
  fetch nativeMessage doFetch request e = (Returned (withCORS r), e').
Proof.
  intros Hv Hr Hh. unfold fetch, etry, ebind. rewrite Hv, Hr.
  cbn [String.eqb Ascii.eqb Bool.eqb andb]. now rewrite Hh.
Qed.

Lemma fetch_chat (nativeMessage : exn -> string) (doFetch : Request -> M Response)
  (request : EdgeRequest) (e e' : Edge) (r : EdgeResponse) :
  verb request = "POST"%string -> route request = "/chat"%string ->
  handleChat nativeMessage doFetch request e = (Returned r, e') ->
  fetch nativeMessage doFetch request e = (Returned (withCORS r), e').
Proof.
  intros Hv Hr Hh. unfold fetch, etry, ebind. rewrite Hv, Hr.
  cbn [String.eqb Ascii.eqb Bool.eqb andb]. now rewrite Hh.
Qed.

(** [handleRisk] on an object that holds a record of the schema. *)
Lemma risk_run
  (nativeMessage : exn -> string) (e : Edge) (u : string) (m : Memory)
  (risks conds : option (list string)) :
  u <> ""%string ->
  storageApi (objects e u) = true -> ioOk 2 (objects e u) = true ->
  stored (objects e u) = Some (recordOf m) ->
  let m' := touch (now (afterIo (objects e u)))
              (setProfile (orNone risks) (orNone conds) m) in
  handleRisk nativeMessage UserContextDOFetch.fetch
      (mkEdgeRequest "/risk" "POST" (JsonText (riskBody u risks conds)) None) e
  = (Returned (okJson (Obj [("userId", Str u); ("message", Str "Updated");
                            ("profile", Obj [("riskFactors", strings (orNone risks));
                                             ("conditions", strings (orNone conds));
                                             ("interests", strings (interests m))])])),
     withObject u (withStored (Some (recordOf m')) (afterIo (afterIo (objects e u)))) e).
Proof.
  intros Hu Hapi Hio Hst m'.
  pose proof (WorkerFacts.post_profile (objects e u) m (orNone risks) (orNone conds)
                Hapi Hio Hst) as Hpost.
  cbv zeta in Hpost. fold m' in Hpost.
  apply WorkerFacts.stub_run in Hpost.
  pose proof (WorkerFacts.truthy_name u Hu) as Ht.
  unfold handleRisk, postMemory.
  destruct risks as [rs|], conds as [cs|];
    cbn [orNone] in Hpost |- *;
    unfold ebind, elift, eret;
    cbn [content parseJson riskBody optionalField app getProp lookup
         String.eqb Ascii.eqb Bool.eqb inherited existsb orb];
    rewrite Ht; cbn [negb idFromName orEmpty truthy];
    change (orEmpty Undefined) with (strings []);
    change (Arr []) with (strings []);
    repeat match goal with
           | |- context [orEmpty (strings ?l)] =>
               change (orEmpty (strings l)) with (strings l)
           end;
    rewrite Hpost; reflexivity.
Qed.

End HandlerFacts.

(** X21.  POST /risk replaces both lists of the profile, and a list that the
    body leaves out is emptied: on an object that holds a record of the
    schema, with the storage working, the answer is 200 with the new
    profile, and the stored record has [riskFactors] and [conditions] as the
    body gave them, or empty where it gave none; the interests, the
    conversation and [createdAt] are as before. *)
Theorem risk_replaces_both_lists
  (nativeMessage : exn -> string) (e : Edge) (u : string) (m : Memory)
  (risks conds : option (list string)) :
  u <> ""%string ->
  storageApi (objects e u) = true -> ioOk 2 (objects e u) = true ->
  stored (objects e u) = Some (recordOf m) ->
  let m' := touch (now (afterIo (objects e u)))
              (setProfile (orNone risks) (orNone conds) m) in
  exists r e',
    edgeFetch nativeMessage
      (mkEdgeRequest "/risk" "POST" (JsonText (riskBody u risks conds)) None) e
    = (Returned r, e') /\
    code r = 200 /\
    answer r = JsonText (Obj [("userId", Str u); ("message", Str "Updated");
                              ("profile", Obj [("riskFactors", strings (orNone risks));
                                               ("conditions", strings (orNone conds));
                                               ("interests", strings (interests m))])]) /\
    stored (objects e' u) = Some (recordOf m').
Proof.
  intros Hu Hapi Hio Hst m'.
  eexists _, _. split; [|split; [|split]].
  - apply HandlerFacts.fetch_risk; [reflexivity | reflexivity |].
    apply (HandlerFacts.risk_run nativeMessage e u m risks conds Hu Hapi Hio Hst).
  - reflexivity.
  - cbn [withCORS answer okJson JSON_stringify]. f_equal.
    apply jsonValue_id. cbn [isJson forallb snd]. now rewrite !WorkerFacts.isJson_strings.
  - rewrite WorkerFacts.objects_withObject. reflexivity.
Qed.

Lemma risk_replaces_both_lists_witness :
  exists r e',
    edgeFetch (fun _ => "message"%string)
      (mkEdgeRequest "/risk" "POST" (JsonText (riskBody "u1" (Some ["X"]) None)) None)
      (mkEdge (fun _ => sampleWorld) (fun _ => None) 0 0 [])
    = (Returned r, e') /\
    code r = 200 /\
    answer r = JsonText (Obj [("userId", Str "u1"); ("message", Str "Updated");
                              ("profile", Obj [("riskFactors", strings ["X"]);
                                               ("conditions", strings []);
                                               ("interests", strings [])])]) /\
    stored (objects e' "u1") =
    Some (recordOf (mkMemory ["X"] [] [] ["Q1"] [] 100 210)).
Proof.
  apply (risk_replaces_both_lists (fun _ => "message"%string)
           (mkEdge (fun _ => sampleWorld) (fun _ => None) 0 0 []) "u1"
           (mkMemory ["A"] ["B"] [] ["Q1"] [] 100 100) (Some ["X"]) None);
    [discriminate | reflexivity | reflexivity | reflexivity].
Defined.

(** ** The insight of the model *)

Module InsightFacts.

Lemma listed_risks (m : Memory) (label otherwise : string) :
  listed (recordOf m) "profile" "riskFactors" label otherwise
  = Ok (listedText (riskFactors m) label otherwise).
Proof.
  unfold listed, joined, recordOf.
  cbn [member2 getProp lookup String.eqb Ascii.eqb Bool.eqb obind].
  rewrite join_strings. destruct (riskFactors m); reflexivity.
Qed.

Lemma listed_conditions (m : Memory) (label otherwise : string) :
  listed (recordOf m) "profile" "conditions" label otherwise
  = Ok (listedText (conditions m) label otherwise).
Proof.
  unfold listed, joined, recordOf.
  cbn [member2 getProp lookup String.eqb Ascii.eqb Bool.eqb obind].
  rewrite join_strings. destruct (conditions m); reflexivity.
Qed.

Lemma buildAIPrompt_returns (question : string) (m : Memory) :
  exists prompt, buildAIPrompt (Str question) (recordOf m) = Ok prompt.
Proof.
  unfold buildAIPrompt. rewrite listed_risks, listed_conditions.
  cbn [obind]. unfold joinedLast, recordOf.
  cbn [optional2 member2 getProp lookup String.eqb Ascii.eqb Bool.eqb obind].
  rewrite sliceLast_strings. cbn [obind]. rewrite join_strings.
  destruct (recentQuestions m); cbn; eexists; reflexivity.
Qed.

Lemma insightFallback_recordOf (question : string) (m : Memory) :
  insightFallback (Str question) (recordOf m) = Ok (fallbackText question m).
Proof.
  unfold insightFallback. cbn [templateText obind].
  now rewrite listed_risks, listed_conditions.
Qed.

(** The model rejects, or resolves to [null] or [undefined]. *)
Lemma insight_of_failure (question : string) (m : Memory) (e : Edge) :
  aiRun e (aiCalls e) = None \/ aiRun e (aiCalls e) = Some Null
  \/ aiRun e (aiCalls e) = Some Undefined ->
  generateMedicalInsight (Str question) (recordOf m) e =
  (Returned (Str (fallbackText question m)),
   afterError "AI generation error:" (afterAi e)).
Proof.
  intros Hai. destruct (buildAIPrompt_returns question m) as [prompt Hp].
  unfold generateMedicalInsight, etry, ebind, AI_run, console_error.
  rewrite Hp, insightFallback_recordOf. cbn [elift].
  destruct Hai as [-> | [-> | ->]]; reflexivity.
Qed.

(** The model resolves to an object with a text under [response]. *)
Lemma insight_of_answer (question : string) (m : Memory) (e : Edge)
  (ps : props) (text : string) :
  aiRun e (aiCalls e) = Some (Obj ps) -> lookup "response" ps = Some (Str text) ->
  generateMedicalInsight (Str question) (recordOf m) e =
  (Returned (Str (orApology text)), afterAi e).
Proof.
  intros Hai Hl. destruct (buildAIPrompt_returns question m) as [prompt Hp].
  unfold generateMedicalInsight, etry, ebind, AI_run, orApology.
  rewrite Hp. cbn [elift]. rewrite Hai. cbn [getProp]. rewrite Hl.
  cbn [elift eret truthy]. destruct (text =? "")%string; reflexivity.
Qed.

End InsightFacts.

(** X22.  On a record of the schema [generateMedicalInsight] never throws,
    whatever the model does: the prompt can be built, and what the call of
    the model or the reading of its response throws is caught. *)
Theorem insight_never_throws_on_a_record
  (question : string) (m : Memory) (e : Edge) (t : thrown) :
  fst (generateMedicalInsight (Str question) (recordOf m) e) <> Raised t.
Proof.
  destruct (InsightFacts.buildAIPrompt_returns question m) as [prompt Hp].
  unfold generateMedicalInsight, etry, ebind, AI_run, console_error.
  rewrite Hp, InsightFacts.insightFallback_recordOf. cbn [elift].
  destruct (aiRun e (aiCalls e)) as [v|]; [|discriminate].
  destruct (getProp v "response") as [x| |]; cbn [elift eret fst]; discriminate.
Qed.

(** X23.  When the model rejects, or resolves to [null] or [undefined], the
    insight for a record of the schema is the fallback text, which quotes the
    question and lists the risk factors and the conditions of the record;
    the failure is logged under "AI generation error:" and the call of the
    model is counted. *)
Theorem failed_model_gives_the_fallback_text
  (question : string) (m : Memory) (e : Edge) :
  aiRun e (aiCalls e) = None \/ aiRun e (aiCalls e) = Some Null
  \/ aiRun e (aiCalls e) = Some Undefined ->
  generateMedicalInsight (Str question) (recordOf m) e =
  (Returned (Str (fallbackText question m)),
   afterError "AI generation error:" (afterAi e)).
Proof. apply InsightFacts.insight_of_failure. Qed.

Lemma failed_model_gives_the_fallback_text_witness :
  generateMedicalInsight (Str "why?") (recordOf (mkMemory ["A"] [] [] [] [] 1 2))
    (mkEdge (fun _ => sampleWorld) (fun _ => None) 0 0 []) =
  (Returned (Str (fallbackText "why?" (mkMemory ["A"] [] [] [] [] 1 2))),
   mkEdge (fun _ => sampleWorld) (fun _ => None) 1 0 ["AI generation error:"%string]).
Proof.
  apply (failed_model_gives_the_fallback_text "why?" (mkMemory ["A"] [] [] [] [] 1 2)
           (mkEdge (fun _ => sampleWorld) (fun _ => None) 0 0 [])).
  left. reflexivity.
Defined.

(** ** A chat, end to end *)

Module ChatFacts.

Lemma ebind_ok {A B} (a : A) (f : A -> E B) (e : Edge) :
  ebind (elift (Ok a)) f e = f a e.
Proof. reflexivity. Qed.

Lemma strings_snoc (l : list string) (x : string) :
  Arr (map Str l ++ [Str x]) = strings (l ++ [x]).
Proof. unfold strings. now rewrite map_app. Qed.

Lemma questions_of (m : Memory) :
  (x <~ optional2 (recordOf m) "conversation" "recentQuestions" ;; spreadOrEmpty x)
  = Ok (map Str (recentQuestions m)).
Proof. reflexivity. Qed.

Lemma insights_of (m : Memory) :
  (x <~ optional2 (recordOf m) "conversation" "keyInsights" ;; spreadOrEmpty x)
  = Ok (map Str (keyInsights m)).
Proof. reflexivity. Qed.

(** [handleChat] on an object that holds the record [m] once the first read
    is over.  [first] is the answer to that read and [known] the questions
    that the worker finds in it; [insight] is the text of the model. *)
Lemma chat_run
  (nativeMessage : exn -> string) (e e3 : Edge) (u message insight : string)
  (m : Memory) (first : Response) (memory : value) (known : list string) :
  u <> ""%string -> message <> ""%string ->
  let w1 := afterIo (objects e u) in
  let m1 := touch (now (afterIo w1)) (setQuestions (known ++ [message]) m) in
  let w3 := withStored (Some (recordOf m1)) (afterIo (afterIo w1)) in
  let m2 := touch (now (afterIo w3))
              (setInsights (keyInsights m ++ [substring 0 150 insight]) m1) in
  UserContextDOFetch.fetch (mkRequest "/memory" "GET" NoBody) (objects e u)
  = (Ok first, w1) ->
  parseJson nativeMessage (body first) = Ok memory ->
  (x <~ optional2 memory "conversation" "recentQuestions" ;; spreadOrEmpty x)
  = Ok (map Str known) ->
  storageApi w1 = true -> ioOk 4 w1 = true -> stored w1 = Some (recordOf m) ->
  generateMedicalInsight (Str message) (recordOf m1) (withObject u w3 (withObject u w1 e))
  = (Returned (Str insight), e3) ->
  objects e3 u = w3 ->
  handleChat nativeMessage UserContextDOFetch.fetch
    (mkEdgeRequest "/chat" "POST" (JsonText (chatBody u message)) None) e
  = (Returned (okJson (Obj [("userId", Str u); ("userMessage", Str message);
                            ("aiResponse", Str insight);
                            ("context", Obj [("riskFactors", strings (riskFactors m));
                                             ("conditions", strings (conditions m))])])),
     withObject u (withStored (Some (recordOf m2)) (afterIo (afterIo w3))) e3).
Proof.
  intros Hu Hmsg w1 m1 w3 m2 Hfirst Hparse Hknown Hapi1 Hio1 Hst1 Hgen Hobj.
  pose proof (FallbackMore.ioOk_weaken _ _ (FallbackMore.ioOk_weaken _ _ Hio1)) as Hio12.
  destruct (ioOk_next 3 _ Hio1) as [_ Hio2].
  destruct (ioOk_next 2 _ Hio2) as [_ Hio3].
  assert (Hapi3 : storageApi w3 = true).
  { unfold w3. cbn [withStored storageApi]. now rewrite !storageApi_afterIo. }
  assert (Hio32 : ioOk 2 w3 = true) by exact Hio3.
  pose proof (WorkerFacts.truthy_name u Hu) as Htu.
  pose proof (WorkerFacts.truthy_name message Hmsg) as Htm.
  pose proof (WorkerFacts.stub_run u _ e _ _ Hfirst) as Hget.
  pose proof (WorkerFacts.post_questions w1 m (known ++ [message])
                Hapi1 Hio12 Hst1) as Hq.
  cbv zeta in Hq. fold m1 in Hq. fold w3 in Hq.
  rewrite <- (WorkerFacts.objects_withObject u w1 e) in Hq at 1.
  apply WorkerFacts.stub_run in Hq.
  pose proof (WorkerFacts.post_insights w3 m1 (keyInsights m ++ [substring 0 150 insight])
                Hapi3 Hio32 eq_refl) as Hi.
  cbv zeta in Hi. fold m2 in Hi.
  rewrite <- Hobj in Hi at 1.
  apply WorkerFacts.stub_run in Hi.
  unfold handleChat, getMemoryOf, postMemory.
  cbn [content parseJson]. rewrite ebind_ok. cbv beta.
  cbn [chatBody getProp lookup String.eqb Ascii.eqb Bool.eqb inherited existsb orb].
  rewrite !ebind_ok. cbv beta.
  rewrite Htu, Htm. cbn [negb orb idFromName]. rewrite ebind_ok. cbv beta.
  rewrite (WorkerFacts.ebind_run _ _ _ _ _ Hget). cbv beta. rewrite Hparse.
  rewrite ebind_ok. cbv beta.
  rewrite Hknown, ebind_ok. cbv beta. rewrite strings_snoc.
  rewrite (WorkerFacts.ebind_run _ _ _ _ _ Hq). cbv beta. cbn [body parseJson].
  rewrite ebind_ok. cbv beta.
  rewrite (WorkerFacts.ebind_run _ _ _ _ _ Hgen). cbv beta.
  rewrite insights_of, ebind_ok. cbv beta.
  change (keyInsights m1) with (keyInsights m).
  cbn [first150]. rewrite ebind_ok. cbv beta. rewrite strings_snoc.
  rewrite (WorkerFacts.ebind_run _ _ _ _ _ Hi). cbv beta.
  reflexivity.
Qed.

(** The answer to a chat and the record it leaves, from [chat_run]. *)
Lemma chat_answer
  (nativeMessage : exn -> string) (e e3 : Edge) (u message insight : string)
  (m m2 : Memory) (w5 : World) :
  handleChat nativeMessage UserContextDOFetch.fetch
    (mkEdgeRequest "/chat" "POST" (JsonText (chatBody u message)) None) e
  = (Returned (okJson (Obj [("userId", Str u); ("userMessage", Str message);
                            ("aiResponse", Str insight);
                            ("context", Obj [("riskFactors", strings (riskFactors m));
                                             ("conditions", strings (conditions m))])])),
     withObject u (withStored (Some (recordOf m2)) w5) e3) ->
  exists r e',
    edgeFetch nativeMessage
      (mkEdgeRequest "/chat" "POST" (JsonText (chatBody u message)) None) e
    = (Returned r, e') /\
    code r = 200 /\
    answer r = JsonText (Obj [("userId", Str u); ("userMessage", Str message);
                              ("aiResponse", Str insight);
                              ("context", Obj [("riskFactors", strings (riskFactors m));
                                               ("conditions", strings (conditions m))])]) /\
    stored (objects e' u) = Some (recordOf m2).
Proof.
  intros Hrun. eexists _, _. split; [|split; [|split]].
  - apply HandlerFacts.fetch_chat; [reflexivity | reflexivity | exact Hrun].
  - reflexivity.
  - cbn [withCORS answer okJson JSON_stringify]. f_equal.
    apply jsonValue_id. cbn [isJson forallb snd]. now rewrite !WorkerFacts.isJson_strings.
  - rewrite WorkerFacts.objects_withObject. reflexivity.
Qed.

End ChatFacts.

(** X24.  A chat appends the question and an excerpt of the answer to the
    record.  On an object that holds a record of the schema, with the
    storage working and the model answering with a text, POST /chat is
    answered 200 with that text (or the apology, for an empty text) and the
    two lists of the profile; afterwards the stored record has the message
    appended to [recentQuestions] and the first 150 characters of the answer
    appended to [keyInsights], everything else but [lastActive] being as
    before.  Neither list is ever shortened. *)
Theorem chat_appends_question_and_insight
  (nativeMessage : exn -> string) (e : Edge) (u message : string) (m : Memory)
  (ps : props) (text : string) :
  u <> ""%string -> message <> ""%string ->
  storageApi (objects e u) = true -> ioOk 5 (objects e u) = true ->
  stored (objects e u) = Some (recordOf m) ->
  aiRun e (aiCalls e) = Some (Obj ps) -> lookup "response" ps = Some (Str text) ->
  exists r e' t,
    edgeFetch nativeMessage
      (mkEdgeRequest "/chat" "POST" (JsonText (chatBody u message)) None) e
    = (Returned r, e') /\
    code r = 200 /\
    answer r = JsonText (Obj [("userId", Str u); ("userMessage", Str message);
                              ("aiResponse", Str (orApology text));
                              ("context", Obj [("riskFactors", strings (riskFactors m));
                                               ("conditions", strings (conditions m))])]) /\
    stored (objects e' u) =
    Some (recordOf
            (mkMemory (riskFactors m) (conditions m) (interests m)
               (recentQuestions m ++ [message])
               (keyInsights m ++ [substring 0 150 (orApology text)])
               (createdAt m) t)).
Proof.
  intros Hu Hmsg Hapi Hio Hst Hai Hl.
  destruct (ioOk_next 4 _ Hio) as [Hn0 Hio1].
  set (w1 := afterIo (objects e u)) in *.
  set (m1 := touch (now (afterIo w1)) (setQuestions (recentQuestions m ++ [message]) m)).
  set (w3 := withStored (Some (recordOf m1)) (afterIo (afterIo w1))).
  pose proof (InsightFacts.insight_of_answer message m1
                (withObject u w3 (withObject u w1 e)) ps text Hai Hl) as Hgen.
  pose proof (ChatFacts.chat_run nativeMessage e
                (afterAi (withObject u w3 (withObject u w1 e)))
                u message (orApology text) m
                _ (recordOf m) (recentQuestions m) Hu Hmsg
                (WorkerFacts.get_record (objects e u) m Hapi Hn0 Hst) eq_refl
                (ChatFacts.questions_of m)) as Hrun.
  cbv zeta in Hrun. fold w1 m1 w3 in Hrun.
  assert (Hapi1 : storageApi w1 = true) by (unfold w1; now rewrite storageApi_afterIo).
  assert (Hst1 : stored w1 = Some (recordOf m)) by (unfold w1; now rewrite stored_afterIo).
  specialize (Hrun Hapi1 Hio1 Hst1 Hgen (WorkerFacts.objects_withObject u w3 _)).
  destruct (ChatFacts.chat_answer nativeMessage e _ u message _ m _ _ Hrun)
    as (r & e' & Hf & Hc & Ha & Hs).
  exists r, e', (now (afterIo w3)). auto.
Qed.

Lemma chat_appends_question_and_insight_witness :
  exists r e' t,
    edgeFetch (fun _ => "message"%string)
      (mkEdgeRequest "/chat" "POST" (JsonText (chatBody "u1" "Q2")) None)
      (mkEdge (fun _ => sampleWorld)
              (fun _ => Some (Obj [("response", Str "Because.")])) 0 0 [])
    = (Returned r, e') /\
    code r = 200 /\
    answer r = JsonText (Obj [("userId", Str "u1"); ("userMessage", Str "Q2");
                              ("aiResponse", Str "Because.");
                              ("context", Obj [("riskFactors", strings ["A"]);
                                               ("conditions", strings ["B"])])]) /\
    stored (objects e' "u1") =
    Some (recordOf (mkMemory ["A"] ["B"] [] ["Q1"; "Q2"] ["Because."] 100 t)).
Proof.
  apply (chat_appends_question_and_insight (fun _ => "message"%string)
           (mkEdge (fun _ => sampleWorld)
                   (fun _ => Some (Obj [("response", Str "Because.")])) 0 0 [])
           "u1" "Q2" (mkMemory ["A"] ["B"] [] ["Q1"] [] 100 100)
           [("response", Str "Because.")] "Because.");
    [discriminate | discriminate | reflexivity | reflexivity | reflexivity
    | reflexivity | reflexivity].
Defined.



(** X26.  A failed read wipes the question history.  Over the first
    revision, when the read of GET /memory fails and the storage works
    afterwards, the worker takes the 500 of the object for a record without
    questions: POST /chat is answered 200, and the stored record has
    [recentQuestions] replaced by the single new message; the questions from
    before are lost. *)
Theorem failed_read_wipes_the_questions
  (nativeMessage : exn -> string) (e : Edge) (u message : string) (m : Memory)
  (ps : props) (text : string) :
  u <> ""%string -> message <> ""%string ->
  storageApi (objects e u) = true ->
  nextFails (objects e u) = true -> ioOk 4 (afterIo (objects e u)) = true ->
  stored (objects e u) = Some (recordOf m) ->
  aiRun e (aiCalls e) = Some (Obj ps) -> lookup "response" ps = Some (Str text) ->
  exists r e' t,
    edgeFetch nativeMessage
      (mkEdgeRequest "/chat" "POST" (JsonText (chatBody u message)) None) e
    = (Returned r, e') /\
    code r = 200 /\
    stored (objects e' u) =
    Some (recordOf
            (mkMemory (riskFactors m) (conditions m) (interests m)
               [message]
               (keyInsights m ++ [substring 0 150 (orApology text)])
               (createdAt m) t)).
Proof.
  intros Hu Hmsg Hapi Hn0 Hio1 Hst Hai Hl.
  set (w1 := afterIo (objects e u)) in *.
  set (m1 := touch (now (afterIo w1)) (setQuestions [message] m)).
  set (w3 := withStored (Some (recordOf m1)) (afterIo (afterIo w1))).
  pose proof (InsightFacts.insight_of_answer message m1
                (withObject u w3 (withObject u w1 e)) ps text Hai Hl) as Hgen.
  pose proof (ChatFacts.chat_run nativeMessage e
                (afterAi (withObject u w3 (withObject u w1 e)))
                u message (orApology text) m
                _ (Obj [("error", Str (nativeMessage StorageError))]) [] Hu Hmsg
                (WorkerFacts.get_fails (objects e u) NoBody Hapi Hn0) eq_refl
                eq_refl) as Hrun.
  cbv zeta in Hrun. cbn [app] in Hrun. fold w1 m1 w3 in Hrun.
  assert (Hapi1 : storageApi w1 = true) by (unfold w1; now rewrite storageApi_afterIo).
  assert (Hst1 : stored w1 = Some (recordOf m)) by (unfold w1; now rewrite stored_afterIo).
  specialize (Hrun Hapi1 Hio1 Hst1 Hgen (WorkerFacts.objects_withObject u w3 _)).
  destruct (ChatFacts.chat_answer nativeMessage e _ u message _ m _ _ Hrun)
    as (r & e' & Hf & Hc & Ha & Hs).
  exists r, e', (now (afterIo w3)). auto.
Qed.

Lemma failed_read_wipes_the_questions_witness :
  exists r e' t,
    edgeFetch (fun _ => "message"%string)
      (mkEdgeRequest "/chat" "POST" (JsonText (chatBody "u1" "Q2")) None)
      (mkEdge (fun _ => failingReadWorld)
              (fun _ => Some (Obj [("response", Str "Because.")])) 0 0 [])
    = (Returned r, e') /\
    code r = 200 /\
    stored (objects e' "u1") =
    Some (recordOf (mkMemory ["A"] ["B"] [] ["Q2"] ["Because."] 100 t)).
Proof.
  apply (failed_read_wipes_the_questions (fun _ => "message"%string)
           (mkEdge (fun _ => failingReadWorld)
                   (fun _ => Some (Obj [("response", Str "Because.")])) 0 0 [])
           "u1" "Q2" (mkMemory ["A"] ["B"] [] ["Q1"] [] 100 100)
           [("response", Str "Because.")] "Because.");
    [discriminate | discriminate | reflexivity | reflexivity | reflexivity
    | reflexivity | reflexivity | reflexivity].
Defined.

(** ** What the worker makes of a failure of the object *)

(** X27.  POST /risk says "Updated" when nothing was updated.  Over the
    first revision, when the read of the object fails, the object answers
    500 and the worker, which does not look at the status, answers 200 with
    [{ userId, message: "Updated" }] and no profile; the stored record is the
    one from before. *)
Theorem risk_says_updated_after_a_failure
  (nativeMessage : exn -> string) (e : Edge) (u : string)
  (risks conds : option (list string)) :
  u <> ""%string ->
  storageApi (objects e u) = true -> nextFails (objects e u) = true ->
  exists r e',
    edgeFetch nativeMessage
      (mkEdgeRequest "/risk" "POST" (JsonText (riskBody u risks conds)) None) e
    = (Returned r, e') /\
    code r = 200 /\
    answer r = JsonText (Obj [("userId", Str u); ("message", Str "Updated")]) /\
    stored (objects e' u) = stored (objects e u).
Proof.
  intros Hu Hapi Hn.
  pose proof (WorkerFacts.truthy_name u Hu) as Ht.
  assert (Hrun :
    handleRisk nativeMessage UserContextDOFetch.fetch
      (mkEdgeRequest "/risk" "POST" (JsonText (riskBody u risks conds)) None) e
    = (Returned (okJson (Obj [("userId", Str u); ("message", Str "Updated");
                              ("profile", Undefined)])),
       withObject u (afterIo (objects e u)) e)).
  { unfold handleRisk, postMemory.
    destruct risks as [rs|], conds as [cs|];
      unfold ebind, elift, eret;
      cbn [content parseJson riskBody optionalField app getProp lookup
           String.eqb Ascii.eqb Bool.eqb inherited existsb orb];
      rewrite Ht; cbn [negb idFromName JSON_stringify];
      match goal with
      | |- context [stubFetch _ u (mkRequest _ _ (JsonText ?p)) e] =>
          rewrite (WorkerFacts.stub_run u _ e _ _
                     (WorkerFacts.post_fails (objects e u) p Hapi Hn))
      end; reflexivity. }
  eexists _, _. split; [|split; [|split]].
  - apply HandlerFacts.fetch_risk; [reflexivity | reflexivity | exact Hrun].
  - reflexivity.
  - reflexivity.
  - rewrite WorkerFacts.objects_withObject. apply stored_afterIo.
Qed.

Lemma risk_says_updated_after_a_failure_witness :
  exists r e',
    edgeFetch (fun _ => "message"%string)
      (mkEdgeRequest "/risk" "POST" (JsonText (riskBody "u1" (Some ["X"]) None)) None)
      (mkEdge (fun _ => failingReadWorld) (fun _ => None) 0 0 [])
    = (Returned r, e') /\
    code r = 200 /\
    answer r = JsonText (Obj [("userId", Str "u1"); ("message", Str "Updated")]) /\
    stored (objects e' "u1") = Some sampleRecord.
Proof.
  apply (risk_says_updated_after_a_failure (fun _ => "message"%string)
           (mkEdge (fun _ => failingReadWorld) (fun _ => None) 0 0 []) "u1"
           (Some ["X"]) None);
    [discriminate | reflexivity | reflexivity].
Defined.

(** X28.  GET /context is answered 200 whatever the object answers.  Over
    the first revision and a stored record of the schema, the answer holds
    the record as [memory] when the read succeeds, and the [{ error }] of the
    object's 500 as [memory] when it fails; nothing is written either way. *)
Theorem context_is_200_with_record_or_error
  (nativeMessage : exn -> string) (e : Edge) (u : string) (m : Memory) (b : text) :
  u <> ""%string ->
  storageApi (objects e u) = true -> stored (objects e u) = Some (recordOf m) ->
  exists r e',
    edgeFetch nativeMessage (mkEdgeRequest "/context" "GET" b (Some u)) e
    = (Returned r, e') /\
    code r = 200 /\
    answer r =
    JsonText (Obj [("userId", Str u);
                   ("memory", if nextFails (objects e u)
                              then Obj [("error", Str (nativeMessage StorageError))]
                              else recordOf m)]) /\
    stored (objects e' u) = stored (objects e u).
Proof.
  intros Hu Hapi Hst.
  assert (Hrun :
    handleGetContext nativeMessage UserContextDOFetch.fetch
      (mkEdgeRequest "/context" "GET" b (Some u)) e
    = (Returned (okJson (Obj [("userId", Str u);
                              ("memory", if nextFails (objects e u)
                                         then Obj [("error", Str (nativeMessage StorageError))]
                                         else recordOf m)])),
       withObject u (afterIo (objects e u)) e)).
  { unfold handleGetContext, getMemoryOf. cbn [userIdParam].
    destruct u as [|c u']; [congruence|].
    destruct (nextFails (objects e (String c u'))) eqn:Hn.
    - rewrite (WorkerFacts.ebind_run _ _ _ _ _
                 (WorkerFacts.stub_run (String c u') _ e _ _
                    (WorkerFacts.get_fails _ NoBody Hapi Hn))).
      reflexivity.
    - rewrite (WorkerFacts.ebind_run _ _ _ _ _
                 (WorkerFacts.stub_run (String c u') _ e _ _
                    (WorkerFacts.get_record _ m Hapi Hn Hst))).
      reflexivity. }
  eexists _, _. split; [|split; [|split]].
  - unfold edgeFetch, fetch, etry, ebind.
    cbn [verb route String.eqb Ascii.eqb Bool.eqb andb]. rewrite Hrun. reflexivity.
  - reflexivity.
  - cbn [withCORS answer okJson JSON_stringify]. f_equal.
    destruct (nextFails (objects e u)); [reflexivity|].
    apply jsonValue_id. cbn [isJson forallb snd andb].
    now rewrite WorkerFacts.isJson_recordOf.
  - rewrite WorkerFacts.objects_withObject. apply stored_afterIo.
Qed.

Lemma context_is_200_with_record_or_error_witness :
  exists r e',
    edgeFetch (fun _ => "message"%string)
      (mkEdgeRequest "/context" "GET" NoBody (Some "u1"%string))
      (mkEdge (fun _ => failingReadWorld) (fun _ => None) 0 0 [])
    = (Returned r, e') /\
    code r = 200 /\
    answer r = JsonText (Obj [("userId", Str "u1");
                              ("memory", Obj [("error", Str "message")])]) /\
    stored (objects e' "u1") = Some sampleRecord.
Proof.
  apply (context_is_200_with_record_or_error (fun _ => "message"%string)
           (mkEdge (fun _ => failingReadWorld) (fun _ => None) 0 0 []) "u1"
           (mkMemory ["A"] ["B"] [] ["Q1"] [] 100 100) NoBody);
    [discriminate | reflexivity | reflexivity].
Defined.

(** X29.  A request without a user is refused before any object is reached.
    When the JSON body has no [userId], or a falsy one, POST /risk and POST
    /chat are answered 500 with "Missing userId" and "Missing userId or
    message"; so is GET /context without a [userId] in the query, or with an
    empty one.  The only change of the environment is the line of the log:
    no durable object is touched and the model is not called. *)
Theorem requests_without_user_are_refused
  (nativeMessage : exn -> string) (doFetch : Request -> M Response)
  (e : Edge) (ps : props) (b : text) (q : option string) :
  (forall v, lookup "userId" ps = Some v -> truthy v = false) ->
  fetch nativeMessage doFetch (mkEdgeRequest "/risk" "POST" (JsonText (Obj ps)) q) e
  = (Returned (errorResponse "Missing userId"), afterError "Error:" e) /\
  fetch nativeMessage doFetch (mkEdgeRequest "/chat" "POST" (JsonText (Obj ps)) q) e
  = (Returned (errorResponse "Missing userId or message"), afterError "Error:" e) /\
  fetch nativeMessage doFetch (mkEdgeRequest "/context" "GET" b None) e
  = (Returned (errorResponse "Missing userId"), afterError "Error:" e) /\
  fetch nativeMessage doFetch (mkEdgeRequest "/context" "GET" b (Some ""%string)) e
  = (Returned (errorResponse "Missing userId"), afterError "Error:" e).
Proof.
  intros Hu.
  assert (Hid : exists v, getProp (Obj ps) "userId" = Ok v /\ truthy v = false).
  { cbn [getProp]. destruct (lookup "userId" ps) as [v|] eqn:El.
    - exists v. split; [reflexivity | now apply Hu].
    - exists Undefined. split; reflexivity. }
  destruct Hid as (v & Hv & Ht).
  assert (Hany : forall k, inherited k = false -> exists x, getProp (Obj ps) k = Ok x).
  { intros k Hk. cbn [getProp]. destruct (lookup k ps) as [x|]; [now exists x|].
    rewrite Hk. now exists Undefined. }
  destruct (Hany "riskFactors"%string eq_refl) as [x1 H1].
  destruct (Hany "conditions"%string eq_refl) as [x2 H2].
  destruct (Hany "message"%string eq_refl) as [x3 H3].
  split; [|split; [|split]].
  - unfold fetch, etry, handleRisk.
    cbn [verb route content parseJson String.eqb Ascii.eqb Bool.eqb andb].
    unfold ebind, elift. rewrite Hv, H1, H2, Ht. reflexivity.
  - unfold fetch, etry, handleChat.
    cbn [verb route content parseJson String.eqb Ascii.eqb Bool.eqb andb].
    unfold ebind, elift. rewrite Hv, H3, Ht. reflexivity.
  - reflexivity.
  - reflexivity.
Qed.

Lemma requests_without_user_are_refused_witness :
  let e := mkEdge (fun _ => sampleWorld) (fun _ => None) 0 0 [] in
  let ps := [("userId", Str ""); ("message", Str "Q2")] in
  edgeFetch (fun _ => "message"%string)
    (mkEdgeRequest "/risk" "POST" (JsonText (Obj ps)) None) e
  = (Returned (errorResponse "Missing userId"), afterError "Error:" e) /\
  edgeFetch (fun _ => "message"%string)
    (mkEdgeRequest "/chat" "POST" (JsonText (Obj ps)) None) e
  = (Returned (errorResponse "Missing userId or message"), afterError "Error:" e) /\
  edgeFetch (fun _ => "message"%string) (mkEdgeRequest "/context" "GET" NoBody None) e
  = (Returned (errorResponse "Missing userId"), afterError "Error:" e) /\
  edgeFetch (fun _ => "message"%string)
    (mkEdgeRequest "/context" "GET" NoBody (Some ""%string)) e
  = (Returned (errorResponse "Missing userId"), afterError "Error:" e).
Proof.
  apply (requests_without_user_are_refused (fun _ => "message"%string)
           UserContextDOFetch.fetch
           (mkEdge (fun _ => sampleWorld) (fun _ => None) 0 0 [])
           [("userId", Str ""); ("message", Str "Q2")] NoBody None).
  intros v Hv. cbn in Hv. injection Hv as <-. reflexivity.
Defined.
